(** * Collaboration-mode synchronisation core: a shallow embedding

    Each module below embeds one source file of the repository:

    - [ModeHandlers]        src/ipc/handlers/mode_handlers.ts
    - [RedisBus]            src/distributed/redis_event_bus.ts
    - [WebSocketSync]       src/distributed/websocket_sync.ts
    - [DistributedMemory]   src/distributed/distributed_memory_manager.ts,
                            src/distributed/mongodb_client.ts
    - [InspiredMode]        src/ipc/utils/inspired_mode_utils.ts
    - [DidacticMode]        src/ipc/utils/didactic_mode_utils.ts
    - [ModeRouting]         src/ipc/utils/mode_aware_routing.ts
    - [ParallelMode]        src/ipc/utils/parallel_mode_utils.ts
    - [MultiMcp]            src/ipc/utils/multi_mcp_coordinator.ts

    Conventions.  Times are milliseconds in [Z].  A table of the local
    SQLite database is the list of its rows in row order.  A JavaScript
    [Map] that is only looked up is a [gmap string _]; one that the code
    iterates over is the list of its entries in insertion order ([JsMap]).
    A thrown exception is a constructor of the result type that still
    carries the state reached when it was thrown. *)

From stdpp Require Import gmap strings list fin_maps pretty.
From Stdlib Require Import ZArith NArith Ascii String Lia Sorted.

Local Open Scope string_scope.
Local Open Scope Z_scope.
Local Open Scope list_scope.

(* ===================================================================== *)
(** * Mode state machine (mode_handlers.ts)                                *)
(* ===================================================================== *)

Module ModeHandlers.

Inductive AICollaborationMode := inspired | didactic | parallel.

#[global] Instance AICollaborationMode_eq_dec : EqDecision AICollaborationMode.
Proof. solve_decision. Defined.

(** The text stored in the [mode] column and spliced into messages. *)
Definition mode_text (m : AICollaborationMode) : string :=
  match m with
  | inspired => "inspired"
  | didactic => "didactic"
  | parallel => "parallel"
  end.

Record ModeCapabilityDescriptor := {
  cap_mode : AICollaborationMode;
  localAI : bool;
  externalAI : bool;
  multiChannel : bool;
  offlineCapable : bool;
  realTimeSync : bool;
  mcpServerIds : option (list Z)
}.

(** JSON-valued columns ([configuration], [context_snapshot]) are kept as
    their stored text; [None] is SQL NULL. *)
Definition JsonText := string.

(** Row of [ai_collaboration_modes], as a query returns it;
    [mr_lastActivatedAt] is the [Date] the timestamp column reads back
    as. *)
Record ModeRow := {
  mr_mode : AICollaborationMode;
  mr_isActive : bool;
  mr_configuration : option JsonText;
  mr_lastActivatedAt : option Z
}.

(** Row of [mode_capabilities]. *)
Record CapRow := {
  cr_mode : AICollaborationMode;
  cr_localAI : bool;
  cr_externalAI : bool;
  cr_multiChannel : bool;
  cr_offlineCapable : bool;
  cr_realTimeSync : bool;
  cr_mcpServerIds : option (list Z)
}.

(** Row of [mode_transition_history]. *)
Record HistoryRow := {
  h_id : Z;
  h_fromMode : option AICollaborationMode;
  h_toMode : AICollaborationMode;
  h_contextSnapshot : option JsonText;
  h_transitionDuration : Z;
  h_success : bool;
  h_errorMessage : option string;
  h_createdAt : Z
}.

Record Db := {
  aiCollaborationModes : list ModeRow;
  modeCapabilities : list CapRow;
  modeTransitionHistory : list HistoryRow;
  (** autoincrement counter of [mode_transition_history] *)
  history_seq : Z
}.

Record AICollaborationModeStatus := {
  st_mode : AICollaborationMode;
  st_isActive : bool;
  st_lastActivatedAt : option Z;
  st_configuration : option JsonText;
  st_capabilities : ModeCapabilityDescriptor
}.

Record ModeTransitionRecord := {
  tr_id : Z;
  tr_fromMode : option AICollaborationMode;
  tr_toMode : AICollaborationMode;
  tr_transitionDuration : Z;
  tr_success : bool;
  tr_errorMessage : option string;
  tr_createdAt : Z
}.

Record SwitchModeParams := {
  targetMode : AICollaborationMode;
  contextSnapshot : option JsonText
}.

Record SwitchModeResult := {
  res_mode : AICollaborationModeStatus;
  res_transition : ModeTransitionRecord;
  res_preservedContext : option JsonText
}.

Record ModeStateSnapshot := {
  snap_currentMode : AICollaborationMode;
  snap_previousMode : option AICollaborationMode;
  snap_availableModes : list AICollaborationModeStatus;
  snap_modeHistory : list ModeTransitionRecord
}.

(** The clock readings one handler invocation takes, in program order. *)
Record Clock := {
  t_start : Z;      (* const startTime = Date.now() *)
  t_ensure : Z;     (* new Date() inside ensureModesExist *)
  t_activate : Z;   (* new Date() of the activating update *)
  t_end : Z;        (* Date.now() ending the measurement in the try block *)
  t_insert : Z;     (* created_at default of the row the try block inserts *)
  t_catch : Z;      (* Date.now() in the catch block *)
  t_insert_catch : Z (* created_at default of the row the catch block inserts *)
}.

(** ** Timestamp columns *)

(** [last_activated_at] is declared [integer(.., { mode: "timestamp" })]:
    the column keeps whole seconds.  A [Date] written to it is stored as
    [Math.floor(getTime() / 1000)] and read back as that many seconds, so
    it comes back truncated to the second. *)
Definition stored_timestamp (t : Z) : Z := 1000 * (t / 1000).

(** ** Queries *)

Definition rows_of_mode (m : AICollaborationMode) (t : list ModeRow) : list ModeRow :=
  List.filter (fun r => bool_decide (mr_mode r = m)) t.

Definition caps_of_mode (m : AICollaborationMode) (t : list CapRow) : list CapRow :=
  List.filter (fun r => bool_decide (cr_mode r = m)) t.

Definition active_rows (t : list ModeRow) : list ModeRow :=
  List.filter mr_isActive t.

Definition getDefaultCapabilities (mode : AICollaborationMode) : ModeCapabilityDescriptor :=
  match mode with
  | inspired =>
      {| cap_mode := mode; localAI := true; externalAI := false;
         multiChannel := false; offlineCapable := true; realTimeSync := false;
         mcpServerIds := None |}
  | didactic =>
      {| cap_mode := mode; localAI := false; externalAI := true;
         multiChannel := false; offlineCapable := false; realTimeSync := true;
         mcpServerIds := None |}
  | parallel =>
      {| cap_mode := mode; localAI := true; externalAI := true;
         multiChannel := true; offlineCapable := false; realTimeSync := true;
         mcpServerIds := None |}
  end.

Definition getModeWithCapabilities (mode : AICollaborationMode) (db : Db)
  : option AICollaborationModeStatus :=
  match rows_of_mode mode (aiCollaborationModes db) with
  | [] => None
  | modeRecord :: _ =>
      let capabilityDescriptor :=
        match caps_of_mode mode (modeCapabilities db) with
        | cap :: _ =>
            {| cap_mode := mode;
               localAI := cr_localAI cap;
               externalAI := cr_externalAI cap;
               multiChannel := cr_multiChannel cap;
               offlineCapable := cr_offlineCapable cap;
               realTimeSync := cr_realTimeSync cap;
               mcpServerIds := cr_mcpServerIds cap |}
        | [] => getDefaultCapabilities mode
        end in
      Some {| st_mode := mr_mode modeRecord;
              st_isActive := mr_isActive modeRecord;
              st_lastActivatedAt := mr_lastActivatedAt modeRecord;
              st_configuration := mr_configuration modeRecord;
              st_capabilities := capabilityDescriptor |}
  end.

(** ** Outcomes of database code *)

(** A handler either returns a value or throws; both leave a database. *)
Inductive outcome (A : Type) :=
  | Returned (a : A) (db : Db)
  | Thrown (message : string) (db : Db).
Arguments Returned {A} a db.
Arguments Thrown {A} message db.

(** ** ensureModesExist *)

Definition with_modes (t : list ModeRow) (db : Db) : Db :=
  {| aiCollaborationModes := t;
     modeCapabilities := modeCapabilities db;
     modeTransitionHistory := modeTransitionHistory db;
     history_seq := history_seq db |}.

Definition with_caps (t : list CapRow) (db : Db) : Db :=
  {| aiCollaborationModes := aiCollaborationModes db;
     modeCapabilities := t;
     modeTransitionHistory := modeTransitionHistory db;
     history_seq := history_seq db |}.

(** One iteration of the loop.  [mode_capabilities.mode] is declared
    [unique()], so the second insert is refused when a capability row of
    that mode is already there; the first insert has then happened. *)
Definition ensure_one (now : Z) (mode : AICollaborationMode) (db : Db)
  : outcome unit :=
  match rows_of_mode mode (aiCollaborationModes db) with
  | [] =>
      let db1 :=
        with_modes
          (aiCollaborationModes db ++
           [ {| mr_mode := mode;
                mr_isActive := bool_decide (mode = inspired);
                mr_configuration := None;
                mr_lastActivatedAt :=
                  if bool_decide (mode = inspired)
                  then Some (stored_timestamp now) else None |} ])
          db in
      let defaultCap := getDefaultCapabilities mode in
      match caps_of_mode mode (modeCapabilities db1) with
      | _ :: _ => Thrown "UNIQUE constraint failed: mode_capabilities.mode" db1
      | [] =>
          Returned tt
            (with_caps
               (modeCapabilities db1 ++
                [ {| cr_mode := mode;
                     cr_localAI := localAI defaultCap;
                     cr_externalAI := externalAI defaultCap;
                     cr_multiChannel := multiChannel defaultCap;
                     cr_offlineCapable := offlineCapable defaultCap;
                     cr_realTimeSync := realTimeSync defaultCap;
                     cr_mcpServerIds := None |} ])
               db1)
      end
  | _ :: _ => Returned tt db
  end.

Fixpoint ensure_loop (now : Z) (modes : list AICollaborationMode) (db : Db)
  : outcome unit :=
  match modes with
  | [] => Returned tt db
  | mode :: rest =>
      match ensure_one now mode db with
      | Returned _ db' => ensure_loop now rest db'
      | Thrown e db' => Thrown e db'
      end
  end.

Definition ensureModesExist (now : Z) (db : Db) : outcome unit :=
  ensure_loop now [inspired; didactic; parallel] db.

(** ** Updates *)

(** [update(aiCollaborationModes).set(f).where(eq(mode, m))] *)
Definition update_mode (m : AICollaborationMode) (f : ModeRow -> ModeRow) (db : Db) : Db :=
  {| aiCollaborationModes :=
       List.map (fun r => if bool_decide (mr_mode r = m) then f r else r)
                (aiCollaborationModes db);
     modeCapabilities := modeCapabilities db;
     modeTransitionHistory := modeTransitionHistory db;
     history_seq := history_seq db |}.

Definition set_inactive (r : ModeRow) : ModeRow :=
  {| mr_mode := mr_mode r; mr_isActive := false;
     mr_configuration := mr_configuration r;
     mr_lastActivatedAt := mr_lastActivatedAt r |}.

Definition set_active (now : Z) (r : ModeRow) : ModeRow :=
  {| mr_mode := mr_mode r; mr_isActive := true;
     mr_configuration := mr_configuration r;
     mr_lastActivatedAt := Some (stored_timestamp now) |}.

(** [insert(modeTransitionHistory).values(..).returning()]: the stored row,
    with its autoincrement id and default [created_at], and the new
    database. *)
Definition insert_history (createdAt : Z)
    (fromMode : option AICollaborationMode) (toMode : AICollaborationMode)
    (snapshot : option JsonText) (duration : Z) (success : bool)
    (errorMessage : option string) (db : Db) : HistoryRow * Db :=
  let row := {| h_id := history_seq db + 1;
                h_fromMode := fromMode; h_toMode := toMode;
                h_contextSnapshot := snapshot;
                h_transitionDuration := duration;
                h_success := success; h_errorMessage := errorMessage;
                h_createdAt := createdAt |} in
  (row,
   {| aiCollaborationModes := aiCollaborationModes db;
      modeCapabilities := modeCapabilities db;
      modeTransitionHistory := modeTransitionHistory db ++ [row];
      history_seq := history_seq db + 1 |}).

(** ** The [mode:switch-mode] handler *)

Definition currentModeOf (db : Db) : option AICollaborationMode :=
  match active_rows (aiCollaborationModes db) with
  | r :: _ => Some (mr_mode r)
  | [] => None
  end.

(** The body of the [try] block. *)
Definition switch_try (clk : Clock) (params : SwitchModeParams) (db : Db)
  : outcome SwitchModeResult :=
  let currentMode := currentModeOf db in
  if bool_decide (currentMode = Some (targetMode params)) then
    Thrown ("Already in " +:+ mode_text (targetMode params)
              +:+ " mode. No switch needed.") db
  else
    let db1 := match currentMode with
               | Some c => update_mode c set_inactive db
               | None => db
               end in
    let db2 := update_mode (targetMode params) (set_active (t_activate clk)) db1 in
    let transitionDuration := t_end clk - t_start clk in
    let '(row, db3) :=
      insert_history (t_insert clk) currentMode (targetMode params)
        (contextSnapshot params) transitionDuration true None db2 in
    match getModeWithCapabilities (targetMode params) db3 with
    | None =>
        Thrown ("Failed to retrieve status for mode "
                  +:+ mode_text (targetMode params)) db3
    | Some newModeStatus =>
        Returned
          {| res_mode := newModeStatus;
             res_transition :=
               {| tr_id := h_id row;
                  tr_fromMode := currentMode;
                  tr_toMode := targetMode params;
                  tr_transitionDuration := transitionDuration;
                  tr_success := true;
                  tr_errorMessage := None;
                  tr_createdAt := h_createdAt row |};
             res_preservedContext := contextSnapshot params |}
          db3
    end.

(** The handler: [ensureModesExist] (outside the [try]), the [try] block,
    and the [catch] block that records the failed transition and
    rethrows. *)
Definition switchMode (clk : Clock) (params : SwitchModeParams) (db : Db)
  : outcome SwitchModeResult :=
  match ensureModesExist (t_ensure clk) db with
  | Thrown e db0 => Thrown e db0
  | Returned _ db0 =>
      match switch_try clk params db0 with
      | Returned r db' => Returned r db'
      | Thrown errorMessage db' =>
          let transitionDuration := t_catch clk - t_start clk in
          let '(_, db'') :=
            insert_history (t_insert_catch clk) None (targetMode params) None
              transitionDuration false (Some errorMessage) db' in
          Thrown ("Mode switch failed: " +:+ errorMessage) db''
      end
  end.

(** ** The [mode:get-state] handler *)

Definition to_record (h : HistoryRow) : ModeTransitionRecord :=
  {| tr_id := h_id h; tr_fromMode := h_fromMode h; tr_toMode := h_toMode h;
     tr_transitionDuration := h_transitionDuration h;
     tr_success := h_success h; tr_errorMessage := h_errorMessage h;
     tr_createdAt := h_createdAt h |}.

Definition availableModesOf (db : Db) : list AICollaborationModeStatus :=
  omap (fun modeRecord => getModeWithCapabilities (mr_mode modeRecord) db)
       (aiCollaborationModes db).

Definition snapshotCurrentMode (db : Db) : AICollaborationMode :=
  match List.filter st_isActive (availableModesOf db) with
  | s :: _ => st_mode s
  | [] => inspired
  end.

(** ** Shapes of the mode table *)

(** A table has a row of every mode. *)
Definition modes_exist (db : Db) : Prop :=
  forall m, rows_of_mode m (aiCollaborationModes db) <> [].

(** In the table [t] exactly the rows of mode [target] are active, and
    there is one. *)
Definition only_active (target : AICollaborationMode) (t : list ModeRow) : Prop :=
  rows_of_mode target t <> []
  /\ forall r, In r t -> (mr_isActive r = true <-> mr_mode r = target).

(** ** Sample inputs *)

Definition emptyDb : Db :=
  {| aiCollaborationModes := []; modeCapabilities := [];
     modeTransitionHistory := []; history_seq := 0 |}.

Definition sampleClock : Clock :=
  {| t_start := 1000; t_ensure := 1001; t_activate := 1003; t_end := 1004;
     t_insert := 1005; t_catch := 1006; t_insert_catch := 1007 |}.

(** A clock that is set back one second while the handler runs. *)
Definition backwardClock : Clock :=
  {| t_start := 2000; t_ensure := 2001; t_activate := 1003; t_end := 1000;
     t_insert := 1005; t_catch := 1006; t_insert_catch := 1007 |}.

Definition toDidactic : SwitchModeParams :=
  {| targetMode := didactic; contextSnapshot := None |}.

Definition toInspired : SwitchModeParams :=
  {| targetMode := inspired; contextSnapshot := None |}.

(** ** The other handlers *)

(** The database an invocation leaves, whether it returned or threw. *)
Definition db_of {A : Type} (o : outcome A) : Db :=
  match o with
  | Returned _ db => db
  | Thrown _ db => db
  end.

(** The two rows [ensureModesExist] inserts for a mode that has none. *)
Definition seed_row (now : Z) (mode : AICollaborationMode) : ModeRow :=
  {| mr_mode := mode;
     mr_isActive := bool_decide (mode = inspired);
     mr_configuration := None;
     mr_lastActivatedAt :=
       if bool_decide (mode = inspired) then Some (stored_timestamp now) else None |}.

Definition seed_cap (mode : AICollaborationMode) : CapRow :=
  {| cr_mode := mode;
     cr_localAI := localAI (getDefaultCapabilities mode);
     cr_externalAI := externalAI (getDefaultCapabilities mode);
     cr_multiChannel := multiChannel (getDefaultCapabilities mode);
     cr_offlineCapable := offlineCapable (getDefaultCapabilities mode);
     cr_realTimeSync := realTimeSync (getDefaultCapabilities mode);
     cr_mcpServerIds := None |}.

(** [mode:get-mode-status] *)
Definition getModeStatus (now : Z) (mode : AICollaborationMode) (db : Db)
  : outcome (option AICollaborationModeStatus) :=
  match ensureModesExist now db with
  | Thrown e db0 => Thrown e db0
  | Returned _ db0 => Returned (getModeWithCapabilities mode db0) db0
  end.

Record UpdateModeConfigurationParams := {
  up_mode : AICollaborationMode;
  up_configuration : option JsonText
}.

Definition set_configuration (c : option JsonText) (r : ModeRow) : ModeRow :=
  {| mr_mode := mr_mode r; mr_isActive := mr_isActive r;
     mr_configuration := c;
     mr_lastActivatedAt := mr_lastActivatedAt r |}.

(** [mode:update-configuration].  The update also stamps [updated_at], a
    column no handler reads and [ModeRow] does not keep. *)
Definition updateConfiguration (now : Z) (params : UpdateModeConfigurationParams)
    (db : Db) : outcome AICollaborationModeStatus :=
  match ensureModesExist now db with
  | Thrown e db0 => Thrown e db0
  | Returned _ db0 =>
      let db1 := update_mode (up_mode params)
                   (set_configuration (up_configuration params)) db0 in
      match getModeWithCapabilities (up_mode params) db1 with
      | None =>
          Thrown ("Failed to update configuration for mode "
                    +:+ mode_text (up_mode params)) db1
      | Some updated => Returned updated db1
      end
  end.

(** What [select().from(modeTransitionHistory)
    .orderBy(desc(createdAt)).limit(n)] may return for a table: the first
    [n] rows of the table sorted by creation time, newest first.  The order
    among rows created at the same time is the database's choice. *)
Definition newest_first (n : nat) (table result : list HistoryRow) : Prop :=
  exists sorted,
    Permutation table sorted
    /\ Sorted (fun a b => h_createdAt b <= h_createdAt a) sorted
    /\ result = take n sorted.

(** One such answer: rows created at the same time in table order. *)
Fixpoint insert_newest (r : HistoryRow) (l : list HistoryRow) : list HistoryRow :=
  match l with
  | [] => [r]
  | x :: l' =>
      if h_createdAt x <? h_createdAt r then r :: l else x :: insert_newest r l'
  end.

Definition recent_history (n : nat) (table : list HistoryRow) : list HistoryRow :=
  take n (fold_right insert_newest [] table).

(** [mode:get-state]; [historyRecords] is the answer of the history
    query. *)
Definition getState (now : Z) (historyRecords : list HistoryRow) (db : Db)
  : outcome ModeStateSnapshot :=
  match ensureModesExist now db with
  | Thrown e db0 => Thrown e db0
  | Returned _ db0 =>
      let modeHistory := List.map to_record historyRecords in
      Returned
        {| snap_currentMode := snapshotCurrentMode db0;
           snap_previousMode :=
             match modeHistory with
             | h :: _ => tr_fromMode h
             | [] => None
             end;
           snap_availableModes := availableModesOf db0;
           snap_modeHistory := modeHistory |}
        db0
  end.

(** [mode:get-transition-history]; it does not call [ensureModesExist]. *)
Definition getTransitionHistory (historyRecords : list HistoryRow)
  : list ModeTransitionRecord :=
  List.map to_record historyRecords.

(** A call of one of the handlers, with the readings of the environment
    it takes. *)
Inductive Call :=
  | CallGetState (now : Z) (historyRecords : list HistoryRow)
  | CallGetModeStatus (now : Z) (mode : AICollaborationMode)
  | CallSwitchMode (clk : Clock) (params : SwitchModeParams)
  | CallUpdateConfiguration (now : Z) (params : UpdateModeConfigurationParams).

Definition call (db : Db) (c : Call) : Db :=
  match c with
  | CallGetState now h => db_of (getState now h db)
  | CallGetModeStatus now mode => db_of (getModeStatus now mode db)
  | CallSwitchMode clk params => db_of (switchMode clk params db)
  | CallUpdateConfiguration now params => db_of (updateConfiguration now params db)
  end.

(** The database after a series of calls on a fresh one. *)
Definition calls (cs : list Call) : Db := fold_left call cs emptyDb.

(** The targets of the [mode:switch-mode] calls of a series, in call
    order. *)
Definition switch_targets (cs : list Call) : list AICollaborationMode :=
  omap (fun c => match c with
                 | CallSwitchMode _ params => Some (targetMode params)
                 | _ => None
                 end) cs.

(** Reading a history from the mode [cur] on: a row marked successful
    must leave the mode reached so far for another one, a row marked
    failed must name no mode left.  The result is the mode reached at the
    end, if every row fits. *)
Fixpoint follows (cur : AICollaborationMode) (rows : list HistoryRow)
  : option AICollaborationMode :=
  match rows with
  | [] => Some cur
  | r :: rest =>
      if h_success r then
        if bool_decide (h_fromMode r = Some cur)
           && negb (bool_decide (h_toMode r = cur))
        then follows (h_toMode r) rest
        else None
      else
        if bool_decide (h_fromMode r = None) then follows cur rest else None
  end.

(** ** Databases the handlers make *)

(** The mode table has one row per mode, in the order [ensureModesExist]
    inserts them, and of these exactly the row of [cur] is active. *)
Definition seeded (cur : AICollaborationMode) (db : Db) : Prop :=
  List.map mr_mode (aiCollaborationModes db) = [inspired; didactic; parallel]
  /\ List.map mr_isActive (aiCollaborationModes db)
     = List.map (fun m => bool_decide (m = cur)) [inspired; didactic; parallel].

End ModeHandlers.

(* ===================================================================== *)
(** * Handler registries shared by the bus and the transport              *)
(* ===================================================================== *)

(** Both [RedisEventBus] and the WebSocket classes keep
    [handlers : Map<type, Set<handler>>] and run the same loop over the
    set: call each handler in insertion order inside its own [try]/[catch].
    A handler is a closure with side effects on the rest of the process,
    here a state [World]; it either completes or throws, and in both cases
    leaves a state behind. *)

Module Dispatch.
Section Dispatch.
Context {Msg World : Type}.

Record Handler := {
  handler_id : nat;                          (* identity of the closure *)
  handler_run : Msg -> World -> World * bool (* [true]: it threw *)
}.

(** [Set.prototype.add]: no effect when the same closure is present. *)
Definition set_add (h : Handler) (hs : list Handler) : list Handler :=
  if existsb (fun h' => Nat.eqb (handler_id h') (handler_id h)) hs
  then hs else hs ++ [h].

(** [Set.prototype.delete] *)
Definition set_delete (h : Handler) (hs : list Handler) : list Handler :=
  List.filter (fun h' => negb (Nat.eqb (handler_id h') (handler_id h))) hs.

(** [on(type, handler)] *)
Definition on (type : string) (h : Handler)
    (handlers : gmap string (list Handler)) : gmap string (list Handler) :=
  let handlers' :=
    match handlers !! type with
    | None => <[type := []]> handlers
    | Some _ => handlers
    end in
  match handlers' !! type with
  | Some hs => <[type := set_add h hs]> handlers'
  | None => handlers'
  end.

(** [off(type, handler)] *)
Definition off (type : string) (h : Handler)
    (handlers : gmap string (list Handler)) : gmap string (list Handler) :=
  match handlers !! type with
  | Some hs => <[type := set_delete h hs]> handlers
  | None => handlers
  end.

(** One entry of the trace of a dispatch. *)
Inductive Trace :=
  | Invoked (id : nat) (m : Msg)
  | HandlerError (id : nat) (m : Msg).

(** [for (const handler of handlers) { try { await handler(m) } catch
    { logger.error(..) } }] *)
Fixpoint run_handlers (hs : list Handler) (m : Msg) (w : World)
  : World * list Trace :=
  match hs with
  | [] => (w, [])
  | h :: rest =>
      let '(w1, threw) := handler_run h m w in
      let '(w2, tr) := run_handlers rest m w1 in
      (w2, Invoked (handler_id h) m
             :: (if threw then [HandlerError (handler_id h) m] else []) ++ tr)
  end.

(** [const handlers = this.handlers.get(type); if (handlers) { .. }] *)
Definition dispatch (handlers : gmap string (list Handler)) (type : string)
    (m : Msg) (w : World) : World * list Trace :=
  match handlers !! type with
  | Some hs => run_handlers hs m w
  | None => (w, [])
  end.

(** ** Reading a trace *)

(** The handlers a trace shows invoked, by identity, in order. *)
Definition invoked_ids (tr : list Trace) : list nat :=
  omap (fun e => match e with
                 | Invoked id _ => Some id
                 | HandlerError _ _ => None
                 end) tr.

(** The handlers whose error a trace shows logged. *)
Definition failed_ids (tr : list Trace) : list nat :=
  omap (fun e => match e with
                 | HandlerError id _ => Some id
                 | Invoked _ _ => None
                 end) tr.

(** Every set of the registry holds a closure at most once. *)
Definition registry_wf (handlers : gmap string (list Handler)) : Prop :=
  forall type hs, handlers !! type = Some hs -> NoDup (List.map handler_id hs).

End Dispatch.
Arguments Handler : clear implicits.
Arguments Trace : clear implicits.
End Dispatch.

(* ===================================================================== *)
(** * Event bus client (redis_event_bus.ts)                               *)
(* ===================================================================== *)

Module RedisBus.

(** [DistributedEvent<T>] *)
Record DistributedEvent (T : Type) := {
  eventId : string;
  eventType : string;
  userId : string;
  instanceId : string;
  timestamp : Z;
  payload : T;
  metadata : option string
}.
Arguments eventId {T} _.
Arguments eventType {T} _.
Arguments userId {T} _.
Arguments instanceId {T} _.
Arguments timestamp {T} _.
Arguments payload {T} _.
Arguments metadata {T} _.

(** A Redis connection object, as far as the client inspects it. *)
Record RedisClient := { isOpen : bool }.

Section Bus.
Context {T World : Type}.
(** [JSON.parse(message) as DistributedEvent]; [None] when it throws. *)
Variable JSON_parse : string -> option (DistributedEvent T).
Variable JSON_stringify : DistributedEvent T -> string.

Record Bus := {
  publisher : option RedisClient;
  subscriber : option RedisClient;
  handlers : gmap string (list (Dispatch.Handler (DistributedEvent T) World));
  bus_instanceId : string
}.

Definition getInstanceId (b : Bus) : string := bus_instanceId b.

(** [handleRedisMessage(message, _channel)]: the state the handlers left
    and the trace of handler invocations. *)
Definition handleRedisMessage (b : Bus) (message channel : string) (w : World)
  : World * list (Dispatch.Trace (DistributedEvent T)) :=
  match JSON_parse message with
  | None => (w, [])                       (* caught by the outer catch *)
  | Some event =>
      if bool_decide (instanceId event = bus_instanceId b) then (w, [])
      else Dispatch.dispatch (handlers b) (eventType event) event w
  end.

(** What [publish] hands to the Redis connection. *)
Record Published := { pub_channel : string; pub_message : string }.

(** [publish(eventType, userId, payload, metadata)].  [uuid] and [now] are
    the values of [uuidv4()] and [Date.now()]; [sendOk] tells whether
    [publisher.publish] resolved. *)
Definition publish (b : Bus) (uuid : string) (now : Z) (sendOk : bool)
    (type user : string) (payload' : T) (metadata' : option string)
  : string + Published :=
  match publisher b with
  | None => inl "Redis not initialized"
  | Some _ =>
      let event : DistributedEvent T :=
        {| eventId := uuid; eventType := type; userId := user;
           instanceId := bus_instanceId b; timestamp := now;
           payload := payload'; metadata := metadata' |} in
      let channel := "dyad:event:" +:+ type in
      let message := JSON_stringify event in
      if sendOk
      then inr {| pub_channel := channel; pub_message := message |}
      else inl "publish failed"
  end.

Definition on (b : Bus) (type : string)
    (h : Dispatch.Handler (DistributedEvent T) World) : Bus :=
  {| publisher := publisher b; subscriber := subscriber b;
     handlers := Dispatch.on type h (handlers b);
     bus_instanceId := bus_instanceId b |}.

Definition off (b : Bus) (type : string)
    (h : Dispatch.Handler (DistributedEvent T) World) : Bus :=
  {| publisher := publisher b; subscriber := subscriber b;
     handlers := Dispatch.off type h (handlers b);
     bus_instanceId := bus_instanceId b |}.

(** [isConnected()] *)
Definition isConnected (b : Bus) : bool :=
  match publisher b, subscriber b with
  | Some p, Some s => isOpen p && isOpen s
  | _, _ => false
  end.

(** [healthCheck()]; [pingOk] tells whether [publisher.ping()] resolved. *)
Definition healthCheck (b : Bus) (pingOk : bool) : bool :=
  match publisher b with
  | None => false
  | Some _ => pingOk
  end.

(** [initialize(config)].  [isConnecting] is the flag of that name as the
    call finds it; [connected] is what connecting the two clients and
    subscribing end in, an error or the two connections.  The result is
    the error thrown, if any, and the bus as the call leaves it. *)
Definition initialize (isConnecting : bool)
    (connected : string + RedisClient * RedisClient) (b : Bus)
  : option string * Bus :=
  match publisher b, subscriber b with
  | Some _, Some _ => (None, b)
  | _, _ =>
      if isConnecting then (None, b)
      else
        match connected with
        | inr (p, s) =>
            (None, {| publisher := Some p; subscriber := Some s;
                      handlers := handlers b;
                      bus_instanceId := bus_instanceId b |})
        | inl e =>
            (Some e, {| publisher := None; subscriber := None;
                        handlers := handlers b;
                        bus_instanceId := bus_instanceId b |})
        end
  end.

(** [close()]; an error of a connection is caught and logged. *)
Definition close (b : Bus) : Bus :=
  {| publisher := None; subscriber := None; handlers := handlers b;
     bus_instanceId := bus_instanceId b |}.

End Bus.
Arguments Bus : clear implicits.

(** ** Sample inputs *)

(** A toy wire format for the sample: the message text is the sender's
    instance id. *)
Definition busParse (s : string) : option (DistributedEvent unit) :=
  Some {| eventId := "e1"; eventType := "mode:changed"; userId := "u1";
          instanceId := s; timestamp := 0; payload := tt; metadata := None |}.

Definition countingHandler : Dispatch.Handler (DistributedEvent unit) nat :=
  {| Dispatch.handler_id := 7;
     Dispatch.handler_run := fun _ n => (S n, false) |}.

Definition sampleBus : Bus unit nat :=
  on {| publisher := Some {| isOpen := true |};
        subscriber := Some {| isOpen := true |};
        handlers := ∅; bus_instanceId := "X" |}
     "mode:changed" countingHandler.

End RedisBus.

(* ===================================================================== *)
(** * Insertion-ordered maps                                              *)
(* ===================================================================== *)

(** A JavaScript [Map<string, V>] that the code iterates over: the entries
    in insertion order.  [set] on a present key keeps its position. *)

Module JsMap.
Section JsMap.
Context {V : Type}.

Fixpoint get (k : string) (m : list (string * V)) : option V :=
  match m with
  | [] => None
  | (k', v) :: m' => if bool_decide (k' = k) then Some v else get k m'
  end.

Definition has (k : string) (m : list (string * V)) : bool :=
  match get k m with Some _ => true | None => false end.

Fixpoint set (k : string) (v : V) (m : list (string * V)) : list (string * V) :=
  match m with
  | [] => [(k, v)]
  | (k', v') :: m' =>
      if bool_decide (k' = k) then (k', v) :: m' else (k', v') :: set k v m'
  end.

Definition delete (k : string) (m : list (string * V)) : list (string * V) :=
  List.filter (fun e => negb (bool_decide (e.1 = k))) m.

Definition size (m : list (string * V)) : nat := List.length m.

(** Keys are unique; every operation above preserves it. *)
Definition wf (m : list (string * V)) : Prop := NoDup (m.*1).
End JsMap.
End JsMap.

(* ===================================================================== *)
(** * Live transport (websocket_sync.ts)                                  *)
(* ===================================================================== *)

Module WebSocketSync.

Record WSMessage := {
  id : string;
  type : string;
  userId : string;
  instanceId : string;
  timestamp : Z;
  payload : string               (* opaque payload, as its JSON text *)
}.

Inductive ReadyState := CONNECTING | OPEN | CLOSING | CLOSED.

#[global] Instance ReadyState_eq_dec : EqDecision ReadyState.
Proof. solve_decision. Defined.

(** A [ws.WebSocket] object of the server side.  [clientId_prop] is the
    ad-hoc property [(ws as any).clientId] that [handleMessage] reads. *)
Record Socket := {
  readyState : ReadyState;
  clientId_prop : option string
}.

(** [WSClientInfo]; [ws] is a reference into the heap of sockets. *)
Record WSClientInfo := {
  ws : nat;
  ci_userId : string;
  ci_instanceId : string;
  connectedAt : Z;
  lastPing : Z
}.

(** What the server does to a socket, in order. *)
Inductive Wire :=
  | Sent (ref : nat) (m : WSMessage)
  | Closed (ref : nat).

(** JavaScript truthiness of a string. *)
Definition truthy (s : string) : bool := negb (bool_decide (s = "")).

Definition staleAfter : Z := 90000.

Section Server.
Context {World : Type}.
(** [JSON.parse(data.toString()) as WSMessage]; [None] when it throws. *)
Variable JSON_parse : string -> option WSMessage.
(** The [n]-th identifier [uuidv4()] returns in this process. *)
Variable uuidv4 : nat -> string.

Record Server := {
  (** the [WebSocketServer], as its [clients] set of socket references *)
  wss : option (list nat);
  heap : gmap nat Socket;
  clients : list (string * WSClientInfo);
  handlers : gmap string (list (Dispatch.Handler (WSMessage * string) World));
  pingInterval : bool;
  srv_instanceId : string;
  drawn : nat;                  (* identifiers drawn so far *)
  wire : list Wire              (* effects on sockets, oldest first *)
}.

Definition with_clients (c : list (string * WSClientInfo)) (s : Server) : Server :=
  {| wss := wss s; heap := heap s; clients := c; handlers := handlers s;
     pingInterval := pingInterval s; srv_instanceId := srv_instanceId s;
     drawn := drawn s; wire := wire s |}.

Definition with_wire (w : list Wire) (s : Server) : Server :=
  {| wss := wss s; heap := heap s; clients := clients s; handlers := handlers s;
     pingInterval := pingInterval s; srv_instanceId := srv_instanceId s;
     drawn := drawn s; wire := w |}.

Definition with_heap (h : gmap nat Socket) (s : Server) : Server :=
  {| wss := wss s; heap := h; clients := clients s; handlers := handlers s;
     pingInterval := pingInterval s; srv_instanceId := srv_instanceId s;
     drawn := drawn s; wire := wire s |}.

Definition with_drawn (n : nat) (s : Server) : Server :=
  {| wss := wss s; heap := heap s; clients := clients s; handlers := handlers s;
     pingInterval := pingInterval s; srv_instanceId := srv_instanceId s;
     drawn := n; wire := wire s |}.

Definition with_handlers
    (h : gmap string (list (Dispatch.Handler (WSMessage * string) World)))
    (s : Server) : Server :=
  {| wss := wss s; heap := heap s; clients := clients s; handlers := h;
     pingInterval := pingInterval s; srv_instanceId := srv_instanceId s;
     drawn := drawn s; wire := wire s |}.

(** [new WebSocketSyncServer()]; the constructor draws the instance id. *)
Definition create : Server :=
  {| wss := None; heap := ∅; clients := []; handlers := ∅;
     pingInterval := false; srv_instanceId := uuidv4 0; drawn := 1;
     wire := [] |}.

(** [start(port)] *)
Definition start (s : Server) : Server :=
  match wss s with
  | Some _ => s
  | None =>
      {| wss := Some []; heap := heap s; clients := clients s;
         handlers := handlers s; pingInterval := true;
         srv_instanceId := srv_instanceId s; drawn := drawn s;
         wire := wire s |}
  end.

(** [send(ws, message)] *)
Definition send (ref : nat) (m : WSMessage) (s : Server) : Server :=
  match heap s !! ref with
  | Some sock =>
      if bool_decide (readyState sock = OPEN)
      then with_wire (wire s ++ [Sent ref m]) s
      else s
  | None => s
  end.

(** [ws.close()]: starts the closing handshake. *)
Definition close_socket (ref : nat) (s : Server) : Server :=
  with_wire (wire s ++ [Closed ref])
    (with_heap
       (alter (fun sock =>
                 {| readyState :=
                      if bool_decide (readyState sock = CLOSED)
                      then CLOSED else CLOSING;
                    clientId_prop := clientId_prop sock |}) ref (heap s))
       s).

(** The library accepts a connection: a new open socket object enters
    [wss.clients]; it carries no [clientId] property. *)
Definition accept (ref : nat) (s : Server) : Server :=
  {| wss := match wss s with
            | Some cs => Some (cs ++ [ref])
            | None => None
            end;
     heap := <[ref := {| readyState := OPEN; clientId_prop := None |}]> (heap s);
     clients := clients s; handlers := handlers s;
     pingInterval := pingInterval s; srv_instanceId := srv_instanceId s;
     drawn := drawn s; wire := wire s |}.

(** [handleConnection(ws)]: draws the client id, installs the listeners
    and sends the welcome message.  Returns the client id the listeners
    close over. *)
Definition handleConnection (ref : nat) (now : Z) (s : Server) : string * Server :=
  let clientId := uuidv4 (drawn s) in
  let welcome := {| id := uuidv4 (S (drawn s)); type := "connect"; userId := "";
                    instanceId := srv_instanceId s; timestamp := now;
                    payload := clientId |} in
  (clientId, send ref welcome (with_drawn (S (S (drawn s))) s)).

(** The socket whose [clientId] property equals [clientId], if any:
    [Array.from(this.wss?.clients || []).find(..)]. *)
Definition find_socket (clientId : string) (s : Server) : option nat :=
  List.find
    (fun ref => match heap s !! ref with
                | Some sock => bool_decide (clientId_prop sock = Some clientId)
                | None => false
                end)
    (default [] (wss s)).

(** The registration block at the head of [handleMessage]. *)
Definition register (clientId : string) (message : WSMessage) (now : Z)
    (s : Server) : Server :=
  if negb (JsMap.has clientId (clients s)) && truthy (userId message) then
    match JsMap.get clientId (clients s) with
    | Some client =>
        with_clients
          (JsMap.set clientId
             {| ws := ws client; ci_userId := userId message;
                ci_instanceId := instanceId message;
                connectedAt := connectedAt client;
                lastPing := lastPing client |} (clients s)) s
    | None =>
        match find_socket clientId s with
        | Some ref =>
            with_clients
              (JsMap.set clientId
                 {| ws := ref; ci_userId := userId message;
                    ci_instanceId := instanceId message;
                    connectedAt := now; lastPing := now |} (clients s)) s
        | None => s
        end
    end
  else s.

(** [handleMessage(clientId, data)] at time [now]. *)
Definition handleMessage (clientId data : string) (now : Z)
    (s : Server) (w : World)
  : Server * World * list (Dispatch.Trace (WSMessage * string)) :=
  match JSON_parse data with
  | None => (s, w, [])
  | Some message =>
      let s1 := register clientId message now s in
      if bool_decide (type message = "ping") then
        match JsMap.get clientId (clients s1) with
        | Some client =>
            let s2 :=
              with_clients
                (JsMap.set clientId
                   {| ws := ws client; ci_userId := ci_userId client;
                      ci_instanceId := ci_instanceId client;
                      connectedAt := connectedAt client;
                      lastPing := now |} (clients s1)) s1 in
            (send (ws client)
               {| id := id message; type := "pong"; userId := userId message;
                  instanceId := srv_instanceId s; timestamp := timestamp message;
                  payload := payload message |} s2, w, [])
        | None => (s1, w, [])
        end
      else
        let '(w', tr) :=
          Dispatch.dispatch (handlers s1) (type message) (message, clientId) w in
        (s1, w', tr)
  end.

(** [handleDisconnect(clientId)] *)
Definition handleDisconnect (clientId : string) (s : Server) : Server :=
  with_clients (JsMap.delete clientId (clients s)) s.

(** The library reports a socket closed: the object is closed and leaves
    [wss.clients]; the ["close"] listener then runs [handleDisconnect]. *)
Definition socket_closed (ref : nat) (clientId : string) (s : Server) : Server :=
  handleDisconnect clientId
    {| wss := match wss s with
              | Some cs => Some (List.filter (fun r => negb (Nat.eqb r ref)) cs)
              | None => None
              end;
       heap := alter (fun sock => {| readyState := CLOSED;
                                     clientId_prop := clientId_prop sock |})
                 ref (heap s);
       clients := clients s; handlers := handlers s;
       pingInterval := pingInterval s; srv_instanceId := srv_instanceId s;
       drawn := drawn s; wire := wire s |}.

Definition stale (now : Z) (client : WSClientInfo) : bool :=
  staleAfter <? now - lastPing client.

(** The loop of [pingClients] over the entries of the map. *)
Fixpoint ping_loop (now : Z) (entries : list (string * WSClientInfo))
    (s : Server) : Server :=
  match entries with
  | [] => s
  | (clientId, client) :: rest =>
      if stale now client then
        ping_loop now rest
          (with_clients (JsMap.delete clientId (clients (close_socket (ws client) s)))
             (close_socket (ws client) s))
      else
        ping_loop now rest
          (send (ws client)
             {| id := uuidv4 (drawn s); type := "ping";
                userId := ci_userId client; instanceId := srv_instanceId s;
                timestamp := now; payload := "{}" |}
             (with_drawn (S (drawn s)) s))
  end.

(** [pingClients()] at time [now = Date.now()]. *)
Definition pingClients (now : Z) (s : Server) : Server :=
  ping_loop now (clients s) s.

Fixpoint send_all (targets : list nat) (m : WSMessage) (s : Server) : Server :=
  match targets with
  | [] => s
  | ref :: rest => send_all rest m (send ref m s)
  end.

(** [broadcast(message, excludeClientId?)] *)
Definition broadcast (type' user : string) (timestamp' : Z) (payload' : string)
    (excludeClientId : option string) (s : Server) : Server :=
  let fullMessage := {| id := uuidv4 (drawn s); type := type'; userId := user;
                        instanceId := srv_instanceId s; timestamp := timestamp';
                        payload := payload' |} in
  send_all
    (List.map (fun e => ws e.2)
       (List.filter (fun e => negb (bool_decide (Some e.1 = excludeClientId)))
          (clients s)))
    fullMessage (with_drawn (S (drawn s)) s).

(** [broadcastToUser(userId, message)] *)
Definition broadcastToUser (target : string) (type' user : string)
    (timestamp' : Z) (payload' : string) (s : Server) : Server :=
  let fullMessage := {| id := uuidv4 (drawn s); type := type'; userId := user;
                        instanceId := srv_instanceId s; timestamp := timestamp';
                        payload := payload' |} in
  send_all
    (List.map (fun e => ws e.2)
       (List.filter (fun e => bool_decide (ci_userId e.2 = target)) (clients s)))
    fullMessage (with_drawn (S (drawn s)) s).

Definition on (type' : string)
    (h : Dispatch.Handler (WSMessage * string) World) (s : Server) : Server :=
  with_handlers (Dispatch.on type' h (handlers s)) s.

Definition off (type' : string)
    (h : Dispatch.Handler (WSMessage * string) World) (s : Server) : Server :=
  with_handlers (Dispatch.off type' h (handlers s)) s.

(** [getClientCount()] *)
Definition getClientCount (s : Server) : nat := JsMap.size (clients s).

(** [getClientsByUser(userId)] *)
Definition getClientsByUser (user : string) (s : Server) : nat :=
  List.length (List.filter (fun e => bool_decide (ci_userId e.2 = user)) (clients s)).

Fixpoint close_all (targets : list nat) (s : Server) : Server :=
  match targets with
  | [] => s
  | ref :: rest => close_all rest (close_socket ref s)
  end.

(** [stop()]; [closeOk] tells whether the listening socket closed without
    error. *)
Definition stop (closeOk : bool) (s : Server) : Server :=
  let s1 := {| wss := wss s; heap := heap s; clients := clients s;
               handlers := handlers s; pingInterval := false;
               srv_instanceId := srv_instanceId s; drawn := drawn s;
               wire := wire s |} in
  match wss s1 with
  | None => s1
  | Some cs =>
      let s2 := with_clients [] (close_all (List.map (fun e => ws e.2) (clients s1)) s1) in
      if closeOk then
        {| wss := None; heap := heap s2; clients := clients s2;
           handlers := handlers s2; pingInterval := pingInterval s2;
           srv_instanceId := srv_instanceId s2; drawn := drawn s2;
           wire := wire s2 |}
      else s2
  end.

(** What can happen to a server between its construction and now. *)
Inductive Step :=
  | DoStart
  | DoConnection (ref : nat) (now : Z)
  | DoMessage (clientId data : string) (now : Z) (w : World)
  | DoSocketClosed (ref : nat) (clientId : string)
  | DoTick (now : Z)
  | DoBroadcast (type' user : string) (timestamp' : Z) (payload' : string)
      (excludeClientId : option string)
  | DoBroadcastToUser (target type' user : string) (timestamp' : Z)
      (payload' : string)
  | DoOn (type' : string) (h : Dispatch.Handler (WSMessage * string) World)
  | DoOff (type' : string) (h : Dispatch.Handler (WSMessage * string) World)
  | DoStop (closeOk : bool).

Definition step (s : Server) (e : Step) : Server :=
  match e with
  | DoStart => start s
  | DoConnection ref now => (handleConnection ref now (accept ref s)).2
  | DoMessage clientId data now w => (handleMessage clientId data now s w).1.1
  | DoSocketClosed ref clientId => socket_closed ref clientId s
  | DoTick now => pingClients now s
  | DoBroadcast t u ts p ex => broadcast t u ts p ex s
  | DoBroadcastToUser tg t u ts p => broadcastToUser tg t u ts p s
  | DoOn t h => on t h s
  | DoOff t h => off t h s
  | DoStop ok => stop ok s
  end.

Definition run (steps : list Step) : Server := fold_left step steps create.

(** A schedule that keeps [clientId] fresh: no heartbeat tick comes more
    than [staleAfter] after the latest ["ping"] message of the client
    ([last] is the time of that message), and the connection is neither
    closed nor the server stopped. *)
Fixpoint kept_fresh (clientId : string) (last : Z) (steps : list Step) : Prop :=
  match steps with
  | [] => True
  | DoTick now :: rest =>
      now - last <= staleAfter /\ kept_fresh clientId last rest
  | DoMessage cid data now _ :: rest =>
      match JSON_parse data with
      | Some m =>
          if bool_decide (cid = clientId) && bool_decide (type m = "ping")
          then kept_fresh clientId now rest
          else kept_fresh clientId last rest
      | None => kept_fresh clientId last rest
      end
  | DoSocketClosed _ cid :: rest =>
      cid <> clientId /\ kept_fresh clientId last rest
  | DoStop _ :: _ => False
  | _ :: rest => kept_fresh clientId last rest
  end.

(** ** Reading the wire *)

(** Is the socket behind a reference open? *)
Definition socket_open (s : Server) (ref : nat) : bool :=
  match heap s !! ref with
  | Some sock => bool_decide (readyState sock = OPEN)
  | None => false
  end.

(** The messages a stretch of the wire shows sent, with the socket each
    went to, and the sockets it shows closed. *)
Definition sent_of (w : list Wire) : list (nat * WSMessage) :=
  omap (fun e => match e with
                 | Sent ref m => Some (ref, m)
                 | Closed _ => None
                 end) w.

Definition closed_of (w : list Wire) : list nat :=
  omap (fun e => match e with
                 | Closed ref => Some ref
                 | Sent _ _ => None
                 end) w.

End Server.
Arguments Server : clear implicits.
Arguments Step : clear implicits.

(** ** Shapes of the registry *)

(** What one heartbeat pass does to the registry for one entry. *)
Definition evict (now : Z) (m : list (string * WSClientInfo))
    (e : string * WSClientInfo) : list (string * WSClientInfo) :=
  if stale now e.2 then JsMap.delete e.1 m else m.

(** The entry after a ["ping"] at [now]. *)
Definition refreshed (now : Z) (c : WSClientInfo) : WSClientInfo :=
  {| ws := ws c; ci_userId := ci_userId c; ci_instanceId := ci_instanceId c;
     connectedAt := connectedAt c; lastPing := now |}.

(** No socket object carries a [clientId] property. *)
Definition untagged {World : Type} (s : Server World) : Prop :=
  forall ref sock, heap s !! ref = Some sock -> clientId_prop sock = None.

Definition registry_empty {World : Type} (s : Server World) : Prop :=
  clients s = [] /\ untagged s.

(** ** Sample inputs *)

(** A toy wire format for the samples: the text is the message type. *)
Definition wsParse (data : string) : option WSMessage :=
  Some {| id := "m"; type := data; userId := "u1"; instanceId := "i1";
          timestamp := 0; payload := "" |}.

Definition sampleUuid (n : nat) : string := pretty n.

Definition sampleClient : WSClientInfo :=
  {| ws := 1; ci_userId := "u1"; ci_instanceId := "i1";
     connectedAt := 0; lastPing := 1000 |}.

(** A hub that tracks one client. *)
Definition sampleServer : Server unit :=
  {| wss := Some [1%nat];
     heap := {[ 1%nat := {| readyState := OPEN; clientId_prop := None |} ]};
     clients := [("c1", sampleClient)];
     handlers := ∅; pingInterval := true; srv_instanceId := "srv";
     drawn := 1; wire := [] |}.

End WebSocketSync.

(** ** The client ([WebSocketSyncClient]) *)

Module WebSocketSyncClient.
Import WebSocketSync.

Definition maxReconnectAttempts : Z := 10.

Record Client := {
  c_ws : option ReadyState;        (* [this.ws], as the socket's state *)
  url : option string;
  reconnectTimeout : option Z;     (* the timer last armed, as its delay *)
  reconnectAttempts : Z
}.

(** [new WebSocketSyncClient(userId)] *)
Definition newClient : Client :=
  {| c_ws := None; url := None; reconnectTimeout := None; reconnectAttempts := 0 |}.

(** [connect(url)]: the part before the promise settles. *)
Definition connect (u : string) (c : Client) : Client :=
  match c_ws c with
  | Some _ => c
  | None =>
      {| c_ws := Some CONNECTING; url := Some u;
         reconnectTimeout := reconnectTimeout c;
         reconnectAttempts := reconnectAttempts c |}
  end.

(** The ["open"] listener. *)
Definition onOpen (c : Client) : Client :=
  {| c_ws := Some OPEN; url := url c; reconnectTimeout := reconnectTimeout c;
     reconnectAttempts := 0 |}.

Definition url_truthy (u : option string) : bool :=
  match u with
  | Some s => truthy s
  | None => false
  end.

(** [Math.min(1000 * Math.pow(2, n), 30000)] *)
Definition backoff (n : Z) : Z := Z.min (1000 * 2 ^ n) 30000.

(** [handleDisconnect()], run by the ["close"] listener: the new state and
    the delay of the timer it arms, if it arms one. *)
Definition handleDisconnect (c : Client) : Client * option Z :=
  if url_truthy (url c) && (reconnectAttempts c <? maxReconnectAttempts) then
    let attempts := reconnectAttempts c + 1 in
    let delay := backoff attempts in
    ({| c_ws := None; url := url c; reconnectTimeout := Some delay;
        reconnectAttempts := attempts |}, Some delay)
  else
    ({| c_ws := None; url := url c; reconnectTimeout := reconnectTimeout c;
        reconnectAttempts := reconnectAttempts c |}, None).

(** The armed timer fires: [this.connect(this.url!)]. *)
Definition onTimer (c : Client) : Client :=
  match url c with
  | Some u => connect u c
  | None => c
  end.

(** One failed reconnection: the connection closes, the timer (when armed)
    fires and the new socket closes again without ever opening. *)
Fixpoint failures (k : nat) (c : Client) : Client * list Z :=
  match k with
  | O => (c, [])
  | S k' =>
      let '(c1, scheduled) := handleDisconnect c in
      match scheduled with
      | Some delay =>
          let '(c2, delays) := failures k' (onTimer c1) in
          (c2, delay :: delays)
      | None => (c1, [])
      end
  end.

(** [isConnected()] *)
Definition isConnected (c : Client) : bool :=
  match c_ws c with
  | Some st => bool_decide (st = OPEN)
  | None => false
  end.

(** [disconnect()].  The socket it closes keeps its listeners, so its
    ["close"] event still runs [handleDisconnect]. *)
Definition disconnect (c : Client) : Client :=
  let timeout :=
    match reconnectTimeout c with
    | Some _ => None
    | None => reconnectTimeout c
    end in
  {| c_ws := match c_ws c with
             | Some _ => None
             | None => c_ws c
             end;
     url := url c;
     reconnectTimeout := timeout;
     reconnectAttempts := reconnectAttempts c |}.

(** ** Sample inputs *)

Definition sampleClientState : Client :=
  {| c_ws := Some OPEN; url := Some "ws://localhost:8765";
     reconnectTimeout := None; reconnectAttempts := 4 |}.

End WebSocketSyncClient.

(* ===================================================================== *)
(** * Persistent store client (mongodb_client.ts)                         *)
(* ===================================================================== *)

Module Mongo.

(** Stored values, as far as this code builds them. *)
#[warnings="-register-all"] Inductive bson :=
  | BNull
  | BBool (b : bool)
  | BInt (z : Z)
  | BStr (s : string)
  | BDate (t : Z)
  | BDoc (fields : list (string * bson)).

Definition document := list (string * bson).

Fixpoint bson_eqb (a b : bson) : bool :=
  match a, b with
  | BNull, BNull => true
  | BBool x, BBool y => Bool.eqb x y
  | BInt x, BInt y => Z.eqb x y
  | BStr x, BStr y => bool_decide (x = y)
  | BDate x, BDate y => Z.eqb x y
  | BDoc fs, BDoc gs =>
      (fix fields_eqb (fs gs : list (string * bson)) : bool :=
         match fs, gs with
         | [], [] => true
         | (k, v) :: fs', (k', v') :: gs' =>
             bool_decide (k = k') && bson_eqb v v' && fields_eqb fs' gs'
         | _, _ => false
         end) fs gs
  | _, _ => false
  end.

Fixpoint field (k : string) (d : document) : option bson :=
  match d with
  | [] => None
  | (k', v) :: d' => if bool_decide (k' = k) then Some v else field k d'
  end.

Fixpoint set_field (k : string) (v : bson) (d : document) : document :=
  match d with
  | [] => [(k, v)]
  | (k', v') :: d' =>
      if bool_decide (k' = k) then (k', v) :: d' else (k', v') :: set_field k v d'
  end.

(** An equality filter [{k1: v1, ..}]; a missing field matches [null]. *)
Definition matches (filter d : document) : bool :=
  forallb (fun kv => bson_eqb (default BNull (field kv.1 d)) kv.2) filter.

Definition dollar_prefixed (k : string) : bool :=
  match k with
  | String c _ => bool_decide (c = "$"%char)
  | EmptyString => false
  end.

(** Does the value hold a field whose name starts with [$]? *)
Fixpoint has_dollar_field (v : bson) : bool :=
  match v with
  | BDoc fs =>
      (fix any (fs : list (string * bson)) : bool :=
         match fs with
         | [] => false
         | (k, v') :: fs' => dollar_prefixed k || has_dollar_field v' || any fs'
         end) fs
  | _ => false
  end.

Definition apply_set (sets d : document) : document :=
  fold_left (fun acc kv => set_field kv.1 kv.2 acc) sets d.

Fixpoint update_first (filter sets : document) (c : list document)
  : option (list document) :=
  match c with
  | [] => None
  | d :: c' =>
      if matches filter d then Some (apply_set sets d :: c')
      else (fun r => d :: r) <$> update_first filter sets c'
  end.

(** [collection.updateOne(filter, {$set: sets}, {upsert: true})].
    [dollar_names_stored] is a property of the server: before 5.0 a value
    holding a [$]-prefixed field name is refused ("not valid for storage"),
    later servers store it as an embedded document.  In neither case is an
    operator nested inside [$set] evaluated.  [inl] is the thrown error. *)
Definition updateOne_set_upsert (dollar_names_stored : bool)
    (filter sets : document) (c : list document) : string + list document :=
  if negb dollar_names_stored && existsb (fun kv => has_dollar_field kv.2) sets
  then inl "The dollar ($) prefixed field is not valid for storage."
  else
    match update_first filter sets c with
    | Some c' => inr c'
    | None => inr (c ++ [apply_set sets filter])
    end.

Record Database := {
  mode_state : list document
}.

Record MongoDBClient := {
  client : option unit;          (* [this.client], null or a connection *)
  db : option Database
}.

(** [isConnected()] *)
Definition isConnected (m : MongoDBClient) : bool :=
  match client m, db m with
  | Some _, Some _ => true
  | _, _ => false
  end.

(** [healthCheck()]; [pingOk] tells whether [db.admin().ping()] resolved. *)
Definition healthCheck (m : MongoDBClient) (pingOk : bool) : bool :=
  match db m with
  | None => false
  | Some _ => pingOk
  end.

(** [getModeStateCollection()] *)
Definition getModeStateCollection (m : MongoDBClient) : string + list document :=
  match db m with
  | None => inl "MongoDB not initialized"
  | Some d => inr (mode_state d)
  end.

Definition with_mode_state (c : list document) (m : MongoDBClient) : MongoDBClient :=
  {| client := client m; db := Some {| mode_state := c |} |}.

(** [initialize(config)].  [isConnecting] is the flag of that name as the
    call finds it; [connected] is what connecting and creating the indexes
    end in, an error or the database.  The result is the error thrown, if
    any, and the client as the call leaves it. *)
Definition initialize (isConnecting : bool) (connected : string + Database)
    (m : MongoDBClient) : option string * MongoDBClient :=
  match client m, db m with
  | Some _, Some _ => (None, m)
  | _, _ =>
      if isConnecting then (None, m)
      else
        match connected with
        | inr d => (None, {| client := Some tt; db := Some d |})
        | inl e => (Some e, {| client := None; db := None |})
        end
  end.

(** [close()]; an error of the driver is caught and logged. *)
Definition close (m : MongoDBClient) : MongoDBClient :=
  match client m with
  | Some _ => {| client := None; db := None |}
  | None => m
  end.

End Mongo.

(* ===================================================================== *)
(** * Synchronisation orchestrator (distributed_memory_manager.ts)        *)
(* ===================================================================== *)

Module DistributedMemory.
Import Mongo.

Record DistributedMemoryConfig := {
  cfg_mongodb : option string;       (* [config.mongodb], as its url *)
  cfg_redis : option string;
  cfg_websocket : option Z;          (* [config.websocket.port] *)
  cfg_userId : string;
  enableMongoDB : option bool;
  enableRedis : option bool;
  enableWebSocket : option bool
}.

Record SubsystemStatus := {
  enabled : bool;
  connected : bool;
  healthy : bool
}.

Record WebSocketStatus := {
  ws_enabled : bool;
  running : bool;
  clientCount : nat
}.

Record DistributedMemoryStatus := {
  mongodb : SubsystemStatus;
  redis : SubsystemStatus;
  websocket : WebSocketStatus;
  status_instanceId : string;
  isFullyOperational : bool
}.

(** [this.config?.flag ?? false] *)
Definition flag_or_false (c : option DistributedMemoryConfig)
    (f : DistributedMemoryConfig -> option bool) : bool :=
  match c with
  | Some cfg => default false (f cfg)
  | None => false
  end.

(** [!this.config?.flag] *)
Definition flag_falsy (c : option DistributedMemoryConfig)
    (f : DistributedMemoryConfig -> option bool) : bool :=
  match c with
  | Some cfg => match f cfg with Some b => negb b | None => true end
  | None => true
  end.

Section Manager.
Context {T World : Type}.

Record Manager := {
  wsServer : option (WebSocketSync.Server World);
  config : option DistributedMemoryConfig;
  initialized : bool
}.

(** [getStatus()].  [mongoPingOk] and [redisPingOk] tell whether the two
    pings, if made, resolve. *)
Definition getStatus (m : Manager) (mongo : MongoDBClient)
    (bus : RedisBus.Bus T World) (mongoPingOk redisPingOk : bool)
  : DistributedMemoryStatus :=
  let mongoHealth :=
    if isConnected mongo then healthCheck mongo mongoPingOk else false in
  let redisHealth :=
    if RedisBus.isConnected bus then RedisBus.healthCheck bus redisPingOk
    else false in
  {| mongodb := {| enabled := flag_or_false (config m) enableMongoDB;
                   connected := isConnected mongo;
                   healthy := mongoHealth |};
     redis := {| enabled := flag_or_false (config m) enableRedis;
                 connected := RedisBus.isConnected bus;
                 healthy := redisHealth |};
     websocket :=
       {| ws_enabled := flag_or_false (config m) enableWebSocket;
          running := bool_decide (is_Some (wsServer m));
          clientCount :=
            match wsServer m with
            | Some s => WebSocketSync.getClientCount s
            | None => 0%nat
            end |};
     status_instanceId := RedisBus.getInstanceId bus;
     isFullyOperational :=
       (flag_falsy (config m) enableMongoDB || (isConnected mongo && mongoHealth))
       && (flag_falsy (config m) enableRedis
           || (RedisBus.isConnected bus && redisHealth))
       && (flag_falsy (config m) enableWebSocket
           || bool_decide (is_Some (wsServer m))) |}.
End Manager.
Arguments Manager : clear implicits.

(** The three subsystems a configuration can enable, and what the status
    object says about each.  The transport reports [running] where the
    other two report [connected] and [healthy]. *)
Inductive Subsystem := Store | EventBus | Transport.

Definition sub_enabled (st : DistributedMemoryStatus) (x : Subsystem) : bool :=
  match x with
  | Store => enabled (mongodb st)
  | EventBus => enabled (redis st)
  | Transport => ws_enabled (websocket st)
  end.

Definition sub_operational (st : DistributedMemoryStatus) (x : Subsystem) : bool :=
  match x with
  | Store => connected (mongodb st) && healthy (mongodb st)
  | EventBus => connected (redis st) && healthy (redis st)
  | Transport => running (websocket st)
  end.


Section Reading.
Context {T World : Type}.


End Reading.

(** ** Inbound [mode:changed] events *)

(** [payload.field] on an arbitrary payload object; a missing property is
    [undefined], which the driver stores as [null]. *)
Definition prop (k : string) (payload : document) : bson :=
  default BNull (field k payload).

(** The update document [syncModeStateToMongoDB] passes to [updateOne]:
    the argument of its [$set]. *)
Definition modeState_set (payload : document) (now : Z) : document :=
  [ ("currentMode", prop "toMode" payload);
    ("previousMode", prop "fromMode" payload);
    ("updatedAt", BDate now);
    ("syncVersion", BDoc [("$inc", BInt 1)]) ].

(** [syncModeStateToMongoDB(event)]; every error is caught and logged. *)
Definition syncModeStateToMongoDB (dollar_names_stored : bool)
    (event : RedisBus.DistributedEvent document) (now : Z)
    (mongo : MongoDBClient) : MongoDBClient :=
  match getModeStateCollection mongo with
  | inl _ => mongo
  | inr collection =>
      match updateOne_set_upsert dollar_names_stored
              [ ("userId", BStr (RedisBus.userId event));
                ("instanceId", BStr (RedisBus.instanceId event)) ]
              (modeState_set (RedisBus.payload event) now)
              collection with
      | inl _ => mongo
      | inr collection' => with_mode_state collection' mongo
      end
  end.

(** The store side of the [mode:changed] handler installed by
    [setupRedisEventHandlers]. *)
Definition onModeChanged (dollar_names_stored : bool)
    (event : RedisBus.DistributedEvent document) (now : Z)
    (mongo : MongoDBClient) : MongoDBClient :=
  if isConnected mongo
  then syncModeStateToMongoDB dollar_names_stored event now mongo
  else mongo.

(** The ModeState record of (userId, instanceId), if the store has one. *)
Definition modeStateOf (user inst : string) (mongo : MongoDBClient)
  : option document :=
  match db mongo with
  | Some d =>
      List.find (matches [("userId", BStr user); ("instanceId", BStr inst)])
        (mode_state d)
  | None => None
  end.

Definition is_integer (v : bson) : bool :=
  match v with BInt _ => true | _ => false end.

(** The filter [{userId, instanceId}] of the sync. *)
Definition idFilter (user inst : string) : document :=
  [("userId", BStr user); ("instanceId", BStr inst)].

(** ** Sample inputs *)

(** A record of instance B with [syncVersion = 3]. *)
Definition sampleModeState : document :=
  [ ("userId", BStr "u1"); ("instanceId", BStr "B");
    ("currentMode", BStr "inspired"); ("previousMode", BNull);
    ("updatedAt", BDate 5); ("syncVersion", BInt 3) ].

Definition sampleStore : MongoDBClient :=
  {| client := Some tt; db := Some {| mode_state := [sampleModeState] |} |}.

(** Instance B reports a switch from inspired to didactic. *)
Definition sampleModeChanged : RedisBus.DistributedEvent document :=
  {| RedisBus.eventId := "e1"; RedisBus.eventType := "mode:changed";
     RedisBus.userId := "u1"; RedisBus.instanceId := "B";
     RedisBus.timestamp := 9;
     RedisBus.payload := [("fromMode", BStr "inspired"); ("toMode", BStr "didactic")];
     RedisBus.metadata := None |}.

(** ** Start-up and shutdown *)

(** Does the configuration enable a subsystem, and does it carry the
    connection settings of it?  [initialize] attempts the subsystems for
    which both hold. *)
Definition cfg_enabled (cfg : DistributedMemoryConfig) (x : Subsystem) : bool :=
  match x with
  | Store => default false (enableMongoDB cfg)
  | EventBus => default false (enableRedis cfg)
  | Transport => default false (enableWebSocket cfg)
  end.

Definition cfg_configured (cfg : DistributedMemoryConfig) (x : Subsystem) : bool :=
  match x with
  | Store => bool_decide (is_Some (cfg_mongodb cfg))
  | EventBus => bool_decide (is_Some (cfg_redis cfg))
  | Transport => bool_decide (is_Some (cfg_websocket cfg))
  end.

Definition cfg_attempted (cfg : DistributedMemoryConfig) (x : Subsystem) : bool :=
  cfg_enabled cfg x && cfg_configured cfg x.

Section Lifecycle.
Context {T World : Type}.
Variable uuidv4 : nat -> string.

(** The manager with the two singletons it drives. *)
Record System := {
  manager : Manager World;
  mongoDBClient : MongoDBClient;
  redisEventBus : RedisBus.Bus T World
}.

(** What one call of [initialize] meets: the outcome of each connection it
    may attempt, and the closures it registers as handlers. *)
Record InitEnv := {
  mongoConnecting : bool;
  mongoConnected : string + Database;
  redisConnecting : bool;
  redisConnected : string + RedisBus.RedisClient * RedisBus.RedisClient;
  wsStartError : option string;      (* what [start] throws, if it throws *)
  modeChangedHandler : Dispatch.Handler (RedisBus.DistributedEvent T) World;
  contextUpdatedHandler : Dispatch.Handler (RedisBus.DistributedEvent T) World;
  stateRequestHandler : Dispatch.Handler (WebSocketSync.WSMessage * string) World
}.

(** Truthiness of an optional flag. *)
Definition flag_truthy (f : option bool) : bool := default false f.

Definition with_manager (m : Manager World) (sys : System) : System :=
  {| manager := m; mongoDBClient := mongoDBClient sys;
     redisEventBus := redisEventBus sys |}.

Definition with_mongo (c : MongoDBClient) (sys : System) : System :=
  {| manager := manager sys; mongoDBClient := c;
     redisEventBus := redisEventBus sys |}.

Definition with_bus (b : RedisBus.Bus T World) (sys : System) : System :=
  {| manager := manager sys; mongoDBClient := mongoDBClient sys;
     redisEventBus := b |}.

Definition with_wsServer (s : option (WebSocketSync.Server World))
    (m : Manager World) : Manager World :=
  {| wsServer := s; config := config m; initialized := initialized m |}.

Definition with_initialized (b : bool) (m : Manager World) : Manager World :=
  {| wsServer := wsServer m; config := config m; initialized := b |}.

(** [setupRedisEventHandlers()] *)
Definition setupRedisEventHandlers (env : InitEnv) (sys : System) : System :=
  with_bus
    (RedisBus.on
       (RedisBus.on (redisEventBus sys) "mode:changed" (modeChangedHandler env))
       "context:updated" (contextUpdatedHandler env))
    sys.

(** [setupWebSocketHandlers()] *)
Definition setupWebSocketHandlers (env : InitEnv) (sys : System) : System :=
  match wsServer (manager sys) with
  | None => sys
  | Some s =>
      with_manager
        (with_wsServer
           (Some (WebSocketSync.on "state-request" (stateRequestHandler env) s))
           (manager sys))
        sys
  end.

(** The three blocks of [initialize], each with the error it throws. *)
Definition initMongoDB (cfg : DistributedMemoryConfig) (env : InitEnv)
    (sys : System) : option string * System :=
  if flag_truthy (enableMongoDB cfg) && bool_decide (is_Some (cfg_mongodb cfg)) then
    match Mongo.initialize (mongoConnecting env) (mongoConnected env)
            (mongoDBClient sys) with
    | (None, c) => (None, with_mongo c sys)
    | (Some error, c) =>
        if flag_truthy (enableMongoDB cfg)
        then (Some error, with_mongo c sys)
        else (None, with_mongo c sys)
    end
  else (None, sys).

Definition initRedis (cfg : DistributedMemoryConfig) (env : InitEnv)
    (sys : System) : option string * System :=
  if flag_truthy (enableRedis cfg) && bool_decide (is_Some (cfg_redis cfg)) then
    match RedisBus.initialize (redisConnecting env) (redisConnected env)
            (redisEventBus sys) with
    | (None, b) => (None, setupRedisEventHandlers env (with_bus b sys))
    | (Some error, b) =>
        if flag_truthy (enableRedis cfg)
        then (Some error, with_bus b sys)
        else (None, with_bus b sys)
    end
  else (None, sys).

Definition initWebSocket (cfg : DistributedMemoryConfig) (env : InitEnv)
    (sys : System) : option string * System :=
  if flag_truthy (enableWebSocket cfg) && bool_decide (is_Some (cfg_websocket cfg)) then
    let created :=
      with_manager
        (with_wsServer (Some (WebSocketSync.create uuidv4)) (manager sys)) sys in
    match wsStartError env with
    | None =>
        (None,
         setupWebSocketHandlers env
           (with_manager
              (with_wsServer
                 (Some (WebSocketSync.start (WebSocketSync.create uuidv4)))
                 (manager sys))
              sys))
    | Some error =>
        if flag_truthy (enableWebSocket cfg)
        then (Some error, created)
        else (None, created)
    end
  else (None, sys).

(** [initialize(config)]: the error it rejects with, if any, and the
    system as it leaves it. *)
Definition initialize (cfg : DistributedMemoryConfig) (env : InitEnv)
    (sys : System) : option string * System :=
  if initialized (manager sys) then (None, sys)
  else
    let sys0 :=
      with_manager
        {| wsServer := wsServer (manager sys); config := Some cfg;
           initialized := initialized (manager sys) |} sys in
    match initMongoDB cfg env sys0 with
    | (Some error, sys1) => (Some error, sys1)
    | (None, sys1) =>
        match initRedis cfg env sys1 with
        | (Some error, sys2) => (Some error, sys2)
        | (None, sys2) =>
            match initWebSocket cfg env sys2 with
            | (Some error, sys3) => (Some error, sys3)
            | (None, sys3) =>
                (None, with_manager (with_initialized true (manager sys3)) sys3)
            end
        end
    end.

(** [shutdown()].  [wsCloseError] is the error closing the listening
    socket ends in, if it fails; [stop] then rejects with it. *)
Definition shutdown (wsCloseError : option string) (sys : System)
  : option string * System :=
  let stopped :=
    match wsServer (manager sys) with
    | Some s =>
        let s' := WebSocketSync.stop (bool_decide (wsCloseError = None)) s in
        match WebSocketSync.wss s, wsCloseError with
        | Some _, Some error =>
            (Some error, with_manager (with_wsServer (Some s') (manager sys)) sys)
        | _, _ => (None, with_manager (with_wsServer None (manager sys)) sys)
        end
    | None => (None, sys)
    end in
  match stopped with
  | (Some error, sys1) => (Some error, sys1)
  | (None, sys1) =>
      let sys2 :=
        if RedisBus.isConnected (redisEventBus sys1)
        then with_bus (RedisBus.close (redisEventBus sys1)) sys1 else sys1 in
      let sys3 :=
        if Mongo.isConnected (mongoDBClient sys2)
        then with_mongo (Mongo.close (mongoDBClient sys2)) sys2 else sys2 in
      (None, with_manager (with_initialized false (manager sys3)) sys3)
  end.

(** [getStatus()] on the system. *)
Definition statusOf (sys : System) (mongoPingOk redisPingOk : bool)
  : DistributedMemoryStatus :=
  getStatus (manager sys) (mongoDBClient sys) (redisEventBus sys)
    mongoPingOk redisPingOk.

End Lifecycle.
Arguments System : clear implicits.
Arguments InitEnv : clear implicits.

(** The two connection objects of a bus. *)
Definition links {T World : Type} (b : RedisBus.Bus T World)
  : option RedisBus.RedisClient * option RedisBus.RedisClient :=
  (RedisBus.publisher b, RedisBus.subscriber b).

(** ** Sample inputs for the life cycle *)

(** The store is enabled but has no settings; the bus is enabled and
    configured; the transport is enabled and configured. *)
Definition sampleConfig : DistributedMemoryConfig :=
  {| cfg_mongodb := None; cfg_redis := Some "redis://localhost:6379";
     cfg_websocket := Some 8765; cfg_userId := "u1";
     enableMongoDB := Some true; enableRedis := Some true;
     enableWebSocket := Some true |}.

Definition sampleStateRequestHandler
  : Dispatch.Handler (WebSocketSync.WSMessage * string) nat :=
  {| Dispatch.handler_id := 9;
     Dispatch.handler_run := fun _ n => (S n, false) |}.

Definition sampleContextHandler
  : Dispatch.Handler (RedisBus.DistributedEvent unit) nat :=
  {| Dispatch.handler_id := 8;
     Dispatch.handler_run := fun _ n => (S n, false) |}.

(** Every connection attempted succeeds. *)
Definition sampleEnv : InitEnv unit nat :=
  {| mongoConnecting := false;
     mongoConnected := inr {| mode_state := [] |};
     redisConnecting := false;
     redisConnected :=
       inr ({| RedisBus.isOpen := true |}, {| RedisBus.isOpen := true |});
     wsStartError := None;
     modeChangedHandler := RedisBus.countingHandler;
     contextUpdatedHandler := sampleContextHandler;
     stateRequestHandler := sampleStateRequestHandler |}.

(** As [sampleEnv], but the transport fails to start. *)
Definition sampleEnvNoTransport : InitEnv unit nat :=
  {| mongoConnecting := false;
     mongoConnected := inr {| mode_state := [] |};
     redisConnecting := false;
     redisConnected :=
       inr ({| RedisBus.isOpen := true |}, {| RedisBus.isOpen := true |});
     wsStartError := Some "listen EACCES";
     modeChangedHandler := RedisBus.countingHandler;
     contextUpdatedHandler := sampleContextHandler;
     stateRequestHandler := sampleStateRequestHandler |}.


(** A system as the process starts with. *)
Definition sampleSystem : System unit nat :=
  {| manager := {| wsServer := None; config := None; initialized := false |};
     mongoDBClient := {| client := None; db := None |};
     redisEventBus :=
       {| RedisBus.publisher := None; RedisBus.subscriber := None;
          RedisBus.handlers := ∅; RedisBus.bus_instanceId := "X" |} |}.

(** The closures of a second start: new objects, so new identities. *)
Definition sampleEnvRestart : InitEnv unit nat :=
  {| mongoConnecting := false;
     mongoConnected := inr {| mode_state := [] |};
     redisConnecting := false;
     redisConnected :=
       inr ({| RedisBus.isOpen := true |}, {| RedisBus.isOpen := true |});
     wsStartError := None;
     modeChangedHandler :=
       {| Dispatch.handler_id := 17;
          Dispatch.handler_run := fun _ n => (S n, false) |};
     contextUpdatedHandler :=
       {| Dispatch.handler_id := 18;
          Dispatch.handler_run := fun _ n => (S n, false) |};
     stateRequestHandler :=
       {| Dispatch.handler_id := 19;
          Dispatch.handler_run := fun _ n => (S n, false) |} |}.

End DistributedMemory.

(* ===================================================================== *)
(** * Multi-source tool coordinator (multi_mcp_coordinator.ts)            *)
(* ===================================================================== *)

Module MultiMcp.

Record McpServerRow := {
  srv_id : Z;
  srv_name : string;
  srv_enabled : bool
}.

Section Coordinator.
(** Tool inputs and outputs are opaque to the coordinator. *)
Context {Value : Type}.

Record McpToolExecution := {
  serverId : Z;
  serverName : string;
  toolName : string;
  input : Value;
  output : option Value;
  success : bool;
  duration : Z;
  timestamp : Z
}.

Definition maxHistorySize : nat := 100.

Record Coordinator := {
  executionHistory : list McpToolExecution
}.

Definition create : Coordinator := {| executionHistory := [] |}.

(** [addToHistory(execution)]: [push], then [shift] when over the cap. *)
Definition addToHistory (execution : McpToolExecution) (c : Coordinator)
  : Coordinator :=
  let pushed := executionHistory c ++ [execution] in
  if (maxHistorySize <? List.length pushed)%nat
  then {| executionHistory := tail pushed |}
  else {| executionHistory := pushed |}.

(** What the tool call did: [client.callTool] resolved with a result, or
    [getClient] / [callTool] threw the given error. *)
Inductive CallOutcome :=
  | Resolved (result : Value)
  | Rejected (error : Value).

Record ExecuteResult := {
  r_success : bool;
  r_output : option Value;
  r_duration : Z
}.

(** [server?.name || `Server ${serverId}`] *)
Definition serverNameOf (servers : list McpServerRow) (sid : Z) : string :=
  match List.find (fun s => Z.eqb (srv_id s) sid) servers with
  | Some s => if bool_decide (srv_name s = "") then "Server " +:+ pretty sid
              else srv_name s
  | None => "Server " +:+ pretty sid
  end.

(** [executeTool(serverId, toolName, input)]; [startTime], [endTime] and
    [stamp] are the three readings of [Date.now()]. *)
Definition executeTool (servers : list McpServerRow) (call : CallOutcome)
    (startTime endTime stamp : Z) (sid : Z) (tool : string) (inp : Value)
    (c : Coordinator) : ExecuteResult * Coordinator :=
  let '(success', output') :=
    match call with
    | Resolved result => (true, Some result)
    | Rejected error => (false, Some error)
    end in
  let duration' := endTime - startTime in
  let execution :=
    {| serverId := sid; serverName := serverNameOf servers sid;
       toolName := tool; input := inp; output := output';
       success := success'; duration := duration'; timestamp := stamp |} in
  ({| r_success := success'; r_output := output'; r_duration := duration' |},
   addToHistory execution c).

(** [getExecutionHistory(limit)]: [slice(-limit)] for a positive limit. *)
Definition getExecutionHistory (limit : nat) (c : Coordinator)
  : list McpToolExecution :=
  skipn (List.length (executionHistory c) - limit) (executionHistory c).

(** [clearHistory()] *)
Definition clearHistory (c : Coordinator) : Coordinator :=
  {| executionHistory := [] |}.

(** The operations that touch the log. *)
Inductive Op :=
  | Execute (servers : list McpServerRow) (call : CallOutcome)
      (startTime endTime stamp : Z) (sid : Z) (tool : string) (inp : Value)
  | Clear.

Definition apply (c : Coordinator) (o : Op) : Coordinator :=
  match o with
  | Execute servers call t0 t1 t2 sid tool inp =>
      (executeTool servers call t0 t1 t2 sid tool inp c).2
  | Clear => clearHistory c
  end.

Definition run (ops : list Op) : Coordinator := fold_left apply ops create.

(** The entry an [Execute] operation logs. *)
Definition entryOf (o : Op) : list McpToolExecution :=
  match o with
  | Execute servers call t0 t1 t2 sid tool inp =>
      let '(success', output') :=
        match call with
        | Resolved result => (true, Some result)
        | Rejected error => (false, Some error)
        end in
      [ {| serverId := sid; serverName := serverNameOf servers sid;
           toolName := tool; input := inp; output := output';
           success := success'; duration := t1 - t0; timestamp := t2 |} ]
  | Clear => []
  end.

(** The entries logged since the history was last cleared, oldest
    first. *)
Definition logged (ops : list Op) : list McpToolExecution :=
  fold_left (fun acc o => match o with
                          | Clear => []
                          | Execute _ _ _ _ _ _ _ _ => acc ++ entryOf o
                          end) ops [].

(** The [n] most recent entries of a log. *)
Definition most_recent (n : nat) (l : list McpToolExecution)
  : list McpToolExecution :=
  skipn (List.length l - n) l.

(** ** Reading the log *)

(** [Array.prototype.slice(start)] on an array of [len] elements: the
    index at which the copy starts. *)
Definition slice_start (start : Z) (len : nat) : nat :=
  if start <? 0 then Z.to_nat (Z.max (Z.of_nat len + start) 0)
  else Z.to_nat (Z.min start (Z.of_nat len)).

(** [getExecutionHistory(limit = 20)] for any integer limit, zero and
    negative ones included; [None] is a call without argument. *)
Definition getExecutionHistoryInt (limit : option Z) (c : Coordinator)
  : list McpToolExecution :=
  let limit := default 20 limit in
  skipn (slice_start (- limit) (List.length (executionHistory c)))
    (executionHistory c).

(** An entry of [byServer].  [successRate] is the quotient
    [serverSuccesses / serverExecutions.length], kept as its two
    operands. *)
Record ServerStats := {
  count : nat;
  successRate : nat * nat
}.

(** A [Map] with numeric keys, its entries in insertion order. *)
Fixpoint stats_get (k : Z) (m : list (Z * ServerStats)) : option ServerStats :=
  match m with
  | [] => None
  | (k', v) :: m' => if Z.eqb k' k then Some v else stats_get k m'
  end.

Fixpoint stats_set (k : Z) (v : ServerStats) (m : list (Z * ServerStats))
  : list (Z * ServerStats) :=
  match m with
  | [] => [(k, v)]
  | (k', v') :: m' =>
      if Z.eqb k' k then (k', v) :: m' else (k', v') :: stats_set k v m'
  end.

Record ExecutionStats := {
  totalExecutions : nat;
  successCount : nat;
  failureCount : nat;
  averageDuration : Z;
  byServer : list (Z * ServerStats)
}.

(** [Math.round(sum / n)] for integers [sum] and [n > 0]: the nearest
    integer, a half rounded up.  The division is exact enough for this as
    long as the quotient stays below 2^52. *)
Definition round_div (sum n : Z) : Z := (2 * sum + n) / (2 * n).

(** The distinct values of a list, each where it occurs first. *)
Fixpoint first_occurrences (l : list Z) : list Z :=
  match l with
  | [] => []
  | x :: rest =>
      x :: List.filter (fun y => negb (Z.eqb y x)) (first_occurrences rest)
  end.

(** The entries of the log that belong to a server. *)
Definition of_server (sid : Z) (l : list McpToolExecution)
  : list McpToolExecution :=
  List.filter (fun e => Z.eqb (serverId e) sid) l.

(** The body of the first loop of [getExecutionStats]; a new entry starts
    with the rate [0]. *)
Definition count_step (byServer : list (Z * ServerStats))
    (execution : McpToolExecution) : list (Z * ServerStats) :=
  let existing :=
    default {| count := 0; successRate := (0%nat, 1%nat) |}
      (stats_get (serverId execution) byServer) in
  stats_set (serverId execution)
    {| count := S (count existing); successRate := successRate existing |}
    byServer.

(** [getExecutionStats()] *)
Definition getExecutionStats (c : Coordinator) : ExecutionStats :=
  let history := executionHistory c in
  let totalExecutions := List.length history in
  let successCount := List.length (List.filter success history) in
  let failureCount := (totalExecutions - successCount)%nat in
  let averageDuration :=
    if (0 <? totalExecutions)%nat
    then round_div (fold_left (fun sum e => sum + duration e) history 0)
           (Z.of_nat totalExecutions)
    else 0 in
  let counted := fold_left count_step history [] in
  let rated :=
    List.map
      (fun '(sid, stats) =>
         let serverExecutions := of_server sid history in
         let serverSuccesses := List.length (List.filter success serverExecutions) in
         (sid, {| count := count stats;
                  successRate := (serverSuccesses, List.length serverExecutions) |}))
      counted in
  {| totalExecutions := totalExecutions;
     successCount := successCount;
     failureCount := failureCount;
     averageDuration := averageDuration;
     byServer := rated |}.

(** What the first loop has built after the entries [l]: one entry per
    server met, holding the number of its entries. *)
Definition counted_ok (m : list (Z * ServerStats)) (l : list McpToolExecution)
  : Prop :=
  NoDup m.*1
  /\ forall k,
       stats_get k m
       = if decide (of_server k l = []) then None
         else Some {| count := List.length (of_server k l);
                      successRate := (0%nat, 1%nat) |}.

End Coordinator.
Arguments McpToolExecution : clear implicits.
Arguments Coordinator : clear implicits.
Arguments Op : clear implicits.
Arguments CallOutcome : clear implicits.
End MultiMcp.

(* ===================================================================== *)
(** * JSON text and the string built-ins the code calls                   *)
(* ===================================================================== *)

(** A JavaScript string is the list of its UTF-16 code units, each an [N].
    A number is kept as the text [Number.prototype.toString] gives for it,
    so that printing and reading numbers needs no arithmetic. *)

Module Json.

(** The code units of a string literal of the source. *)
Definition lit (s : string) : list N :=
  List.map N_of_ascii (list_ascii_of_string s).

#[warnings="-register-all"] Inductive json :=
  | JNull
  | JBool (b : bool)
  | JNum (text : list N)
  | JStr (s : list N)
  | JArr (items : list json)
  | JObj (members : list (list N * json)).

Definition is_digit (c : N) : bool := ((48 <=? c) && (c <=? 57))%N.

(** ** Number literals, by the automaton of the JSON grammar: an optional
    minus sign, then zero or a digit string without leading zero, then an
    optional fraction, then an optional exponent. *)

Inductive NumState :=
  | NStart | NMinus | NZero | NInt | NDot | NFrac | NE | NESign | NExp.

Definition num_step (st : NumState) (c : N) : option NumState :=
  match st with
  | NStart =>
      if (c =? 45)%N (* - *) then Some NMinus
      else if (c =? 48)%N (* 0 *) then Some NZero
      else if is_digit c then Some NInt else None
  | NMinus =>
      if (c =? 48)%N then Some NZero
      else if is_digit c then Some NInt else None
  | NZero =>
      if (c =? 46)%N (* . *) then Some NDot
      else if ((c =? 101) || (c =? 69))%N (* e E *) then Some NE
      else None
  | NInt =>
      if is_digit c then Some NInt
      else if (c =? 46)%N then Some NDot
      else if ((c =? 101) || (c =? 69))%N then Some NE
      else None
  | NDot => if is_digit c then Some NFrac else None
  | NFrac =>
      if is_digit c then Some NFrac
      else if ((c =? 101) || (c =? 69))%N then Some NE
      else None
  | NE =>
      if ((c =? 43) || (c =? 45))%N (* + - *) then Some NESign
      else if is_digit c then Some NExp else None
  | NESign => if is_digit c then Some NExp else None
  | NExp => if is_digit c then Some NExp else None
  end.

Fixpoint num_run (st : NumState) (s : list N) : option NumState :=
  match s with
  | [] => Some st
  | c :: r =>
      match num_step st c with
      | Some st' => num_run st' r
      | None => None
      end
  end.

Definition num_accepting (st : NumState) : bool :=
  match st with
  | NZero | NInt | NFrac | NExp => true
  | _ => false
  end.

Definition number_literal (s : list N) : bool :=
  match num_run NStart s with
  | Some st => num_accepting st
  | None => false
  end.

(** The characters a number literal is made of. *)
Definition is_numchar (c : N) : bool :=
  (is_digit c || (c =? 45) || (c =? 43) || (c =? 46) || (c =? 101) || (c =? 69))%N.

(** ** JSON.stringify *)

(** A lower-case hexadecimal digit. *)
Definition hex_digit (n : N) : N := (if n <? 10 then 48 + n else 87 + n)%N.

(** [\uXXXX] for a code unit, with four lower-case digits. *)
Definition unicode_escape (c : N) : list N :=
  [92; 117; hex_digit (c / 4096); hex_digit ((c / 256) mod 16);
   hex_digit ((c / 16) mod 16); hex_digit (c mod 16)]%N.

Definition is_high_surrogate (c : N) : bool := ((55296 <=? c) && (c <=? 56319))%N.
Definition is_low_surrogate (c : N) : bool := ((56320 <=? c) && (c <=? 57343))%N.

(** QuoteJSONString for a code unit that is not a surrogate. *)
Definition escape_char (c : N) : list N :=
  (if c =? 34 then [92; 34]               (* the double quote *)
   else if c =? 92 then [92; 92]          (* the backslash *)
   else if c =? 8 then [92; 98]           (* \b *)
   else if c =? 12 then [92; 102]         (* \f *)
   else if c =? 10 then [92; 110]         (* \n *)
   else if c =? 13 then [92; 114]         (* \r *)
   else if c =? 9 then [92; 116]          (* \t *)
   else if c <? 32 then unicode_escape c
   else [c])%N.

(** QuoteJSONString, without the enclosing quotes: a surrogate pair is
    copied, a lone surrogate is escaped. *)
Fixpoint quote_body (s : list N) : list N :=
  match s with
  | [] => []
  | c :: r =>
      if is_high_surrogate c then
        match r with
        | l :: r' =>
            if is_low_surrogate l then c :: l :: quote_body r'
            else unicode_escape c ++ quote_body r
        | [] => unicode_escape c
        end
      else if is_low_surrogate c then unicode_escape c ++ quote_body r
      else escape_char c ++ quote_body r
  end.

Definition quote (s : list N) : list N := 34%N :: quote_body s ++ [34%N].

Fixpoint join (sep : list N) (parts : list (list N)) : list N :=
  match parts with
  | [] => []
  | [x] => x
  | x :: rest => x ++ sep ++ join sep rest
  end.

(** [JSON.stringify(v)] with no indentation.  A number that is not finite
    has no literal and prints as [null]. *)
Fixpoint stringify (v : json) : list N :=
  match v with
  | JNull => lit "null"
  | JBool true => lit "true"
  | JBool false => lit "false"
  | JNum text => if number_literal text then text else lit "null"
  | JStr s => quote s
  | JArr items => lit "[" ++ join (lit ",") (List.map stringify items) ++ lit "]"
  | JObj members =>
      lit "{"
      ++ join (lit ",")
           ((fix each (ms : list (list N * json)) : list (list N) :=
               match ms with
               | [] => []
               | (k, v') :: ms' => (quote k ++ lit ":" ++ stringify v') :: each ms'
               end) members)
      ++ lit "}"
  end.

(** ** JSON.parse *)

Definition is_ws (c : N) : bool :=
  ((c =? 32) || (c =? 9) || (c =? 10) || (c =? 13))%N.

Fixpoint skip_ws (s : list N) : list N :=
  match s with
  | c :: r => if is_ws c then skip_ws r else s
  | [] => []
  end.

Definition hex_val (c : N) : option N :=
  (if is_digit c then Some (c - 48)
   else if (97 <=? c) && (c <=? 102) then Some (c - 87)
   else if (65 <=? c) && (c <=? 70) then Some (c - 55)
   else None)%N.

(** The code unit a [\uXXXX] escape denotes. *)
Definition code_unit (h1 h2 h3 h4 : N) : option N :=
  match hex_val h1, hex_val h2, hex_val h3, hex_val h4 with
  | Some a, Some b, Some c, Some d => Some (((a * 16 + b) * 16 + c) * 16 + d)%N
  | _, _, _, _ => None
  end.

Definition unescape (e : N) : option N :=
  (if e =? 34 then Some 34
   else if e =? 92 then Some 92
   else if e =? 47 then Some 47           (* / *)
   else if e =? 98 then Some 8            (* b *)
   else if e =? 102 then Some 12          (* f *)
   else if e =? 110 then Some 10          (* n *)
   else if e =? 114 then Some 13          (* r *)
   else if e =? 116 then Some 9           (* t *)
   else None)%N.

Definition cons_fst (c : N) (r : list N * list N) : list N * list N :=
  (c :: r.1, r.2).

(** The rest of a string literal after its opening quote: the string it
    denotes and the text after the closing quote. *)
Fixpoint parse_string_body (s : list N) : option (list N * list N) :=
  match s with
  | [] => None
  | c :: r =>
      if (c =? 34)%N then Some ([], r)
      else if (c =? 92)%N then
        match r with
        | [] => None
        | e :: r1 =>
            if (e =? 117)%N (* u *) then
              match r1 with
              | h1 :: h2 :: h3 :: h4 :: r2 =>
                  match code_unit h1 h2 h3 h4 with
                  | Some ch => cons_fst ch <$> parse_string_body r2
                  | None => None
                  end
              | _ => None
              end
            else
              match unescape e with
              | Some ch => cons_fst ch <$> parse_string_body r1
              | None => None
              end
        end
      else if (c <? 32)%N then None
      else cons_fst c <$> parse_string_body r
  end.

(** The longest prefix of number characters, and the rest. *)
Fixpoint span_numchars (s : list N) : list N * list N :=
  match s with
  | c :: r => if is_numchar c then cons_fst c (span_numchars r) else ([], s)
  | [] => ([], [])
  end.

Fixpoint strip_prefix (p s : list N) : option (list N) :=
  match p with
  | [] => Some s
  | a :: p' =>
      match s with
      | b :: s' => if (a =? b)%N then strip_prefix p' s' else None
      | [] => None
      end
  end.

(** A closed brace or bracket after optional white space, if there is
    one: the text after it. *)
Definition closes (c : N) (s : list N) : option (list N) :=
  match skip_ws s with
  | c' :: r' => if (c' =? c)%N then Some r' else None
  | [] => None
  end.

(** Values, object members and array elements; [fuel] bounds the nesting
    and the number of members read, and the length of the text is enough. *)
Fixpoint parse_value (fuel : nat) (s : list N) : option (json * list N) :=
  match fuel with
  | O => None
  | S fuel' =>
      match skip_ws s with
      | [] => None
      | c :: r =>
          if (c =? 123)%N (* { *) then
            match closes 125 r with
            | Some r' => Some (JObj [], r')
            | None => (fun x => (JObj x.1, x.2)) <$> parse_members fuel' r
            end
          else if (c =? 91)%N (* [ *) then
            match closes 93 r with
            | Some r' => Some (JArr [], r')
            | None => (fun x => (JArr x.1, x.2)) <$> parse_elements fuel' r
            end
          else if (c =? 34)%N then
            (fun x => (JStr x.1, x.2)) <$> parse_string_body r
          else
            match strip_prefix (lit "true") (c :: r),
                  strip_prefix (lit "false") (c :: r),
                  strip_prefix (lit "null") (c :: r) with
            | Some rest, _, _ => Some (JBool true, rest)
            | _, Some rest, _ => Some (JBool false, rest)
            | _, _, Some rest => Some (JNull, rest)
            | None, None, None =>
                let '(text, rest) := span_numchars (c :: r) in
                if number_literal text then Some (JNum text, rest) else None
            end
      end
  end
with parse_members (fuel : nat) (s : list N)
  : option (list (list N * json) * list N) :=
  match fuel with
  | O => None
  | S fuel' =>
      match skip_ws s with
      | [] => None
      | c :: r =>
          if (c =? 34)%N then
            match parse_string_body r with
            | None => None
            | Some (key, r1) =>
                match skip_ws r1 with
                | [] => None
                | c1 :: r2 =>
                    if (c1 =? 58)%N (* : *) then
                      match parse_value fuel' r2 with
                      | None => None
                      | Some (v, r3) =>
                          match skip_ws r3 with
                          | [] => None
                          | c3 :: r4 =>
                              if (c3 =? 44)%N (* , *) then
                                (fun x => ((key, v) :: x.1, x.2))
                                  <$> parse_members fuel' r4
                              else if (c3 =? 125)%N (* } *) then
                                Some ([(key, v)], r4)
                              else None
                          end
                      end
                    else None
                end
            end
          else None
      end
  end
with parse_elements (fuel : nat) (s : list N) : option (list json * list N) :=
  match fuel with
  | O => None
  | S fuel' =>
      match parse_value fuel' s with
      | None => None
      | Some (v, r1) =>
          match skip_ws r1 with
          | [] => None
          | c :: r2 =>
              if (c =? 44)%N then
                (fun x => (v :: x.1, x.2)) <$> parse_elements fuel' r2
              else if (c =? 93)%N (* ] *) then Some ([v], r2)
              else None
          end
      end
  end.

(** [JSON.parse(text)]; [None] when it throws a [SyntaxError]. *)
Definition parse (text : list N) : option json :=
  match parse_value (S (List.length text)) text with
  | Some (v, rest) =>
      match skip_ws rest with
      | [] => Some v
      | _ :: _ => None
      end
  | None => None
  end.

(** Property read [v.k]: of duplicate members the last one counts. *)
Fixpoint last_member (k : list N) (ms : list (list N * json)) : option json :=
  match ms with
  | [] => None
  | (k', v) :: ms' =>
      match last_member k ms' with
      | Some v' => Some v'
      | None => if bool_decide (k' = k) then Some v else None
      end
  end.

Definition get_prop (k : list N) (v : json) : option json :=
  match v with
  | JObj ms => last_member k ms
  | _ => None
  end.

(** ** String.prototype.trim and includes *)

(** White space and line terminators, as [trim] removes them. *)
Definition is_space (c : N) : bool :=
  (((9 <=? c) && (c <=? 13)) || (c =? 32) || (c =? 160) || (c =? 5760)
   || ((8192 <=? c) && (c <=? 8202)) || (c =? 8232) || (c =? 8233)
   || (c =? 8239) || (c =? 8287) || (c =? 12288) || (c =? 65279))%N.

Fixpoint trimStart (s : list N) : list N :=
  match s with
  | c :: r => if is_space c then trimStart r else s
  | [] => []
  end.

Fixpoint trimEnd (s : list N) : list N :=
  match s with
  | [] => []
  | c :: r =>
      match trimEnd r with
      | [] => if is_space c then [] else [c]
      | r' => c :: r'
      end
  end.

Definition trim (s : list N) : list N := trimEnd (trimStart s).

Fixpoint includes (pat s : list N) : bool :=
  match strip_prefix pat s with
  | Some _ => true
  | None =>
      match s with
      | _ :: r => includes pat r
      | [] => false
      end
  end.

(** What [JSON.parse] reads back for a number. *)
Definition numval (n : list N) : json :=
  if number_literal n then JNum n else JNull.

(** A character a number literal can start with. *)
Definition starts_number (c : N) : bool :=
  match num_step NStart c with Some _ => true | None => false end.

End Json.

(* ===================================================================== *)
(** * Local models (inspired_mode_utils.ts)                                *)
(* ===================================================================== *)

Module InspiredMode.
Import Json.

(** JavaScript truthiness of a value of type [string | null]. *)
Definition truthy (s : option (list N)) : bool :=
  match s with
  | Some (_ :: _) => true
  | _ => false
  end.

Section Inspired.
(** [LocalModel]; this code reads its [modelName] only. *)
Context {LocalModel : Type}.
Variable modelName : LocalModel -> list N.
(** [String.prototype.toLowerCase] *)
Variable toLowerCase : list N -> list N.

(** What [fetchOllamaModels()] did: it threw, or it resolved with a result
    whose [models] is a list or is missing. *)
Inductive Fetch :=
  | FetchThrew
  | Fetched (models : option (list LocalModel)).

Record InspiredModeStatus := {
  isOllamaAvailable : bool;
  availableModels : list LocalModel;
  recommendedModel : option (list N);
  isOfflineCapable : bool
}.

Definition recommendedModelNames : list (list N) :=
  List.map lit
    ["qwen2.5-coder"; "qwen3-coder"; "codellama"; "deepseek-coder";
     "llama3"; "mistral"; "gemma2"].

(** The loop over the preferred names: the first name that some model
    matches decides, and of the models matching it the first one. *)
Fixpoint first_recommended (names : list (list N)) (models : list LocalModel)
  : option (list N) :=
  match names with
  | [] => None
  | recName :: rest =>
      match List.find (fun m => includes recName (toLowerCase (modelName m)))
              models with
      | Some found => Some (modelName found)
      | None => first_recommended rest models
      end
  end.

(** [checkInspiredModeStatus()] *)
Definition checkInspiredModeStatus (fetched : Fetch) : InspiredModeStatus :=
  match fetched with
  | Fetched result =>
      let models := default [] result in
      let recommendedModel := first_recommended recommendedModelNames models in
      let recommendedModel :=
        if negb (truthy recommendedModel) then
          match models with
          | first :: _ => Some (modelName first)
          | [] => recommendedModel
          end
        else recommendedModel in
      {| isOllamaAvailable := true; availableModels := models;
         recommendedModel := recommendedModel; isOfflineCapable := true |}
  | FetchThrew =>
      {| isOllamaAvailable := false; availableModels := [];
         recommendedModel := None; isOfflineCapable := false |}
  end.

Record Validation := {
  canActivate : bool;
  reason : option string
}.

(** [validateInspiredModeRequirements()] *)
Definition validateInspiredModeRequirements (fetched : Fetch) : Validation :=
  let status := checkInspiredModeStatus fetched in
  if negb (isOllamaAvailable status) then
    {| canActivate := false;
       reason := Some "Ollama is not running. Please start Ollama to use Inspired mode." |}
  else if (List.length (availableModels status) =? 0)%nat then
    {| canActivate := false;
       reason := Some "No Ollama models found. Please pull at least one model using 'ollama pull <model-name>'." |}
  else {| canActivate := true; reason := None |}.

(** [getBestOllamaModelForCoding()] *)
Definition getBestOllamaModelForCoding (fetched : Fetch) : option (list N) :=
  recommendedModel (checkInspiredModeStatus fetched).

End Inspired.
Arguments Fetch : clear implicits.
Arguments InspiredModeStatus : clear implicits.

(** ** Sample inputs *)

(** Lower case for the letters A to Z; the samples use no other ones. *)
Definition asciiLower (s : list N) : list N :=
  List.map (fun c => if ((65 <=? c) && (c <=? 90))%N then (c + 32)%N else c) s.

End InspiredMode.

(* ===================================================================== *)
(** * External providers (didactic_mode_utils.ts)                          *)
(* ===================================================================== *)

Module DidacticMode.
Import Json.

(** A language model provider, as far as this code reads it. *)
Record Provider := {
  p_id : list N;
  envVarName : option (list N)
}.

Record DidacticModeStatus := {
  hasExternalAI : bool;
  availableProviders : list (list N);
  configuredProviders : list (list N);
  mcpServersCount : nat;
  enabledMcpServersCount : nat;
  isReady : bool;
  issues : list string
}.

Record Validation := {
  canActivate : bool;
  reason : option string
}.

Record McpIntegrationStatus := {
  hasServers : bool;
  enabledCount : nat;
  totalCount : nat;
  recommendation : option string
}.

Section Didactic.
(** [settings.providerSettings?.[id]?.apiKey?.value] *)
Variable apiKeyValue : list N -> option (list N).
(** [getEnvVar(name)] *)
Variable getEnvVar : list N -> option (list N).

(** [hasApiKey] of the loop, as a truth value. *)
Definition hasApiKey (provider : Provider) : bool :=
  InspiredMode.truthy (apiKeyValue (p_id provider))
  || match envVarName provider with
     | Some (c :: name) => InspiredMode.truthy (getEnvVar (c :: name))
     | _ => false
     end.

(** [checkExternalAIProviders(settings)]: the lists [available] and
    [configured]; [allProviders] is what [getLanguageModelProviders()]
    resolved with. *)
Definition checkExternalAIProviders (allProviders : list Provider)
  : list (list N) * list (list N) :=
  let externalProviders :=
    List.filter (fun p => negb (bool_decide (p_id p = lit "ollama"))
                          && negb (bool_decide (p_id p = lit "lmstudio")))
      allProviders in
  let ids := List.map p_id (List.filter hasApiKey externalProviders) in
  (ids, ids).

(** [checkMcpServersStatus()]: [total] and [enabled]. *)
Definition checkMcpServersStatus (servers : list MultiMcp.McpServerRow)
  : nat * nat :=
  (List.length servers, List.length (List.filter MultiMcp.srv_enabled servers)).

(** [checkDidacticModeStatus(settings)] *)
Definition checkDidacticModeStatus (allProviders : list Provider)
    (servers : list MultiMcp.McpServerRow) : DidacticModeStatus :=
  let '(available, configured) := checkExternalAIProviders allProviders in
  let issues :=
    if (List.length configured =? 0)%nat
    then ["No external AI providers configured. Add an API key in Settings."]
    else [] in
  let '(total, enabled) := checkMcpServersStatus servers in
  let hasExternalAI := (0 <? List.length configured)%nat in
  {| hasExternalAI := hasExternalAI;
     availableProviders := available;
     configuredProviders := configured;
     mcpServersCount := total;
     enabledMcpServersCount := enabled;
     isReady := hasExternalAI;
     issues := issues |}.

(** [validateDidacticModeRequirements(settings)] *)
Definition validateDidacticModeRequirements (allProviders : list Provider)
    (servers : list MultiMcp.McpServerRow) : Validation :=
  let status := checkDidacticModeStatus allProviders servers in
  if negb (hasExternalAI status) then
    {| canActivate := false;
       reason := Some "No external AI providers configured. Please add an API key in Settings (OpenAI, Anthropic, Google, etc.)." |}
  else
    match issues status with
    | issue :: _ => {| canActivate := false; reason := Some issue |}
    | [] => {| canActivate := true; reason := None |}
    end.

Definition preferredProviders : list (list N) :=
  List.map lit ["anthropic"; "openai"; "google"; "xai"; "openrouter"; "auto"].

(** The loop over the preferred providers. *)
Fixpoint first_preferred (preferred configured : list (list N))
  : option (list N) :=
  match preferred with
  | [] => None
  | p :: rest =>
      if bool_decide (p ∈ configured) then Some p
      else first_preferred rest configured
  end.

(** [getRecommendedExternalProvider(settings)] *)
Definition getRecommendedExternalProvider (allProviders : list Provider)
  : option (list N) :=
  let configured := (checkExternalAIProviders allProviders).2 in
  match first_preferred preferredProviders configured with
  | Some preferred => Some preferred
  | None => head configured
  end.

(** [checkMcpIntegration()] *)
Definition checkMcpIntegration (servers : list MultiMcp.McpServerRow)
  : McpIntegrationStatus :=
  let '(total, enabled) := checkMcpServersStatus servers in
  {| hasServers := (0 <? total)%nat;
     enabledCount := enabled;
     totalCount := total;
     recommendation :=
       if (total =? 0)%nat then
         Some "Consider adding MCP servers for enhanced capabilities (filesystem, web search, etc.)."
       else if (enabled =? 0)%nat then
         Some "You have MCP servers configured but none are enabled. Enable them in Settings."
       else None |}.

End Didactic.
End DidacticMode.

(* ===================================================================== *)
(** * Routing by mode (mode_aware_routing.ts)                              *)
(* ===================================================================== *)

Module ModeRouting.
Import Json ModeHandlers.

Section Routing.
Context {LocalModel : Type}.
Variable modelName : LocalModel -> list N.
Variable toLowerCase : list N -> list N.
(** What a [LargeLanguageModel] holds besides its provider and name. *)
Context {Rest : Type}.

Record LargeLanguageModel := {
  provider : list N;
  name : list N;
  rest : option Rest
}.

(** [getActiveCollaborationMode()] *)
Definition getActiveCollaborationMode (db : Db) : AICollaborationMode :=
  match active_rows (aiCollaborationModes db) with
  | [] => inspired
  | r :: _ => mr_mode r
  end.

Definition is_local (p : list N) : bool :=
  bool_decide (p = lit "ollama") || bool_decide (p = lit "lmstudio").

(** [getModeAwareModel(requestedModel, settings)]; [selectedModel] is
    [settings.selectedModel], [status] and [best] are what the calls of
    [fetchOllamaModels] made by [checkInspiredModeStatus()] and by
    [getBestOllamaModelForCoding()] did.  [inl] is the error thrown. *)
Definition getModeAwareModel (requestedModel : LargeLanguageModel)
    (selectedModel : option LargeLanguageModel)
    (status best : InspiredMode.Fetch LocalModel) (db : Db)
  : string + LargeLanguageModel :=
  match getActiveCollaborationMode db with
  | inspired =>
      if bool_decide (provider requestedModel = lit "ollama")
      then inr requestedModel
      else
        let inspiredStatus :=
          InspiredMode.checkInspiredModeStatus modelName toLowerCase status in
        if negb (InspiredMode.isOllamaAvailable inspiredStatus) then
          inl "Inspired mode requires Ollama to be running. Please start Ollama or switch to a different mode."
        else
          match InspiredMode.availableModels inspiredStatus with
          | [] =>
              inl "No Ollama models found. Please install at least one model using 'ollama pull <model-name>'."
          | first :: _ =>
              let recommendedModel :=
                InspiredMode.getBestOllamaModelForCoding modelName toLowerCase best in
              match recommendedModel with
              | Some (c :: r) =>
                  inr {| provider := lit "ollama"; name := c :: r; rest := None |}
              | _ =>
                  inr {| provider := lit "ollama"; name := modelName first;
                         rest := None |}
              end
          end
  | didactic =>
      if is_local (provider requestedModel) then
        match selectedModel with
        | Some selected =>
            if InspiredMode.truthy (Some (provider selected))
               && negb (is_local (provider selected))
            then inr selected
            else inr {| provider := lit "auto"; name := lit "free"; rest := None |}
        | None => inr {| provider := lit "auto"; name := lit "free"; rest := None |}
        end
      else inr requestedModel
  | parallel => inr requestedModel
  end.

Record Allowed := {
  allowed : bool;
  allowed_reason : option string
}.

(** [isModelProviderAllowed(provider)] *)
Definition isModelProviderAllowed (p : list N) (db : Db) : Allowed :=
  match getActiveCollaborationMode db with
  | inspired =>
      if bool_decide (p = lit "ollama")
      then {| allowed := true; allowed_reason := None |}
      else {| allowed := false;
              allowed_reason := Some "Inspired mode only supports local Ollama models" |}
  | didactic =>
      if is_local p
      then {| allowed := false;
              allowed_reason := Some "Didactic mode does not support local models" |}
      else {| allowed := true; allowed_reason := None |}
  | parallel => {| allowed := true; allowed_reason := None |}
  end.

Record Compatible := {
  compatible : bool;
  compatible_reason : option string
}.

(** [validateModeModelCompatibility(model)] *)
Definition validateModeModelCompatibility (model : LargeLanguageModel)
    (status : InspiredMode.Fetch LocalModel) (db : Db) : Compatible :=
  let activeMode := getActiveCollaborationMode db in
  let providerCheck := isModelProviderAllowed (provider model) db in
  if negb (allowed providerCheck) then
    {| compatible := false;
       compatible_reason :=
         Some ("In " +:+ mode_text activeMode +:+ " mode: "
                 +:+ default "undefined" (allowed_reason providerCheck)) |}
  else if bool_decide (activeMode = inspired) then
    let inspiredStatus :=
      InspiredMode.checkInspiredModeStatus modelName toLowerCase status in
    if negb (InspiredMode.isOllamaAvailable inspiredStatus) then
      {| compatible := false;
         compatible_reason :=
           Some "Ollama is not running. Please start Ollama to use Inspired mode." |}
    else if (List.length (InspiredMode.availableModels inspiredStatus) =? 0)%nat then
      {| compatible := false;
         compatible_reason :=
           Some "No Ollama models found. Please install at least one model." |}
    else {| compatible := true; compatible_reason := None |}
  else {| compatible := true; compatible_reason := None |}.

End Routing.
Arguments LargeLanguageModel : clear implicits.

End ModeRouting.

(* ===================================================================== *)
(** * Response provenance markers (parallel_mode_utils.ts)                *)
(* ===================================================================== *)

Module ParallelMode.
Import Json.

Inductive SourceType := local | external | harmonized.

Definition sourceType_text (t : SourceType) : list N :=
  match t with
  | local => lit "local"
  | external => lit "external"
  | harmonized => lit "harmonized"
  end.

Record ResponseSource := {
  sourceType : SourceType;
  provider : list N;
  model : list N;
  confidence : option (list N);     (* a number, when present *)
  timestamp : list N                (* a number *)
}.

(** The object literal [metadata]; a property whose value is [undefined]
    is not printed by [JSON.stringify]. *)
Definition metadata (source : ResponseSource) : json :=
  JObj ([ (lit "sourceType", JStr (sourceType_text (sourceType source)));
          (lit "provider", JStr (provider source));
          (lit "model", JStr (model source)) ]
        ++ match confidence source with
           | Some n => [(lit "confidence", JNum n)]
           | None => []
           end
        ++ [ (lit "timestamp", JNum (timestamp source)) ]).

Definition annotateResponseSource (content : list N) (source : ResponseSource)
  : list N :=
  lit "<!--SOURCE:" ++ stringify (metadata source) ++ lit "-->" ++ content.

(** ** The regular expression [/<!--SOURCE:(.+?)-->/] *)

(** [.] matches every code unit but the line terminators: line feed,
    carriage return, U+2028 and U+2029. *)
Definition is_line_terminator (c : N) : bool :=
  ((c =? 10) || (c =? 13) || (c =? 8232) || (c =? 8233))%N.

(** The lazy extension of the capture: stop at the first place where
    [-->] follows. *)
Fixpoint lazy_rest (s : list N) : option (list N * list N) :=
  match strip_prefix (lit "-->") s with
  | Some rest => Some ([], rest)
  | None =>
      match s with
      | [] => None
      | c :: r =>
          if is_line_terminator c then None else cons_fst c <$> lazy_rest r
      end
  end.

(** [(.+?)-->] at a position: the capture and the text after the match. *)
Definition capture_at (s : list N) : option (list N * list N) :=
  match s with
  | [] => None
  | c :: r =>
      if is_line_terminator c then None else cons_fst c <$> lazy_rest r
  end.

Record Match := {
  before : list N;      (* the text before the match *)
  group1 : list N;      (* the capture *)
  after : list N        (* the text after the match *)
}.

(** The leftmost match of the expression in [s]. *)
Fixpoint exec (s : list N) : option Match :=
  let here :=
    match strip_prefix (lit "<!--SOURCE:") s with
    | Some body =>
        match capture_at body with
        | Some (g, rest) => Some {| before := []; group1 := g; after := rest |}
        | None => None
        end
    | None => None
    end in
  match here with
  | Some m => Some m
  | None =>
      match s with
      | [] => None
      | c :: r =>
          (fun m => {| before := c :: before m; group1 := group1 m;
                       after := after m |}) <$> exec r
      end
  end.

Record Extracted := {
  source : json;             (* [null] is [JNull] *)
  cleanContent : list N
}.

Definition extractResponseSource (content : list N) : Extracted :=
  match exec content with
  | Some sourceMatch =>
      match parse (group1 sourceMatch) with
      | Some src =>
          {| source := src;
             cleanContent := trim (before sourceMatch ++ after sourceMatch) |}
      | None => {| source := JNull; cleanContent := content |}
      end
  | None => {| source := JNull; cleanContent := content |}
  end.

(** ** Readiness and strategy *)

Record ParallelModeStatus := {
  hasLocalAI : bool;
  hasExternalAI : bool;
  localModels : nat;
  externalProviders : nat;
  mcpServersEnabled : nat;
  isReady : bool;
  issues : list string
}.

Inductive AISourceType := local_source | external_source.

#[global] Instance AISourceType_eq_dec : EqDecision AISourceType.
Proof. solve_decision. Defined.

Record AISource := {
  ai_type : AISourceType;
  ai_provider : list N;
  ai_model : list N;
  isAvailable : bool
}.

(** [primary] is declared an [AISource], but the non-null assertions of
    [determineParallelStrategy] can leave it [undefined]: [None] here. *)
Record ParallelModeStrategy := {
  primary : option AISource;
  secondary : option AISource;
  useGlassBox : bool;
  enableHarmonization : bool;
  conflictResolution : string
}.

Record Validation := {
  canActivate : bool;
  reason : option string
}.

Section Readiness.
Context {LocalModel : Type}.

(** [checkParallelModeStatus(settings)]; [inspiredStatus] and
    [didacticStatus] are what its calls of [checkInspiredModeStatus()] and
    [checkDidacticModeStatus(settings)] resolved with. *)
Definition checkParallelModeStatus
    (inspiredStatus : InspiredMode.InspiredModeStatus LocalModel)
    (didacticStatus : DidacticMode.DidacticModeStatus) : ParallelModeStatus :=
  let hasLocalAI := InspiredMode.isOllamaAvailable inspiredStatus in
  let localModels := List.length (InspiredMode.availableModels inspiredStatus) in
  let issues1 :=
    if negb hasLocalAI
    then ["Local AI (Ollama) not available. Install Ollama for full Parallel mode capabilities."]
    else [] in
  let hasExternalAI := DidacticMode.hasExternalAI didacticStatus in
  let externalProviders :=
    List.length (DidacticMode.configuredProviders didacticStatus) in
  let mcpServersEnabled := DidacticMode.enabledMcpServersCount didacticStatus in
  let issues2 :=
    if negb hasExternalAI
    then ["External AI not configured. Add an API key in Settings for full Parallel mode capabilities."]
    else [] in
  let isReady := hasLocalAI || hasExternalAI in
  let issues3 :=
    if negb isReady
    then ["No AI sources available. Configure either Ollama or an external provider."]
    else [] in
  {| hasLocalAI := hasLocalAI;
     hasExternalAI := hasExternalAI;
     localModels := localModels;
     externalProviders := externalProviders;
     mcpServersEnabled := mcpServersEnabled;
     isReady := isReady;
     issues := issues1 ++ issues2 ++ issues3 |}.

(** [validateParallelModeRequirements(settings)] *)
Definition validateParallelModeRequirements
    (inspiredStatus : InspiredMode.InspiredModeStatus LocalModel)
    (didacticStatus : DidacticMode.DidacticModeStatus) : Validation :=
  let status := checkParallelModeStatus inspiredStatus didacticStatus in
  if negb (isReady status) then
    {| canActivate := false;
       reason := Some "Parallel mode requires at least one AI source (local Ollama or external provider). Please configure one." |}
  else {| canActivate := true; reason := None |}.

(** [getAvailableAISources(settings)] *)
Definition getAvailableAISources
    (inspiredStatus : InspiredMode.InspiredModeStatus LocalModel)
    (didacticStatus : DidacticMode.DidacticModeStatus) : list AISource :=
  (if InspiredMode.isOllamaAvailable inspiredStatus
      && InspiredMode.truthy (InspiredMode.recommendedModel inspiredStatus)
   then [ {| ai_type := local_source; ai_provider := lit "ollama";
             ai_model := default [] (InspiredMode.recommendedModel inspiredStatus);
             isAvailable := true |} ]
   else [])
  ++ (if DidacticMode.hasExternalAI didacticStatus
      then List.map (fun p => {| ai_type := external_source; ai_provider := p;
                                 ai_model := lit "auto"; isAvailable := true |})
             (DidacticMode.configuredProviders didacticStatus)
      else []).

Definition find_source (t : AISourceType) (sources : list AISource)
  : option AISource :=
  List.find (fun s => bool_decide (ai_type s = t)) sources.

(** [determineParallelStrategy(settings)].  It reads the environment
    twice: [inspired1] and [didactic1] are the statuses inside
    [getAvailableAISources], [inspired2] and [didactic2] those inside
    [checkParallelModeStatus]. *)
Definition determineParallelStrategy
    (inspired1 : InspiredMode.InspiredModeStatus LocalModel)
    (didactic1 : DidacticMode.DidacticModeStatus)
    (inspired2 : InspiredMode.InspiredModeStatus LocalModel)
    (didactic2 : DidacticMode.DidacticModeStatus) : ParallelModeStrategy :=
  let sources := getAvailableAISources inspired1 didactic1 in
  let status := checkParallelModeStatus inspired2 didactic2 in
  let '(primary, secondary) :=
    if hasExternalAI status && hasLocalAI status then
      (match find_source external_source sources with
       | Some s => Some s
       | None => find_source local_source sources
       end,
       find_source local_source sources)
    else if hasExternalAI status then
      (find_source external_source sources, None)
    else if hasLocalAI status then
      (find_source local_source sources, None)
    else
      (Some {| ai_type := external_source; ai_provider := lit "auto";
               ai_model := lit "free"; isAvailable := false |},
       None) in
  {| primary := primary;
     secondary := secondary;
     useGlassBox := true;
     enableHarmonization := bool_decide (is_Some secondary);
     conflictResolution := "primary-wins" |}.

End Readiness.

(** ** The printed marker, piece by piece *)

(** [arrow_free d s]: reading [s] after [d] dashes (2 stands for two or
    more) never completes [-->]. *)
Fixpoint arrow_free (d : nat) (s : list N) : bool :=
  match s with
  | [] => true
  | c :: r =>
      if (c =? 45)%N (* - *) then arrow_free (Nat.min 2 (S d)) r
      else if (c =? 62)%N (* > *) then (d <? 2)%nat && arrow_free 0 r
      else arrow_free 0 r
  end.

(** A code unit that [.] matches. *)
Definition not_lt (c : N) : bool := negb (is_line_terminator c).

(** Neither U+2028 nor U+2029. *)
Definition no_separator (c : N) : bool := negb ((c =? 8232) || (c =? 8233))%N.

(** [d] dashes, for [d] up to 2. *)
Definition dashes (d : nat) : list N :=
  match d with
  | O => []
  | 1%nat => [45%N]
  | _ => [45%N; 45%N]
  end.

(** What a printed number is made of: the characters of a literal, or
    those of [null]. *)
Definition is_numtext (c : N) : bool :=
  (is_numchar c || (c =? 110) || (c =? 117) || (c =? 108))%N.

(** A member with a string value, and one with a number, as printed,
    followed by [rest].  34 is the double quote, 58 the colon, 44 the
    comma, 123 and 125 the braces. *)
Definition str_field (k v rest : list N) : list N :=
  34%N :: quote_body k ++ 34%N :: 58%N :: 34%N :: quote_body v ++ 34%N :: rest.

Definition num_field (k n rest : list N) : list N :=
  34%N :: quote_body k ++ 34%N :: 58%N :: stringify (JNum n) ++ rest.

Definition printed (src : ResponseSource) : list N :=
  123%N ::
    str_field (lit "sourceType") (sourceType_text (sourceType src)) (44%N ::
    str_field (lit "provider") (provider src) (44%N ::
    str_field (lit "model") (model src) (44%N ::
    match confidence src with
    | Some n =>
        num_field (lit "confidence") n
          (44%N :: num_field (lit "timestamp") (timestamp src) [125%N])
    | None => num_field (lit "timestamp") (timestamp src) [125%N]
    end))).

(** The object [JSON.parse] reads back. *)
Definition parsed (src : ResponseSource) : json :=
  JObj ([ (lit "sourceType", JStr (sourceType_text (sourceType src)));
          (lit "provider", JStr (provider src));
          (lit "model", JStr (model src)) ]
        ++ match confidence src with
           | Some n => [(lit "confidence", numval n)]
           | None => []
           end
        ++ [ (lit "timestamp", numval (timestamp src)) ]).

(** ** Sample inputs *)

Definition sampleSource : ResponseSource :=
  {| sourceType := external; provider := lit "p"; model := lit "m";
     confidence := None; timestamp := lit "1700000000000" |}.

(** A provider name that holds the end of the marker. *)
Definition arrowSource : ResponseSource :=
  {| sourceType := external; provider := lit "a-->b"; model := lit "m";
     confidence := None; timestamp := lit "1700000000000" |}.

(** A provider name that ends with the line separator U+2028. *)
Definition separatorSource : ResponseSource :=
  {| sourceType := external; provider := lit "a" ++ [8232%N]; model := lit "m";
     confidence := None; timestamp := lit "1700000000000" |}.

End ParallelMode.

(* ===================================================================== *)
(** * Properties                                                          *)
(* ===================================================================== *)

Section ModeHandlersFacts.
Import ModeHandlers.

Lemma rows_of_mode_app m t1 t2 :
  rows_of_mode m (t1 ++ t2) = rows_of_mode m t1 ++ rows_of_mode m t2.
Proof. unfold rows_of_mode. apply List.filter_app. Qed.

Lemma rows_of_mode_update m m' f t :
  (forall r, mr_mode (f r) = mr_mode r) ->
  rows_of_mode m (List.map (fun r => if bool_decide (mr_mode r = m') then f r else r) t)
  = List.map (fun r => if bool_decide (mr_mode r = m') then f r else r) (rows_of_mode m t).
Proof.
  intros Hf. induction t as [|r t IH]; [done|].
  cbn [List.map rows_of_mode List.filter]. fold (rows_of_mode m).
  destruct (bool_decide (mr_mode r = m')) eqn:E1.
  - rewrite Hf. destruct (bool_decide (mr_mode r = m)) eqn:E2; cbn [List.map].
    + rewrite E1. f_equal. exact IH.
    + exact IH.
  - destruct (bool_decide (mr_mode r = m)) eqn:E2; cbn [List.map].
    + rewrite E1. f_equal. exact IH.
    + exact IH.
Qed.

Lemma ensure_one_spec now m db db' :
  ensure_one now m db = Returned tt db' ->
  rows_of_mode m (aiCollaborationModes db') <> []
  /\ (forall m', rows_of_mode m' (aiCollaborationModes db) <> [] ->
                 rows_of_mode m' (aiCollaborationModes db') <> [])
  /\ modeTransitionHistory db' = modeTransitionHistory db
  /\ history_seq db' = history_seq db.
Proof.
  unfold ensure_one.
  destruct (rows_of_mode m (aiCollaborationModes db)) as [|r rs] eqn:E.
  - destruct (caps_of_mode m _); [|discriminate].
    intros [= <-].
    cbn [aiCollaborationModes with_caps with_modes modeTransitionHistory history_seq].
    repeat split.
    + rewrite rows_of_mode_app, E. cbn. rewrite bool_decide_eq_true_2 by done. done.
    + intros m' H. rewrite rows_of_mode_app. intros Habs.
      apply app_eq_nil in Habs. tauto.
  - intros [= <-]. rewrite E. repeat split; done.
Qed.

Lemma ensureModesExist_spec now db db' :
  ensureModesExist now db = Returned tt db' ->
  modes_exist db'
  /\ modeTransitionHistory db' = modeTransitionHistory db
  /\ history_seq db' = history_seq db.
Proof.
  unfold ensureModesExist. cbn [ensure_loop].
  destruct (ensure_one now inspired db) as [[] d1|] eqn:E1; [|discriminate].
  destruct (ensure_one now didactic d1) as [[] d2|] eqn:E2; [|discriminate].
  destruct (ensure_one now parallel d2) as [[] d3|] eqn:E3; [|discriminate].
  intros [= <-].
  apply ensure_one_spec in E1 as (A1 & B1 & C1 & D1).
  apply ensure_one_spec in E2 as (A2 & B2 & C2 & D2).
  apply ensure_one_spec in E3 as (A3 & B3 & C3 & D3).
  split; [|split; congruence].
  intros [| |]; auto.
Qed.

Lemma rows_of_mode_head m t r rs :
  rows_of_mode m t = r :: rs -> mr_mode r = m.
Proof.
  intros H. assert (In r (rows_of_mode m t)) as Hin by (rewrite H; left; done).
  apply List.filter_In in Hin as [_ Hin]. by apply bool_decide_eq_true_1 in Hin.
Qed.

Lemma update_mode_modes_exist m f db :
  (forall r, mr_mode (f r) = mr_mode r) ->
  modes_exist db -> modes_exist (update_mode m f db).
Proof.
  intros Hf H m'. cbn [update_mode aiCollaborationModes].
  rewrite rows_of_mode_update by done.
  specialize (H m'). destruct (rows_of_mode m' (aiCollaborationModes db)); done.
Qed.

Lemma getModeWithCapabilities_activated now target db :
  rows_of_mode target (aiCollaborationModes db) <> [] ->
  exists st,
    getModeWithCapabilities target (update_mode target (set_active now) db) = Some st
    /\ st_mode st = target /\ st_isActive st = true
    /\ st_lastActivatedAt st = Some (stored_timestamp now).
Proof.
  intros H. unfold getModeWithCapabilities.
  cbn [update_mode aiCollaborationModes].
  rewrite rows_of_mode_update by done.
  destruct (rows_of_mode target (aiCollaborationModes db)) as [|r rs] eqn:E; [done|].
  apply rows_of_mode_head in E. cbn [List.map].
  rewrite bool_decide_eq_true_2 by done.
  eexists. split; [reflexivity|]. cbn. done.
Qed.

Lemma getModeWithCapabilities_insert_history m t f to snap d ok err db :
  getModeWithCapabilities m (insert_history t f to snap d ok err db).2
  = getModeWithCapabilities m db.
Proof. reflexivity. Qed.

Lemma status_of_row target db r :
  only_active target (aiCollaborationModes db) ->
  In r (aiCollaborationModes db) ->
  exists st, getModeWithCapabilities (mr_mode r) db = Some st
             /\ st_mode st = mr_mode r
             /\ (st_isActive st = true <-> mr_mode r = target).
Proof.
  intros [_ Hact] Hin. unfold getModeWithCapabilities.
  destruct (rows_of_mode (mr_mode r) (aiCollaborationModes db)) as [|r1 rs] eqn:E.
  - exfalso. assert (In r (rows_of_mode (mr_mode r) (aiCollaborationModes db))) as H.
    { apply List.filter_In. split; [done|]. by apply bool_decide_eq_true_2. }
    rewrite E in H. destruct H.
  - assert (In r1 (aiCollaborationModes db)) as Hin1.
    { assert (In r1 (rows_of_mode (mr_mode r) (aiCollaborationModes db))) as H
        by (rewrite E; left; done).
      apply List.filter_In in H. tauto. }
    apply rows_of_mode_head in E.
    eexists. split; [reflexivity|]. cbn. split; [done|].
    rewrite <- E. apply Hact, Hin1.
Qed.

Lemma snapshotCurrentMode_only_active target db :
  only_active target (aiCollaborationModes db) ->
  snapshotCurrentMode db = target.
Proof.
  intros Hoa. unfold snapshotCurrentMode, availableModesOf.
  assert (forall t, (forall r, In r t -> In r (aiCollaborationModes db)) ->
            Forall (fun st => st_mode st = target)
              (List.filter st_isActive
                 (omap (fun r => getModeWithCapabilities (mr_mode r) db) t))
            /\ (rows_of_mode target t <> [] ->
                List.filter st_isActive
                  (omap (fun r => getModeWithCapabilities (mr_mode r) db) t) <> []))
    as Hgen.
  { induction t as [|r t IH]; intros Hsub.
    - split; [constructor|done].
    - destruct (status_of_row target db r Hoa) as (st & Hst & Hm & Ha).
      { apply Hsub. by left. }
      destruct IH as [IH1 IH2]. { intros r' Hr'. apply Hsub. by right. }
      cbn [omap list_omap]. rewrite Hst. cbn [List.filter].
      destruct (st_isActive st) eqn:Eact.
      + split; [|done]. constructor; [|done]. rewrite Hm. by apply Ha.
      + split; [done|]. cbn [rows_of_mode List.filter]. fold (rows_of_mode target).
        destruct (bool_decide (mr_mode r = target)) eqn:Em; [|done].
        apply bool_decide_eq_true_1, Ha in Em. congruence. }
  destruct (Hgen (aiCollaborationModes db)) as [H1 H2]; [done|].
  destruct Hoa as [Hne _]. specialize (H2 Hne).
  destruct (List.filter st_isActive _) as [|st rest]; [done|].
  by inversion H1.
Qed.

Lemma only_active_after_switch now current target t :
  current <> target ->
  rows_of_mode target t <> [] ->
  (forall r, In r t -> mr_isActive r = true -> mr_mode r = current) ->
  only_active target
    (List.map (fun r => if bool_decide (mr_mode r = target) then set_active now r else r)
       (List.map (fun r => if bool_decide (mr_mode r = current) then set_inactive r else r)
          t)).
Proof.
  intros Hne Hrows Hone. split.
  - rewrite !rows_of_mode_update by done.
    destruct (rows_of_mode target t); done.
  - intros r Hin. apply List.in_map_iff in Hin as (r1 & <- & Hin).
    apply List.in_map_iff in Hin as (r0 & <- & Hin).
    destruct (bool_decide (mr_mode r0 = current)) eqn:E1.
    + apply bool_decide_eq_true_1 in E1. cbn.
      rewrite bool_decide_eq_false_2 by congruence. cbn. split; [done|congruence].
    + apply bool_decide_eq_false_1 in E1.
      destruct (bool_decide (mr_mode r0 = target)) eqn:E2.
      * apply bool_decide_eq_true_1 in E2. cbn. done.
      * apply bool_decide_eq_false_1 in E2. split; [|done].
        intros Hact. exfalso. apply E1. by apply Hone.
Qed.

(** C1, as amended.  For every pair of modes (current, target) with
    current <> target: when [ensureModesExist] has run and the handler
    finds [current] active, [switchMode] returns a status whose mode is
    [target], which is active and was activated at the reading of the
    clock the update took (to the second), and appends exactly one history
    row, with fromMode = current, toMode = target, success = true and no
    error message; the transition it returns is that row.  The duration of
    the row is the reading of the clock at the end minus the reading at
    the start, whatever the clock did in between: it is [>= 0] exactly
    when the clock did not go back between the two readings.  When
    [current] was the only active mode, [mode:get-state] then reports
    [target] as the current mode. *)
Theorem switchMode_success clk params db db0 current :
  ensureModesExist (t_ensure clk) db = Returned tt db0 ->
  currentModeOf db0 = Some current ->
  current <> targetMode params ->
  exists result db' row,
    switchMode clk params db = Returned result db'
    /\ st_mode (res_mode result) = targetMode params
    /\ st_isActive (res_mode result) = true
    /\ st_lastActivatedAt (res_mode result)
       = Some (stored_timestamp (t_activate clk))
    /\ modeTransitionHistory db' = modeTransitionHistory db ++ [row]
    /\ h_fromMode row = Some current
    /\ h_toMode row = targetMode params
    /\ h_success row = true
    /\ h_errorMessage row = None
    /\ h_transitionDuration row = t_end clk - t_start clk
    /\ (0 <= h_transitionDuration row <-> t_start clk <= t_end clk)
    /\ res_transition result = to_record row
    /\ ((forall r, In r (aiCollaborationModes db0) ->
                   mr_isActive r = true -> mr_mode r = current) ->
        snapshotCurrentMode db' = targetMode params).
Proof.
  intros Hens Hcur Hne.
  destruct (ensureModesExist_spec _ _ _ Hens) as (Hex & Hhist & Hseq).
  unfold switchMode. rewrite Hens. unfold switch_try. rewrite Hcur.
  rewrite bool_decide_eq_false_2 by congruence.
  set (db1 := update_mode current set_inactive db0).
  assert (modes_exist db1) as Hex1 by (by apply update_mode_modes_exist).
  destruct (getModeWithCapabilities_activated (t_activate clk) (targetMode params)
              db1 (Hex1 _)) as (st & Hst & Hm & Ha & Hat).
  cbn [insert_history]. 
  match goal with
  | |- context [getModeWithCapabilities ?m ?d] =>
      change (getModeWithCapabilities m d)
        with (getModeWithCapabilities m
                (update_mode (targetMode params) (set_active (t_activate clk)) db1))
  end.
  rewrite Hst.
  eexists _, _, _. split; [reflexivity|].
  cbn. rewrite Hhist.
  repeat (split; [first [done | simpl; lia]|]).
  intros Hone. apply snapshotCurrentMode_only_active. cbn.
  apply only_active_after_switch; [done|apply Hex|done].
Qed.

(** C2.  Calling [switchMode] with the mode that is already active throws
    the already-active error (wrapped as "Mode switch failed: ..."), and
    the catch block still appends one history row with toMode = target,
    success = false and fromMode = null, although the active mode was
    known; no mode row changes. *)
Theorem switchMode_already_active clk params db db0 :
  ensureModesExist (t_ensure clk) db = Returned tt db0 ->
  currentModeOf db0 = Some (targetMode params) ->
  exists db' row,
    switchMode clk params db
    = Thrown ("Mode switch failed: Already in " +:+ mode_text (targetMode params)
                +:+ " mode. No switch needed.") db'
    /\ modeTransitionHistory db' = modeTransitionHistory db ++ [row]
    /\ h_toMode row = targetMode params
    /\ h_success row = false
    /\ h_fromMode row = None
    /\ h_errorMessage row
       = Some ("Already in " +:+ mode_text (targetMode params)
                 +:+ " mode. No switch needed.")
    /\ aiCollaborationModes db' = aiCollaborationModes db0.
Proof.
  intros Hens Hcur.
  destruct (ensureModesExist_spec _ _ _ Hens) as (_ & Hhist & _).
  unfold switchMode. rewrite Hens. unfold switch_try. rewrite Hcur.
  rewrite bool_decide_eq_true_2 by done.
  cbn [insert_history]. eexists _, _. split; [reflexivity|].
  simpl. rewrite Hhist. done.
Qed.

(** [ensureModesExist] changes nothing once every mode has a row. *)
Lemma ensureModesExist_idle now db :
  modes_exist db -> ensureModesExist now db = Returned tt db.
Proof.
  intros H. unfold ensureModesExist, ensure_loop, ensure_one.
  pose proof (H inspired). pose proof (H didactic). pose proof (H parallel).
  destruct (rows_of_mode inspired _); [done|].
  destruct (rows_of_mode didactic _); [done|].
  destruct (rows_of_mode parallel _); [done|]. done.
Qed.

Lemma switchMode_success_witness :
  exists result db' row,
    switchMode sampleClock toDidactic emptyDb = Returned result db'
    /\ st_mode (res_mode result) = didactic
    /\ st_isActive (res_mode result) = true
    /\ modeTransitionHistory db' = [row]
    /\ h_fromMode row = Some inspired
    /\ h_toMode row = didactic
    /\ h_success row = true
    /\ h_transitionDuration row = 4.
Proof.
  destruct (switchMode_success sampleClock toDidactic emptyDb
              match ensureModesExist 1001 emptyDb with
              | Returned _ d => d
              | Thrown _ d => d
              end inspired)
    as (result & db' & row & H1 & H2 & H3 & _ & H4 & H5 & H6 & H7 & _ & H9 & _).
  - reflexivity.
  - reflexivity.
  - discriminate.
  - exists result, db', row. repeat (split; [assumption|]). exact H9.
Defined.

(** C1 as stated fails: the duration is a difference of two readings of
    the wall clock.  When the clock is set back while the handler runs,
    the switch succeeds all the same and records a negative duration. *)
Lemma switchMode_success_counterexample :
  exists result db' row,
    switchMode backwardClock toDidactic emptyDb = Returned result db'
    /\ st_mode (res_mode result) = didactic
    /\ modeTransitionHistory db' = [row]
    /\ h_fromMode row = Some inspired
    /\ h_toMode row = didactic
    /\ h_success row = true
    /\ h_transitionDuration row = -1000
    /\ ~ 0 <= h_transitionDuration row.
Proof.
  eexists _, _, _. split; [vm_compute; reflexivity|].
  do 6 (split; [reflexivity|]). cbn [h_transitionDuration]. lia.
Qed.

Lemma switchMode_already_active_witness :
  exists db' row,
    switchMode sampleClock toInspired emptyDb
    = Thrown "Mode switch failed: Already in inspired mode. No switch needed." db'
    /\ modeTransitionHistory db' = [row]
    /\ h_toMode row = inspired
    /\ h_success row = false
    /\ h_fromMode row = None.
Proof.
  destruct (switchMode_already_active sampleClock toInspired emptyDb
              match ensureModesExist 1001 emptyDb with
              | Returned _ d => d
              | Thrown _ d => d
              end)
    as (db' & row & H1 & H2 & H3 & H4 & H5 & _).
  - reflexivity.
  - reflexivity.
  - exists db', row. repeat (split; [assumption|]). exact H5.
Defined.

End ModeHandlersFacts.

Section DispatchFacts.
Context {Msg World : Type}.
Import Dispatch.

Lemma run_handlers_invoked (hs : list (Handler Msg World)) m w id m' :
  In (Invoked id m') (run_handlers hs m w).2 -> m' = m.
Proof.
  revert w. induction hs as [|h hs IH]; intros w; cbn [run_handlers].
  - intros [].
  - destruct (handler_run h m w) as [w1 threw].
    specialize (IH w1). destruct (run_handlers hs m w1) as [w2 tr].
    cbn [snd]. intros [H|H]; [congruence|].
    apply in_app_or in H as [H|H]; [|by apply IH].
    destruct threw; cbn in H; [|done]. destruct H as [H|[]]. discriminate.
Qed.

Lemma dispatch_invoked (handlers : gmap string (list (Handler Msg World)))
    type m w id m' :
  In (Invoked id m') (dispatch handlers type m w).2 -> m' = m.
Proof.
  unfold dispatch. destruct (handlers !! type); [apply run_handlers_invoked|].
  intros [].
Qed.

(** Every registered handler of the type is invoked, whatever the others
    do. *)
Lemma run_handlers_all (hs : list (Handler Msg World)) m w h :
  In h hs -> In (Invoked (handler_id h) m) (run_handlers hs m w).2.
Proof.
  revert w. induction hs as [|h0 hs IH]; intros w; [intros []|].
  cbn [run_handlers]. destruct (handler_run h0 m w) as [w1 threw].
  specialize (IH w1). destruct (run_handlers hs m w1) as [w2 tr].
  cbn [snd]. intros [->|H]; [by left|].
  right. apply in_or_app. right. by apply IH.
Qed.
End DispatchFacts.

Section RedisBusFacts.
Import RedisBus.
Context {T World : Type}.
Variable JSON_parse : string -> option (DistributedEvent T).
Variable JSON_stringify : DistributedEvent T -> string.

Lemma self_origin_discarded (b : Bus T World) message channel w event :
  JSON_parse message = Some event ->
  instanceId event = getInstanceId b ->
  handleRedisMessage JSON_parse b message channel w = (w, []).
Proof.
  unfold handleRedisMessage, getInstanceId. intros -> Heq.
  by rewrite bool_decide_eq_true_2.
Qed.

Lemma invoked_is_foreign (b : Bus T World) message channel w id event :
  In (Dispatch.Invoked id event)
     (handleRedisMessage JSON_parse b message channel w).2 ->
  JSON_parse message = Some event /\ instanceId event <> getInstanceId b.
Proof.
  unfold handleRedisMessage, getInstanceId.
  destruct (JSON_parse message) as [e|]; [|intros []].
  case_bool_decide as Hself; [intros []|].
  intros Hin. apply dispatch_invoked in Hin. by subst.
Qed.

(** C3.  Self-origin filtering: if the event embedded in an inbound
    message carries the receiving client's own instance id, the state is
    untouched and no handler is invoked; and whenever a handler is
    invoked, it is on the very event of the message and that event's
    instance id differs from the receiver's. *)
Theorem handleRedisMessage_self_origin (b : Bus T World) message channel w :
  (forall event,
      JSON_parse message = Some event ->
      instanceId event = getInstanceId b ->
      handleRedisMessage JSON_parse b message channel w = (w, []))
  /\ (forall id event,
      In (Dispatch.Invoked id event)
         (handleRedisMessage JSON_parse b message channel w).2 ->
      JSON_parse message = Some event
      /\ instanceId event <> getInstanceId b).
Proof.
  split.
  - intros event. apply self_origin_discarded.
  - intros id event. apply invoked_is_foreign.
Qed.

(** An instance never reacts to what it published itself. *)
Lemma publish_not_delivered_to_self (b : Bus T World) uuid now type user
    payload' metadata' p channel w :
  (forall e, JSON_parse (JSON_stringify e) = Some e) ->
  publish JSON_stringify b uuid now true type user payload' metadata' = inr p ->
  handleRedisMessage JSON_parse b (pub_message p) channel w = (w, []).
Proof.
  intros Hrt. unfold publish. destruct (publisher b); [|discriminate].
  intros [= <-]. cbn [pub_message].
  by apply (self_origin_discarded b _ channel w _ (Hrt _)).
Qed.

(** An event of another instance reaches every handler registered for
    its type. *)
Lemma handleRedisMessage_delivers (b : Bus T World) message channel w event hs h :
  JSON_parse message = Some event ->
  instanceId event <> getInstanceId b ->
  handlers b !! eventType event = Some hs ->
  In h hs ->
  In (Dispatch.Invoked (Dispatch.handler_id h) event)
     (handleRedisMessage JSON_parse b message channel w).2.
Proof.
  intros Hp Hne Hhs Hin. unfold handleRedisMessage. rewrite Hp.
  rewrite bool_decide_eq_false_2 by done.
  unfold Dispatch.dispatch. rewrite Hhs. by apply run_handlers_all.
Qed.
End RedisBusFacts.

Section RedisBusSample.
Import RedisBus.

Lemma handleRedisMessage_self_origin_witness :
  handleRedisMessage busParse sampleBus "X" "dyad:event:mode:changed" 0%nat
  = (0%nat, [])
  /\ (handleRedisMessage busParse sampleBus "Y" "dyad:event:mode:changed" 0%nat).1
     = 1%nat.
Proof.
  split.
  - apply (proj1 (handleRedisMessage_self_origin busParse sampleBus "X"
                    "dyad:event:mode:changed" 0%nat)
             {| eventId := "e1"; eventType := "mode:changed"; userId := "u1";
                instanceId := "X"; timestamp := 0; payload := tt;
                metadata := None |}); reflexivity.
  - vm_compute. reflexivity.
Defined.
End RedisBusSample.

Section JsMapFacts.
Context {V : Type}.
Implicit Types (m : list (string * V)) (k : string) (v : V).
Import JsMap.

Lemma get_delete_eq k m : get k (delete k m) = None.
Proof.
  induction m as [|[k' v'] m IH]; [done|].
  unfold delete in *. cbn [List.filter fst]. case_bool_decide as E; cbn [negb].
  - exact IH.
  - cbn [get]. rewrite bool_decide_eq_false_2 by done. exact IH.
Qed.

Lemma get_delete_ne k k' m : k <> k' -> get k' (delete k m) = get k' m.
Proof.
  intros Hne. induction m as [|[k0 v0] m IH]; [done|].
  unfold delete in *. cbn [List.filter fst get].
  case_bool_decide as E; cbn [negb].
  - subst. rewrite bool_decide_eq_false_2 by done. exact IH.
  - cbn [get]. by rewrite IH.
Qed.

Lemma get_delete_None k k' m : get k' m = None -> get k' (delete k m) = None.
Proof.
  intros H. destruct (decide (k = k')) as [->|Hne].
  - apply get_delete_eq.
  - by rewrite get_delete_ne.
Qed.

Lemma get_set_eq k v m : get k (set k v m) = Some v.
Proof.
  induction m as [|[k' v'] m IH]; cbn [set get].
  - by rewrite bool_decide_eq_true_2.
  - case_bool_decide as E; cbn [get]; rewrite ?E.
    + subst. by rewrite bool_decide_eq_true_2.
    + rewrite bool_decide_eq_false_2 by done. exact IH.
Qed.

Lemma get_set_ne k k' v m : k <> k' -> get k' (set k v m) = get k' m.
Proof.
  intros Hne. induction m as [|[k0 v0] m IH]; cbn [set get].
  - by rewrite bool_decide_eq_false_2.
  - case_bool_decide as E; cbn [get].
    + subst. by rewrite bool_decide_eq_false_2.
    + by rewrite IH.
Qed.

Lemma get_In k v m : get k m = Some v -> In (k, v) m.
Proof.
  induction m as [|[k' v'] m IH]; [done|]. cbn [get].
  case_bool_decide as E.
  - intros [= ->]. subst. by left.
  - intros H. right. by apply IH.
Qed.

Lemma get_None_keys k m : get k m = None -> k ∉ m.*1.
Proof.
  induction m as [|[k' v'] m IH]; cbn [get].
  - intros _. apply not_elem_of_nil.
  - case_bool_decide as E; [done|]. intros H.
    rewrite fmap_cons. cbn [fst]. apply not_elem_of_cons. split; [congruence|by apply IH].
Qed.

Lemma keys_get_None k m : k ∉ m.*1 -> get k m = None.
Proof.
  induction m as [|[k' v'] m IH]; [done|].
  rewrite fmap_cons. cbn [fst get]. intros H. apply not_elem_of_cons in H as [H1 H2].
  rewrite bool_decide_eq_false_2 by congruence. by apply IH.
Qed.

Lemma wf_delete k m : wf m -> wf (delete k m).
Proof.
  unfold wf, delete. induction m as [|[k' v'] m IH]; [done|].
  rewrite fmap_cons. intros H. apply NoDup_cons in H as [H1 H2].
  cbn [List.filter fst]. case_bool_decide as E; cbn [negb]; [by apply IH|].
  rewrite fmap_cons. apply NoDup_cons. split; [|by apply IH].
  cbn [fst]. intros Hin. apply H1.
  apply list_elem_of_fmap in Hin as ([k0 v0] & -> & Hin).
  apply list_elem_of_fmap. exists (k0, v0). split; [done|].
  apply list_elem_of_In in Hin. apply List.filter_In in Hin as [Hin _].
  by apply list_elem_of_In.
Qed.

Lemma keys_set k v m : k ∈ m.*1 -> (set k v m).*1 = m.*1.
Proof.
  induction m as [|[k' v'] m IH]; [by intros ?%elem_of_nil|].
  cbn [set]. case_bool_decide as E; [done|].
  rewrite !fmap_cons. cbn [fst]. intros H. apply elem_of_cons in H as [H|H]; [congruence|].
  by rewrite IH.
Qed.

Lemma keys_set_new k v m : k ∉ m.*1 -> (set k v m).*1 = m.*1 ++ [k].
Proof.
  induction m as [|[k' v'] m IH]; [done|].
  rewrite fmap_cons. cbn [fst set]. intros H. apply not_elem_of_cons in H as [H1 H2].
  rewrite bool_decide_eq_false_2 by congruence.
  rewrite fmap_cons. cbn [fst]. by rewrite IH.
Qed.

Lemma wf_set k v m : wf m -> wf (set k v m).
Proof.
  unfold wf. intros H. destruct (decide (k ∈ m.*1)) as [Hin|Hout].
  - by rewrite keys_set.
  - rewrite keys_set_new by done. apply NoDup_app. split; [done|].
    split; [|apply NoDup_singleton].
    intros x Hx Hx'. apply list_elem_of_singleton in Hx'. by subst.
Qed.

(** In a well-formed map the entry of a key is the only one with it. *)
Lemma wf_existsb (P : V -> bool) k v m :
  wf m -> get k m = Some v ->
  existsb (fun e => bool_decide (e.1 = k) && P e.2) m = P v.
Proof.
  unfold wf. induction m as [|[k' v'] m IH]; [done|].
  rewrite fmap_cons. intros Hnd. apply NoDup_cons in Hnd as [H1 H2].
  cbn [get existsb fst snd]. case_bool_decide as E.
  - intros [= ->]. subst. cbn [andb].
    assert (existsb (fun e => bool_decide (e.1 = k) && P e.2) m = false) as ->.
    { apply not_true_is_false. intros Hex.
      apply List.existsb_exists in Hex as ([k0 v0] & Hin & Hb). cbn in Hb.
      apply andb_prop in Hb as [Hb _]. apply bool_decide_eq_true_1 in Hb. subst.
      apply H1. apply list_elem_of_fmap. exists (k, v0). split; [done|].
      by apply list_elem_of_In. }
    by rewrite orb_false_r.
  - intros H. cbn [andb orb]. by apply IH.
Qed.
End JsMapFacts.

Section ServerFacts.
Import WebSocketSync.
Context {World : Type}.
Variable JSON_parse : string -> option WSMessage.
Variable uuidv4 : nat -> string.
Implicit Types (s : Server World).

Lemma send_clients ref m s : clients (send ref m s) = clients s.
Proof. unfold send. destruct (heap s !! ref); [case_bool_decide|]; done. Qed.

Lemma send_heap ref m s : heap (send ref m s) = heap s.
Proof. unfold send. destruct (heap s !! ref); [case_bool_decide|]; done. Qed.

Lemma send_wss ref m s : wss (send ref m s) = wss s.
Proof. unfold send. destruct (heap s !! ref); [case_bool_decide|]; done. Qed.

Lemma send_wire_mono ref m s x : In x (wire s) -> In x (wire (send ref m s)).
Proof.
  unfold send. destruct (heap s !! ref); [case_bool_decide|]; try done.
  cbn. intros Hx. apply in_or_app. by left.
Qed.

Lemma send_srv_instanceId ref m s : srv_instanceId (send ref m s) = srv_instanceId s.
Proof. unfold send. destruct (heap s !! ref); [case_bool_decide|]; done. Qed.

(** *** One heartbeat pass *)

Lemma ping_loop_clients now entries s :
  clients (ping_loop uuidv4 now entries s)
  = fold_left (evict now) entries (clients s).
Proof.
  revert s. induction entries as [|[k c] entries IH]; intros s; [done|].
  cbn [ping_loop fold_left]. unfold evict at 2. cbn [fst snd].
  destruct (stale now c).
  - rewrite IH. done.
  - rewrite IH, send_clients. done.
Qed.

Lemma ping_loop_wire_mono now entries s x :
  In x (wire s) -> In x (wire (ping_loop uuidv4 now entries s)).
Proof.
  revert s. induction entries as [|[k c] entries IH]; intros s H; [done|].
  cbn [ping_loop]. destruct (stale now c); apply IH.
  - cbn. apply in_or_app. by left.
  - by apply send_wire_mono.
Qed.

Lemma ping_loop_closes now entries s k c :
  In (k, c) entries -> stale now c = true ->
  In (Closed (ws c)) (wire (ping_loop uuidv4 now entries s)).
Proof.
  revert s. induction entries as [|[k0 c0] entries IH]; intros s; [intros []|].
  intros [[= -> ->]|Hin] Hst; cbn [ping_loop].
  - rewrite Hst. apply ping_loop_wire_mono. cbn. apply in_or_app. right. by left.
  - destruct (stale now c0); by apply IH.
Qed.

Lemma get_fold_evict now entries (m : list (string * WSClientInfo)) k :
  JsMap.get k (fold_left (evict now) entries m)
  = if existsb (fun e => bool_decide (e.1 = k) && stale now e.2) entries
    then None else JsMap.get k m.
Proof.
  revert m. induction entries as [|[k0 c0] entries IH]; intros m; [done|].
  cbn [fold_left existsb fst snd]. rewrite IH. unfold evict. cbn [fst snd].
  destruct (existsb _ entries) eqn:Ex.
  - by rewrite orb_true_r.
  - rewrite orb_false_r. case_bool_decide as E; cbn [andb].
    + subst. destruct (stale now c0); [apply get_delete_eq|done].
    + destruct (stale now c0); [by apply get_delete_ne|done].
Qed.

Lemma wf_fold_evict now entries (m : list (string * WSClientInfo)) :
  JsMap.wf m -> JsMap.wf (fold_left (evict now) entries m).
Proof.
  revert m. induction entries as [|e entries IH]; intros m H; [done|].
  cbn [fold_left]. apply IH. unfold evict. destruct (stale now e.2); [|done].
  by apply wf_delete.
Qed.

Lemma pingClients_get now s k c :
  JsMap.wf (clients s) -> JsMap.get k (clients s) = Some c ->
  JsMap.get k (clients (pingClients uuidv4 now s))
  = if stale now c then None else Some c.
Proof.
  intros Hwf Hget. unfold pingClients.
  rewrite ping_loop_clients, get_fold_evict.
  rewrite (wf_existsb (stale now) k c) by done. by rewrite Hget.
Qed.

Lemma pingClients_wf now s :
  JsMap.wf (clients s) -> JsMap.wf (clients (pingClients uuidv4 now s)).
Proof. intros H. unfold pingClients. rewrite ping_loop_clients. by apply wf_fold_evict. Qed.

Lemma stale_spec now c : stale now c = true <-> now - lastPing c > 90000.
Proof. unfold stale, staleAfter. rewrite Z.ltb_lt. lia. Qed.

End ServerFacts.

Section ServerRuns.
Import WebSocketSync.
Context {World : Type}.
Variable JSON_parse : string -> option WSMessage.
Variable uuidv4 : nat -> string.
Implicit Types (s : Server World).

Lemma send_all_clients targets m s : clients (send_all targets m s) = clients s.
Proof.
  revert s. induction targets as [|r targets IH]; intros s; [done|].
  cbn [send_all]. by rewrite IH, send_clients.
Qed.

Lemma send_all_heap targets m s : heap (send_all targets m s) = heap s.
Proof.
  revert s. induction targets as [|r targets IH]; intros s; [done|].
  cbn [send_all]. by rewrite IH, send_heap.
Qed.

Lemma has_false_get k (m : list (string * WSClientInfo)) :
  JsMap.has k m = false -> JsMap.get k m = None.
Proof. unfold JsMap.has. by destruct (JsMap.get k m). Qed.

Lemma register_get cid msg now s k c :
  JsMap.get k (clients s) = Some c ->
  JsMap.get k (clients (register cid msg now s)) = Some c.
Proof.
  intros Hget. unfold register.
  destruct (JsMap.has cid (clients s)) eqn:Hhas; cbn [negb andb]; [done|].
  destruct (truthy (userId msg)); [|done].
  apply has_false_get in Hhas. rewrite Hhas.
  destruct (find_socket cid s); [|done].
  cbn [with_clients clients]. rewrite get_set_ne; [done|congruence].
Qed.

Lemma register_wf cid msg now s :
  JsMap.wf (clients s) -> JsMap.wf (clients (register cid msg now s)).
Proof.
  intros Hwf. unfold register.
  destruct (negb _ && _); [|done].
  destruct (JsMap.get cid (clients s)); [by apply wf_set|].
  destruct (find_socket cid s); [by apply wf_set|done].
Qed.

Lemma register_present cid msg now s :
  JsMap.has cid (clients s) = true -> register cid msg now s = s.
Proof. intros H. unfold register. by rewrite H. Qed.

(** The ping branch refreshes [lastPing] of the sender and of nobody
    else; no other message touches an entry that is there. *)
Lemma handleMessage_get cid data now s w k c :
  JsMap.get k (clients s) = Some c ->
  JsMap.get k (clients (handleMessage JSON_parse cid data now s w).1.1)
  = Some match JSON_parse data with
         | Some m =>
             if bool_decide (cid = k) && bool_decide (type m = "ping")
             then refreshed now c else c
         | None => c
         end.
Proof.
  intros Hget. unfold handleMessage.
  destruct (JSON_parse data) as [m|]; [|done].
  pose proof (register_get cid m now s k c Hget) as Hreg.
  destruct (bool_decide (type m = "ping")) eqn:Hping.
  - destruct (decide (cid = k)) as [->|Hne].
    + rewrite bool_decide_eq_true_2 by done. cbn [andb].
      rewrite Hreg. cbn [fst]. rewrite send_clients. cbn [with_clients clients].
      by rewrite get_set_eq.
    + rewrite bool_decide_eq_false_2 by done. cbn [andb].
      destruct (JsMap.get cid (clients (register cid m now s))); [|done].
      cbn [fst]. rewrite send_clients. cbn [with_clients clients].
      by rewrite get_set_ne.
  - rewrite andb_false_r.
    destruct (Dispatch.dispatch _ _ _ _). done.
Qed.

Lemma handleMessage_wf cid data now s w :
  JsMap.wf (clients s) ->
  JsMap.wf (clients (handleMessage JSON_parse cid data now s w).1.1).
Proof.
  intros Hwf. unfold handleMessage.
  destruct (JSON_parse data) as [m|]; [|done].
  pose proof (register_wf cid m now s Hwf) as Hreg.
  destruct (bool_decide (type m = "ping")).
  - destruct (JsMap.get cid (clients (register cid m now s))); [|done].
    cbn [fst]. rewrite send_clients. by apply wf_set.
  - destruct (Dispatch.dispatch _ _ _ _). done.
Qed.

Lemma step_wf s e :
  JsMap.wf (clients s) -> JsMap.wf (clients (step JSON_parse uuidv4 s e)).
Proof.
  intros Hwf. destruct e; cbn [step].
  - unfold start. by destruct (wss s).
  - unfold handleConnection. cbn [snd]. by rewrite send_clients.
  - by apply handleMessage_wf.
  - unfold socket_closed, handleDisconnect. by apply wf_delete.
  - by apply pingClients_wf.
  - unfold broadcast. by rewrite send_all_clients.
  - unfold broadcastToUser. by rewrite send_all_clients.
  - done.
  - done.
  - unfold stop. cbn. destruct (wss s); [|done].
    destruct closeOk; cbn; apply NoDup_nil_2.
Qed.

(** Over a whole schedule: a client that stays fresh in the sense of
    [kept_fresh] is still registered at the end. *)
Lemma kept_fresh_never_evicted steps s k c :
  JsMap.wf (clients s) ->
  JsMap.get k (clients s) = Some c ->
  kept_fresh JSON_parse k (lastPing c) steps ->
  exists c', JsMap.get k (clients (fold_left (step JSON_parse uuidv4) steps s))
             = Some c'.
Proof.
  revert s c. induction steps as [|e steps IH]; intros s c Hwf Hget Hfresh.
  - by exists c.
  - cbn [fold_left]. pose proof (step_wf s e Hwf) as Hwf'.
    destruct e; cbn [kept_fresh] in Hfresh.
    + apply (IH _ c); [done| |done]. cbn [step]. unfold start. by destruct (wss s).
    + apply (IH _ c); [done| |done]. cbn [step]. unfold handleConnection.
      cbn [snd]. by rewrite send_clients.
    + pose proof (handleMessage_get clientId data now s w k c Hget) as Hm.
      cbn [step] in *. destruct (JSON_parse data) as [m|].
      * destruct (bool_decide (clientId = k) && bool_decide (type m = "ping")).
        -- by apply (IH _ (refreshed now c)).
        -- by apply (IH _ c).
      * by apply (IH _ c).
    + destruct Hfresh as [Hne Hfresh]. apply (IH _ c); [done| |done].
      cbn [step]. unfold socket_closed, handleDisconnect. cbn [with_clients clients].
      by rewrite get_delete_ne.
    + destruct Hfresh as [Hle Hfresh]. apply (IH _ c); [done| |done].
      cbn [step]. rewrite (pingClients_get uuidv4 now s k c) by done.
      assert (stale now c = false) as ->; [|done].
      unfold stale, staleAfter in *. apply Z.ltb_ge. lia.
    + apply (IH _ c); [done| |done]. cbn [step]. unfold broadcast.
      by rewrite send_all_clients.
    + apply (IH _ c); [done| |done]. cbn [step]. unfold broadcastToUser.
      by rewrite send_all_clients.
    + by apply (IH _ c).
    + by apply (IH _ c).
    + destruct Hfresh.
Qed.

(** C4.  For every tracked client: a heartbeat tick at which more than
    90 seconds have passed since its [lastPing] closes its socket and
    removes it from the registry during that tick; a tick at which at most
    90 seconds have passed leaves its entry as it is; and over any
    schedule in which every tick comes at most 90 seconds after the
    client's latest ping, no tick ever evicts it. *)
Theorem heartbeat_eviction now s k c :
  JsMap.wf (clients s) ->
  JsMap.get k (clients s) = Some c ->
  (now - lastPing c > 90000 ->
     JsMap.get k (clients (pingClients uuidv4 now s)) = None
     /\ In (Closed (ws c)) (wire (pingClients uuidv4 now s)))
  /\ (now - lastPing c <= 90000 ->
        JsMap.get k (clients (pingClients uuidv4 now s)) = Some c)
  /\ (forall steps,
        kept_fresh JSON_parse k (lastPing c) steps ->
        exists c', JsMap.get k (clients (fold_left (step JSON_parse uuidv4) steps s))
                   = Some c').
Proof.
  intros Hwf Hget. rewrite (pingClients_get uuidv4 now s k c) by done.
  split; [|split].
  - intros Hst. apply stale_spec in Hst. rewrite Hst. split; [done|].
    unfold pingClients. apply (ping_loop_closes uuidv4 now _ s k c); [|done].
    by apply get_In.
  - intros Hle. assert (stale now c = false) as ->; [|done].
    unfold stale, staleAfter. apply Z.ltb_ge. lia.
  - intros steps Hf. by apply (kept_fresh_never_evicted steps s k c).
Qed.
End ServerRuns.

Section RegistryFacts.
Import WebSocketSync.
Context {World : Type}.
Variable JSON_parse : string -> option WSMessage.
Variable uuidv4 : nat -> string.
Implicit Types (s : Server World).

Lemma find_socket_untagged cid s : untagged s -> find_socket cid s = None.
Proof.
  intros Hu. unfold find_socket.
  induction (default [] (wss s)) as [|ref refs IH]; [done|].
  cbn [List.find]. destruct (heap s !! ref) as [sock|] eqn:E; [|exact IH].
  rewrite (Hu _ _ E). rewrite bool_decide_eq_false_2 by done. exact IH.
Qed.

Lemma register_empty cid msg now s :
  registry_empty s -> register cid msg now s = s.
Proof.
  intros [Hc Hu]. unfold register. rewrite Hc. cbn [JsMap.has JsMap.get negb andb].
  destruct (truthy (userId msg)); [|done].
  by rewrite find_socket_untagged.
Qed.

Lemma handleMessage_empty cid data now s w :
  registry_empty s -> (handleMessage JSON_parse cid data now s w).1.1 = s.
Proof.
  intros Hinv. unfold handleMessage.
  destruct (JSON_parse data) as [m|]; [|done].
  rewrite register_empty by done. destruct Hinv as [Hc _]. rewrite Hc.
  cbn [JsMap.get]. case_bool_decide; [done|].
  by destruct (Dispatch.dispatch _ _ _ _).
Qed.

Lemma step_registry_empty s e :
  registry_empty s -> registry_empty (step JSON_parse uuidv4 s e).
Proof.
  intros Hinv. pose proof Hinv as [Hc Hu]. destruct e; cbn [step].
  - unfold start. destruct (wss s); exact Hinv.
  - unfold handleConnection. cbn [snd]. split.
    + by rewrite send_clients.
    + intros r sock. rewrite send_heap. cbn [with_drawn accept heap].
      rewrite lookup_insert. case_decide as E.
      * by intros [= <-].
      * apply Hu.
  - by rewrite handleMessage_empty.
  - unfold socket_closed, handleDisconnect. split.
    + cbn [with_clients clients]. by rewrite Hc.
    + intros r sock. cbn [with_clients heap]. rewrite lookup_alter.
      case_decide as E.
      * subst. destruct (heap s !! r) as [sock0|] eqn:E0; [|done].
        cbn. intros [= <-]. cbn. by apply (Hu r).
      * apply Hu.
  - unfold pingClients. rewrite Hc. cbn [ping_loop]. exact Hinv.
  - unfold broadcast. split.
    + by rewrite send_all_clients.
    + intros r sock. rewrite send_all_heap. apply Hu.
  - unfold broadcastToUser. split.
    + by rewrite send_all_clients.
    + intros r sock. rewrite send_all_heap. apply Hu.
  - exact Hinv.
  - exact Hinv.
  - unfold stop. cbn [wss clients]. rewrite Hc. cbn [List.map close_all].
    destruct (wss s); [destruct closeOk|]; (split; [reflexivity|exact Hu]).
Qed.

Lemma run_registry_empty steps s :
  registry_empty s ->
  registry_empty (fold_left (step JSON_parse uuidv4) steps s).
Proof.
  revert s. induction steps as [|e steps IH]; intros s H; [done|].
  cbn [fold_left]. by apply IH, step_registry_empty.
Qed.

(** C5.  In every state the server can reach from its construction the
    registry is empty: accepting a connection adds no entry, no inbound
    message adds one, [getClientCount] is 0, and [broadcast] and
    [broadcastToUser] send nothing. *)
Theorem registry_always_empty (steps : list (Step World)) :
  let s := run JSON_parse uuidv4 steps in
  clients s = []
  /\ getClientCount s = 0%nat
  /\ (forall ref now, clients (handleConnection uuidv4 ref now (accept ref s)).2 = [])
  /\ (forall cid data now w,
        clients (handleMessage JSON_parse cid data now s w).1.1 = [])
  /\ (forall t u ts p ex, wire (broadcast uuidv4 t u ts p ex s) = wire s)
  /\ (forall tg t u ts p, wire (broadcastToUser uuidv4 tg t u ts p s) = wire s).
Proof.
  intros s.
  assert (registry_empty s) as Hinv.
  { apply run_registry_empty. split; [done|]. intros r sock. cbn.
    by rewrite lookup_empty. }
  pose proof Hinv as [Hc Hu]. split; [done|]. split; [unfold getClientCount; by rewrite Hc|].
  split; [|split; [|split]].
  - intros ref now. apply (step_registry_empty s (DoConnection ref now) Hinv).
  - intros cid data now w. by rewrite handleMessage_empty.
  - intros. unfold broadcast. by rewrite Hc.
  - intros. unfold broadcastToUser. by rewrite Hc.
Qed.
End RegistryFacts.

Section ServerSample.
Import WebSocketSync.

Lemma heartbeat_eviction_witness :
  JsMap.get "c1" (clients (pingClients sampleUuid 91001 sampleServer)) = None
  /\ In (Closed 1) (wire (pingClients sampleUuid 91001 sampleServer))
  /\ JsMap.get "c1" (clients (pingClients sampleUuid 91000 sampleServer))
     = Some sampleClient
  /\ exists c',
       JsMap.get "c1"
         (clients (fold_left (step wsParse sampleUuid)
                     [DoTick 60000; DoMessage "c1" "ping" 80000 tt;
                      DoTick 90000; DoTick 170000] sampleServer))
       = Some c'.
Proof.
  assert (JsMap.wf (clients sampleServer)) as Hwf by apply NoDup_singleton.
  assert (JsMap.get "c1" (clients sampleServer) = Some sampleClient) as Hget
    by reflexivity.
  destruct (heartbeat_eviction wsParse sampleUuid 91001 sampleServer "c1"
              sampleClient Hwf Hget) as (Hstale & _ & _).
  destruct (heartbeat_eviction wsParse sampleUuid 91000 sampleServer "c1"
              sampleClient Hwf Hget) as (_ & Hfresh & Hrun).
  destruct Hstale as [H1 H2]; [simpl; lia|].
  split; [exact H1|]. split; [exact H2|]. split; [apply Hfresh; simpl; lia|].
  apply Hrun. simpl. unfold staleAfter. repeat split; lia.
Defined.
End ServerSample.

Section ClientFacts.
Import WebSocketSync WebSocketSyncClient.

Lemma handleDisconnect_schedules c :
  url_truthy (url c) = true ->
  reconnectAttempts c < maxReconnectAttempts ->
  handleDisconnect c
  = ({| c_ws := None; url := url c;
        reconnectTimeout := Some (backoff (reconnectAttempts c + 1));
        reconnectAttempts := reconnectAttempts c + 1 |},
     Some (backoff (reconnectAttempts c + 1))).
Proof.
  intros Hu Hlt. unfold handleDisconnect. rewrite Hu.
  apply Z.ltb_lt in Hlt. by rewrite Hlt.
Qed.

Lemma handleDisconnect_gives_up c :
  maxReconnectAttempts <= reconnectAttempts c ->
  handleDisconnect c
  = ({| c_ws := None; url := url c; reconnectTimeout := reconnectTimeout c;
        reconnectAttempts := reconnectAttempts c |}, None).
Proof.
  intros Hge. unfold handleDisconnect.
  apply Z.ltb_ge in Hge. rewrite Hge. by rewrite andb_false_r.
Qed.

(** The delays of [k] failed reconnections in a row. *)
Lemma failures_delays k c :
  url_truthy (url c) = true ->
  0 <= reconnectAttempts c ->
  (failures k c).2
  = List.map (fun i => backoff (reconnectAttempts c + Z.of_nat i))
      (seq 1 (Nat.min k (Z.to_nat (maxReconnectAttempts - reconnectAttempts c)))).
Proof.
  revert c. induction k as [|k IH]; intros c Hu Hn; [done|].
  cbn [failures].
  destruct (Z.lt_ge_cases (reconnectAttempts c) maxReconnectAttempts) as [Hlt|Hge].
  - rewrite handleDisconnect_schedules by done.
    unfold onTimer. cbn [url].
    destruct (url c) as [u|] eqn:Eu; [|discriminate].
    unfold connect. cbn [c_ws url reconnectTimeout reconnectAttempts].
    match goal with |- context [failures k ?c1] =>
      specialize (IH c1); destruct (failures k c1) as [c2 delays] end.
    cbn [snd url reconnectAttempts] in *. rewrite IH by (done || lia).
    replace (Z.to_nat (maxReconnectAttempts - reconnectAttempts c))
      with (S (Z.to_nat (maxReconnectAttempts - (reconnectAttempts c + 1)))) by lia.
    cbn [Nat.min seq List.map]. f_equal.
    rewrite <- (seq_shift _ 1), List.map_map. apply List.map_ext. intros i. f_equal. lia.
  - rewrite handleDisconnect_gives_up by done. cbn [snd].
    replace (Z.to_nat (maxReconnectAttempts - reconnectAttempts c)) with 0%nat by lia.
    by rewrite Nat.min_0_r.
Qed.

(** C6.  For a client with a usable url whose attempt counter is
    [n - 1], [1 <= n <= 10], the close listener arms a timer of
    [min(1000 * 2^n, 30000)] ms and the counter becomes [n]; attempts 1
    to 5 give 2000, 4000, 8000, 16000, 30000; with the counter at 10
    nothing is armed, however often the connection closes again; a run of
    failures from counter 0 arms exactly the first ten delays; and an
    explicit [connect] that opens resets the counter. *)
Theorem reconnect_backoff c n :
  url_truthy (url c) = true ->
  1 <= n <= 10 ->
  reconnectAttempts c = n - 1 ->
  (handleDisconnect c).2 = Some (Z.min (1000 * 2 ^ n) 30000)
  /\ reconnectAttempts (handleDisconnect c).1 = n
  /\ List.map backoff [1; 2; 3; 4; 5] = [2000; 4000; 8000; 16000; 30000]
  /\ (forall c', reconnectAttempts c' = 10 ->
        (handleDisconnect c').2 = None
        /\ reconnectAttempts (handleDisconnect c').1 = 10
        /\ forall k, (failures k c').2 = [])
  /\ (forall c' k, url c' = url c -> reconnectAttempts c' = 0 ->
        (failures k c').2
        = List.map (fun i => Z.min (1000 * 2 ^ Z.of_nat i) 30000)
            (seq 1 (Nat.min k 10)))
  /\ (forall c' u, c_ws c' = None -> reconnectAttempts c' = 10 ->
        reconnectAttempts (onOpen (connect u c')) = 0).
Proof.
  intros Hu Hn Hatt. split; [|split; [|split; [|split; [|split]]]].
  - rewrite handleDisconnect_schedules by (done || unfold maxReconnectAttempts; lia).
    cbn [snd]. unfold backoff. replace (reconnectAttempts c + 1) with n by lia. reflexivity.
  - rewrite handleDisconnect_schedules by (done || unfold maxReconnectAttempts; lia).
    cbn. lia.
  - reflexivity.
  - intros c' H10. rewrite handleDisconnect_gives_up
      by (unfold maxReconnectAttempts; lia).
    split; [done|]. split; [done|]. intros [|k]; [done|].
    cbn [failures]. rewrite handleDisconnect_gives_up
      by (unfold maxReconnectAttempts; lia). done.
  - intros c' k Hurl H0. rewrite failures_delays by (rewrite ?Hurl; done || lia).
    rewrite H0. done.
  - intros c' u Hws H10. unfold connect. by rewrite Hws.
Qed.

Lemma reconnect_backoff_witness :
  (handleDisconnect sampleClientState).2 = Some 30000
  /\ (failures 12 (onOpen sampleClientState)).2
     = [2000; 4000; 8000; 16000; 30000; 30000; 30000; 30000; 30000; 30000].
Proof.
  destruct (reconnect_backoff sampleClientState 5) as (H1 & _ & _ & _ & H5 & _).
  - reflexivity.
  - lia.
  - reflexivity.
  - split; [exact H1|]. apply (H5 (onOpen sampleClientState) 12%nat); reflexivity.
Defined.
End ClientFacts.

Section StatusFacts.
Import Mongo DistributedMemory.
Context {T World : Type}.
Implicit Types (m : Manager World) (bus : RedisBus.Bus T World).




End StatusFacts.

Section StatusSample.
Import Mongo DistributedMemory.

End StatusSample.

Section SyncVersionFacts.
Import Mongo DistributedMemory.

Lemma field_set_field_eq k v d : field k (set_field k v d) = Some v.
Proof.
  induction d as [|[k' v'] d IH]; cbn [set_field field].
  - by rewrite bool_decide_eq_true_2.
  - case_bool_decide as E; cbn [field].
    + by rewrite bool_decide_eq_true_2.
    + by rewrite bool_decide_eq_false_2.
Qed.

Lemma field_set_field_ne k k' v d :
  k <> k' -> field k' (set_field k v d) = field k' d.
Proof.
  intros Hne. induction d as [|[k0 v0] d IH]; cbn [set_field field].
  - by rewrite bool_decide_eq_false_2.
  - case_bool_decide as E; cbn [field].
    + subst. by rewrite !bool_decide_eq_false_2.
    + by rewrite IH.
Qed.

(** What the [$set] of [syncModeStateToMongoDB] leaves in a record. *)
Lemma modeState_set_fields payload now d :
  let d' := apply_set (modeState_set payload now) d in
  field "syncVersion" d' = Some (BDoc [("$inc", BInt 1)])
  /\ field "currentMode" d' = Some (prop "toMode" payload)
  /\ field "userId" d' = field "userId" d
  /\ field "instanceId" d' = field "instanceId" d.
Proof.
  cbn [apply_set modeState_set fold_left fst snd].
  repeat split;
    repeat first [ rewrite field_set_field_eq | rewrite field_set_field_ne by done ];
    reflexivity.
Qed.

Lemma matches_idFilter user inst d :
  matches (idFilter user inst) d
  = bson_eqb (default BNull (field "userId" d)) (BStr user)
    && bson_eqb (default BNull (field "instanceId" d)) (BStr inst).
Proof. cbn. by rewrite andb_true_r. Qed.

Lemma matches_after_set user inst payload now d :
  matches (idFilter user inst) (apply_set (modeState_set payload now) d)
  = matches (idFilter user inst) d.
Proof.
  rewrite !matches_idFilter.
  destruct (modeState_set_fields payload now d) as (_ & _ & -> & ->). done.
Qed.

Lemma find_update_first user inst payload now c c' :
  update_first (idFilter user inst) (modeState_set payload now) c = Some c' ->
  exists d, List.find (matches (idFilter user inst)) c = Some d
            /\ List.find (matches (idFilter user inst)) c'
               = Some (apply_set (modeState_set payload now) d).
Proof.
  revert c'. induction c as [|d c IH]; intros c'; [done|].
  cbn [update_first List.find].
  destruct (matches (idFilter user inst) d) eqn:E.
  - intros Heq. apply (inj Some) in Heq. subst c'.
    exists d. split; [done|]. cbn [List.find].
    by rewrite matches_after_set, E.
  - destruct (update_first _ _ c) as [c0|]; [|done].
    intros Heq. apply (inj Some) in Heq. subst c'.
    destruct (IH c0 eq_refl) as (d0 & H1 & H2).
    exists d0. split; [done|]. cbn [List.find]. by rewrite E.
Qed.

Lemma update_first_None user inst sets c :
  update_first (idFilter user inst) sets c = None ->
  List.find (matches (idFilter user inst)) c = None.
Proof.
  induction c as [|d c IH]; [done|]. cbn [update_first List.find].
  destruct (matches (idFilter user inst) d); [done|].
  destruct (update_first _ _ c); [done|]. auto.
Qed.

Lemma find_app_None {A} (f : A -> bool) l x :
  List.find f l = None -> List.find f (l ++ [x]) = if f x then Some x else None.
Proof.
  induction l as [|y l IH]; [done|]. cbn [List.find app].
  destruct (f y); [done|]. exact IH.
Qed.

Lemma modeState_set_dollar payload now :
  existsb (fun kv => has_dollar_field kv.2) (modeState_set payload now) = true.
Proof.
  unfold modeState_set. cbn [existsb snd].
  assert (has_dollar_field (BDoc [("$inc", BInt 1)]) = true) as -> by reflexivity.
  by rewrite !orb_true_r.
Qed.

(** On a server that stores [$]-prefixed names, every successful sync
    leaves the literal document [{$inc: 1}] in [syncVersion]; on a
    server that refuses them, the sync changes nothing at all. *)
Lemma sync_never_increments (event : RedisBus.DistributedEvent document) now mongo :
  isConnected mongo = true ->
  (exists d,
      modeStateOf (RedisBus.userId event) (RedisBus.instanceId event)
        (onModeChanged true event now mongo) = Some d
      /\ field "syncVersion" d = Some (BDoc [("$inc", BInt 1)]))
  /\ onModeChanged false event now mongo = mongo.
Proof.
  intros Hconn. unfold onModeChanged. rewrite Hconn. split.
  - unfold syncModeStateToMongoDB, getModeStateCollection, isConnected in *.
    destruct (client mongo); [|done]. destruct (db mongo) as [d0|]; [|done].
    unfold updateOne_set_upsert. cbn [negb andb].
    fold (idFilter (RedisBus.userId event) (RedisBus.instanceId event)).
    destruct (update_first _ _ (mode_state d0)) as [c'|] eqn:E.
    + apply find_update_first in E as (d & _ & Hf).
      eexists. unfold modeStateOf. cbn [with_mode_state db mode_state].
      fold (idFilter (RedisBus.userId event) (RedisBus.instanceId event)).
      split; [exact Hf|]. apply modeState_set_fields.
    + apply update_first_None in E.
      eexists. unfold modeStateOf. cbn [with_mode_state db mode_state].
      fold (idFilter (RedisBus.userId event) (RedisBus.instanceId event)).
      rewrite find_app_None by done. rewrite matches_after_set.
      split; [|apply modeState_set_fields].
      assert (matches (idFilter (RedisBus.userId event) (RedisBus.instanceId event))
                (idFilter (RedisBus.userId event) (RedisBus.instanceId event)) = true)
        as ->; [|done].
      rewrite matches_idFilter. unfold idFilter. cbn [field].
      rewrite (bool_decide_eq_true_2 ("userId" = "userId")) by done.
      rewrite (bool_decide_eq_false_2 ("userId" = "instanceId")) by done.
      rewrite (bool_decide_eq_true_2 ("instanceId" = "instanceId")) by done.
      cbn [default id bson_eqb]. by rewrite !bool_decide_eq_true_2.
  - unfold syncModeStateToMongoDB.
    destruct (getModeStateCollection mongo); [done|].
    unfold updateOne_set_upsert. by rewrite modeState_set_dollar.
Qed.

(** C8.  The code at the failing input: a store that holds the record of
    (u1, B) with [syncVersion = 3] receives the [mode:changed] event of
    instance B.  On a server that stores dollar-prefixed names the record
    ends with the embedded document [{$inc: 1}] in [syncVersion], which
    is not an integer; on a server that refuses them the write is
    rejected and the record stays as it was, mode included.  The counter
    is incremented in neither case. *)
Theorem syncVersion_not_incremented :
  (modeStateOf "u1" "B" (onModeChanged true sampleModeChanged 10 sampleStore)
   = Some [ ("userId", BStr "u1"); ("instanceId", BStr "B");
            ("currentMode", BStr "didactic"); ("previousMode", BStr "inspired");
            ("updatedAt", BDate 10);
            ("syncVersion", BDoc [("$inc", BInt 1)]) ])
  /\ is_integer (BDoc [("$inc", BInt 1)]) = false
  /\ onModeChanged false sampleModeChanged 10 sampleStore = sampleStore.
Proof. split; [|split]; vm_compute; reflexivity. Qed.
End SyncVersionFacts.

Section MultiMcpFacts.
Import MultiMcp.
Context {Value : Type}.
Implicit Types (c : Coordinator Value) (e : McpToolExecution Value)
  (l : list (McpToolExecution Value)).

Lemma tail_skipn l : tail l = skipn 1 l.
Proof. by destruct l. Qed.

Lemma addToHistory_history e c :
  executionHistory (addToHistory e c)
  = if (100 <=? List.length (executionHistory c))%nat
    then tail (executionHistory c ++ [e])
    else executionHistory c ++ [e].
Proof.
  unfold addToHistory, maxHistorySize. rewrite length_app. cbn [List.length].
  destruct (100 <=? List.length (executionHistory c))%nat eqn:E.
  - apply Nat.leb_le in E.
    assert ((100 <? List.length (executionHistory c) + 1)%nat = true) as ->; [|done].
    apply Nat.ltb_lt. lia.
  - apply Nat.leb_gt in E.
    assert ((100 <? List.length (executionHistory c) + 1)%nat = false) as ->; [|done].
    apply Nat.ltb_ge. lia.
Qed.

Lemma addToHistory_length e c :
  (List.length (executionHistory c) <= 100)%nat ->
  List.length (executionHistory (addToHistory e c))
  = Nat.min 100 (S (List.length (executionHistory c))).
Proof.
  intros Hle. rewrite addToHistory_history.
  destruct (100 <=? List.length (executionHistory c))%nat eqn:E.
  - apply Nat.leb_le in E. rewrite tail_skipn, length_skipn, length_app. cbn [List.length]. lia.
  - apply Nat.leb_gt in E. rewrite length_app. cbn [List.length]. lia.
Qed.

Lemma addToHistory_most_recent e c l :
  executionHistory c = most_recent 100 l ->
  executionHistory (addToHistory e c) = most_recent 100 (l ++ [e]).
Proof.
  intros Hc. rewrite addToHistory_history, Hc. unfold most_recent.
  rewrite length_skipn, length_app. cbn [List.length].
  destruct (100 <=? List.length l - (List.length l - 100))%nat eqn:E.
  - apply Nat.leb_le in E.
    rewrite tail_skipn.
    rewrite <- (drop_app_le l [e]) by lia.
    rewrite drop_drop. f_equal. lia.
  - apply Nat.leb_gt in E.
    replace (List.length l - 100)%nat with 0%nat by lia.
    replace (List.length l + 1 - 100)%nat with 0%nat by lia. done.
Qed.

Lemma most_recent_length n l : (List.length (most_recent n l) <= n)%nat.
Proof. unfold most_recent. rewrite length_skipn. lia. Qed.

Lemma run_most_recent ops c l :
  executionHistory c = most_recent 100 l ->
  executionHistory (fold_left apply ops c)
  = most_recent 100
      (fold_left (fun acc o => match o with
                               | Clear => []
                               | Execute _ _ _ _ _ _ _ _ => acc ++ entryOf o
                               end) ops l).
Proof.
  revert c l. induction ops as [|o ops IH]; intros c l Hc; [done|].
  cbn [fold_left]. apply IH. destruct o.
  - cbn [apply executeTool entryOf]. destruct call; cbn [snd];
      by apply addToHistory_most_recent.
  - reflexivity.
Qed.

(** C10.  After any sequence of [executeTool] and [clearHistory] calls the
    log holds at most 100 entries, and they are the most recent ones
    logged since the last clearing; each [executeTool] appends exactly its
    one entry at the end, dropping the oldest entry when the log was
    full. *)
Theorem executionHistory_bounded (ops : list (Op Value)) :
  (List.length (executionHistory (run ops)) <= 100)%nat
  /\ executionHistory (run ops) = most_recent 100 (logged ops)
  /\ (forall servers call t0 t1 t2 sid tool inp,
        let c := run ops in
        let c' := (executeTool servers call t0 t1 t2 sid tool inp c).2 in
        let e := entryOf (Execute servers call t0 t1 t2 sid tool inp) in
        executionHistory c'
        = (if (List.length (executionHistory c) <? 100)%nat
           then executionHistory c
           else tail (executionHistory c)) ++ e
        /\ (List.length (executionHistory c') <= 100)%nat).
Proof.
  assert (executionHistory (run ops) = most_recent 100 (logged ops)) as Hrun.
  { unfold run, logged. by apply run_most_recent. }
  assert (List.length (executionHistory (run ops)) <= 100)%nat as Hlen.
  { rewrite Hrun. apply most_recent_length. }
  split; [exact Hlen|]. split; [exact Hrun|].
  intros servers call t0 t1 t2 sid tool inp c c' e. subst c c' e.
  split.
  - destruct call; cbn [executeTool entryOf snd];
      rewrite addToHistory_history;
      (destruct (100 <=? List.length (executionHistory (run ops)))%nat eqn:E;
       [ apply Nat.leb_le in E;
         assert ((List.length (executionHistory (run ops)) <? 100)%nat = false) as ->
           by (apply Nat.ltb_ge; lia);
         destruct (executionHistory (run ops)); [cbn in E; lia|done]
       | apply Nat.leb_gt in E;
         assert ((List.length (executionHistory (run ops)) <? 100)%nat = true) as ->
           by (apply Nat.ltb_lt; lia); done ]).
  - destruct call; cbn [executeTool snd];
      rewrite addToHistory_length by done; lia.
Qed.
End MultiMcpFacts.

(** Case analysis on the comparisons of code units in the goal and the
    hypotheses, closed by linear arithmetic. *)
Ltac char_cases :=
  repeat match goal with
    | |- context [(?a =? ?b)%N] => destruct (N.eqb_spec a b)
    | |- context [(?a <=? ?b)%N] => destruct (N.leb_spec a b)
    | |- context [(?a <? ?b)%N] => destruct (N.ltb_spec a b)
    | H : context [(?a =? ?b)%N] |- _ => destruct (N.eqb_spec a b)
    | H : context [(?a <=? ?b)%N] |- _ => destruct (N.leb_spec a b)
    | H : context [(?a <? ?b)%N] |- _ => destruct (N.ltb_spec a b)
    end;
  cbn in *; try done; try lia.

(** The same by turning the boolean comparisons into propositions. *)
Ltac char_lia :=
  repeat first
    [ rewrite negb_true_iff in * | rewrite negb_false_iff in *
    | rewrite orb_true_iff in * | rewrite orb_false_iff in *
    | rewrite andb_true_iff in * | rewrite andb_false_iff in *
    | rewrite N.eqb_eq in * | rewrite N.eqb_neq in *
    | rewrite N.leb_le in * | rewrite N.leb_gt in *
    | rewrite N.ltb_lt in * | rewrite N.ltb_ge in * ];
  lia.

Ltac div_lia := zify; Z.to_euclidean_division_equations; lia.

Section EscapeFacts.
Import Json.

Lemma strip_prefix_app p s : strip_prefix p (p ++ s) = Some s.
Proof.
  induction p as [|x p IH]; [done|]. cbn [app strip_prefix].
  by rewrite N.eqb_refl.
Qed.

Lemma hex_val_hex_digit n : (n < 16)%N -> hex_val (hex_digit n) = Some n.
Proof.
  intros Hn. unfold hex_val, hex_digit, is_digit.
  destruct (N.ltb_spec n 10).
  - assert ((48 <=? 48 + n)%N = true) as -> by (apply N.leb_le; lia).
    assert ((48 + n <=? 57)%N = true) as -> by (apply N.leb_le; lia).
    cbn [andb]. f_equal. lia.
  - assert ((87 + n <=? 57)%N = false) as -> by (apply N.leb_gt; lia).
    rewrite andb_false_r.
    assert ((97 <=? 87 + n)%N = true) as -> by (apply N.leb_le; lia).
    assert ((87 + n <=? 102)%N = true) as -> by (apply N.leb_le; lia).
    cbn [andb]. f_equal. lia.
Qed.

Lemma code_unit_unicode_escape c :
  (c < 65536)%N ->
  code_unit (hex_digit (c / 4096)) (hex_digit ((c / 256) mod 16))
            (hex_digit ((c / 16) mod 16)) (hex_digit (c mod 16)) = Some c.
Proof.
  intros Hc. unfold code_unit.
  rewrite !hex_val_hex_digit by div_lia. f_equal. div_lia.
Qed.

Lemma parse_unicode_escape c rest :
  (c < 65536)%N ->
  parse_string_body (unicode_escape c ++ rest)
  = cons_fst c <$> parse_string_body rest.
Proof.
  intros Hc. unfold unicode_escape. cbn [app parse_string_body].
  change (92 =? 34)%N with false. change (92 =? 92)%N with true.
  change (117 =? 117)%N with true. cbv iota.
  by rewrite code_unit_unicode_escape.
Qed.

Lemma parse_plain c rest :
  (32 <= c)%N -> c <> 34%N -> c <> 92%N ->
  parse_string_body (c :: rest) = cons_fst c <$> parse_string_body rest.
Proof.
  intros H1 H2 H3. cbn [parse_string_body].
  rewrite (proj2 (N.eqb_neq c 34)), (proj2 (N.eqb_neq c 92)) by done.
  by rewrite (proj2 (N.ltb_ge c 32)).
Qed.

Lemma parse_escape_char c rest :
  parse_string_body (escape_char c ++ rest)
  = cons_fst c <$> parse_string_body rest.
Proof.
  unfold escape_char.
  destruct (N.eqb_spec c 34) as [->|H34]; [reflexivity|].
  destruct (N.eqb_spec c 92) as [->|H92]; [reflexivity|].
  destruct (N.eqb_spec c 8) as [->|H8]; [reflexivity|].
  destruct (N.eqb_spec c 12) as [->|H12]; [reflexivity|].
  destruct (N.eqb_spec c 10) as [->|H10]; [reflexivity|].
  destruct (N.eqb_spec c 13) as [->|H13]; [reflexivity|].
  destruct (N.eqb_spec c 9) as [->|H9]; [reflexivity|].
  destruct (N.ltb_spec c 32) as [Hlt|Hge].
  - apply parse_unicode_escape. lia.
  - by apply parse_plain.
Qed.

(** Induction that follows the recursion of [quote_body]. *)
Lemma quote_body_ind (P : list N -> Prop) :
  P [] ->
  (forall c l r, is_high_surrogate c = true -> is_low_surrogate l = true ->
                 P r -> P (c :: l :: r)) ->
  (forall c r, is_high_surrogate c = true ->
               match r with l :: _ => is_low_surrogate l = false | [] => True end ->
               P r -> P (c :: r)) ->
  (forall c r, is_high_surrogate c = false -> P r -> P (c :: r)) ->
  forall s, P s.
Proof.
  intros Hnil Hpair Hlone Hother s.
  assert (forall n s, (List.length s <= n)%nat -> P s) as Hn.
  { induction n as [|n IH]; intros [|c r] Hlen; try done; cbn in Hlen; [lia|].
    destruct (is_high_surrogate c) eqn:Eh.
    - destruct r as [|l r'].
      + by apply Hlone.
      + destruct (is_low_surrogate l) eqn:El.
        * apply Hpair; [done..|]. apply IH. cbn in Hlen. lia.
        * apply Hlone; [done..|]. apply IH. lia.
    - apply Hother; [done|]. apply IH. lia. }
  by apply (Hn (List.length s)).
Qed.

Lemma quote_body_pair c l r :
  is_high_surrogate c = true -> is_low_surrogate l = true ->
  quote_body (c :: l :: r) = c :: l :: quote_body r.
Proof. intros Hc Hl. cbn [quote_body]. by rewrite Hc, Hl. Qed.

Lemma quote_body_lone_high c r :
  is_high_surrogate c = true ->
  match r with l :: _ => is_low_surrogate l = false | [] => True end ->
  quote_body (c :: r) = unicode_escape c ++ quote_body r.
Proof.
  intros Hc Hr. cbn [quote_body]. rewrite Hc. destruct r as [|l r'].
  - by rewrite app_nil_r.
  - by rewrite Hr.
Qed.

Lemma quote_body_other c r :
  is_high_surrogate c = false ->
  quote_body (c :: r)
  = (if is_low_surrogate c then unicode_escape c else escape_char c) ++ quote_body r.
Proof. intros Hc. cbn [quote_body]. rewrite Hc. by destruct (is_low_surrogate c). Qed.

Lemma parse_string_body_quote s rest :
  parse_string_body (quote_body s ++ 34%N :: rest) = Some (s, rest).
Proof.
  induction s as [|c l r Hc Hl IH|c r Hc Hr IH|c r Hc IH] using quote_body_ind.
  - reflexivity.
  - rewrite quote_body_pair by done. cbn [app].
    unfold is_high_surrogate, is_low_surrogate in *.
    rewrite !parse_plain by char_cases. by rewrite IH.
  - rewrite quote_body_lone_high, <- app_assoc by done.
    unfold is_high_surrogate in Hc.
    rewrite parse_unicode_escape by char_cases. by rewrite IH.
  - rewrite quote_body_other, <- app_assoc by done.
    destruct (is_low_surrogate c) eqn:El.
    + unfold is_low_surrogate in El.
      rewrite parse_unicode_escape by char_cases. by rewrite IH.
    + rewrite parse_escape_char. by rewrite IH.
Qed.
End EscapeFacts.

Section MarkerFacts.
Import Json ParallelMode.

Lemma arrow_free_cons_safe c r d :
  c <> 45%N -> c <> 62%N -> arrow_free d (c :: r) = arrow_free 0 r.
Proof.
  intros H1 H2. cbn [arrow_free].
  by rewrite (proj2 (N.eqb_neq c 45)), (proj2 (N.eqb_neq c 62)).
Qed.

Lemma hex_digit_safe n : hex_digit n <> 45%N /\ hex_digit n <> 62%N.
Proof. unfold hex_digit. destruct (N.ltb_spec n 10); lia. Qed.

Lemma arrow_free_unicode_escape c r d :
  arrow_free d (unicode_escape c ++ r) = arrow_free 0 r.
Proof.
  unfold unicode_escape. cbn [app].
  rewrite (arrow_free_cons_safe 92), (arrow_free_cons_safe 117) by done.
  by rewrite !arrow_free_cons_safe by apply hex_digit_safe.
Qed.

Lemma arrow_free_escape c d r :
  arrow_free d (escape_char c ++ r) = arrow_free d (c :: r).
Proof.
  unfold escape_char.
  destruct (N.eqb_spec c 34) as [->|H34]; [reflexivity|].
  destruct (N.eqb_spec c 92) as [->|H92]; [reflexivity|].
  destruct (N.eqb_spec c 8) as [->|H8]; [reflexivity|].
  destruct (N.eqb_spec c 12) as [->|H12]; [reflexivity|].
  destruct (N.eqb_spec c 10) as [->|H10]; [reflexivity|].
  destruct (N.eqb_spec c 13) as [->|H13]; [reflexivity|].
  destruct (N.eqb_spec c 9) as [->|H9]; [reflexivity|].
  destruct (N.ltb_spec c 32) as [Hlt|Hge]; [|reflexivity].
  rewrite arrow_free_unicode_escape, arrow_free_cons_safe by lia. done.
Qed.

Lemma arrow_free_quote_body s d rest :
  arrow_free d (quote_body s ++ rest) = arrow_free d (s ++ rest).
Proof.
  revert d.
  induction s as [|c l r Hc Hl IH|c r Hc Hr IH|c r Hc IH] using quote_body_ind;
    intros d.
  - reflexivity.
  - rewrite quote_body_pair by done. cbn [app].
    unfold is_high_surrogate, is_low_surrogate in *.
    rewrite !(arrow_free_cons_safe c), !(arrow_free_cons_safe l) by char_cases.
    apply IH.
  - rewrite quote_body_lone_high, <- app_assoc by done. cbn [app].
    unfold is_high_surrogate in Hc.
    rewrite arrow_free_unicode_escape, arrow_free_cons_safe by char_cases.
    apply IH.
  - rewrite quote_body_other, <- app_assoc by done. cbn [app].
    destruct (is_low_surrogate c) eqn:El.
    + unfold is_low_surrogate in El.
      rewrite arrow_free_unicode_escape, arrow_free_cons_safe by char_cases.
      apply IH.
    + rewrite arrow_free_escape. cbn [arrow_free]. by rewrite !IH.
Qed.

Lemma arrow_free_quoted s d : arrow_free d (quote_body s) = arrow_free d s.
Proof.
  rewrite <- (app_nil_r (quote_body s)), arrow_free_quote_body.
  by rewrite app_nil_r.
Qed.

Lemma arrow_free_app_safe a c b d :
  c <> 45%N -> c <> 62%N ->
  arrow_free d (a ++ c :: b) = arrow_free d a && arrow_free 0 b.
Proof.
  intros H1 H2. revert d. induction a as [|x a IH]; intros d.
  - cbn [app]. by rewrite arrow_free_cons_safe.
  - cbn [app arrow_free]. rewrite !IH.
    destruct (x =? 45)%N; [done|].
    destruct (x =? 62)%N; [|done]. by rewrite andb_assoc.
Qed.

Lemma includes_tail pat x t : includes pat (x :: t) = false -> includes pat t = false.
Proof. cbn [includes]. by destruct (strip_prefix pat (x :: t)). Qed.

Lemma includes_drop pat a b : includes pat (a ++ b) = false -> includes pat b = false.
Proof.
  induction a as [|x a IH]; [done|]. cbn [app].
  intros H. by apply IH, (includes_tail pat x).
Qed.

Lemma includes_arrow_free s d :
  (d <= 2)%nat -> includes (lit "-->") (dashes d ++ s) = false ->
  arrow_free d s = true.
Proof.
  revert d. induction s as [|c s IH]; intros d Hd Hinc; [done|].
  cbn [arrow_free].
  destruct (N.eqb_spec c 45) as [->|E1]; [|destruct (N.eqb_spec c 62) as [->|E2]].
  - apply IH; [lia|].
    destruct d as [|[|[|d]]]; [exact Hinc|exact Hinc| |lia].
    by apply (includes_tail _ 45%N) in Hinc.
  - destruct d as [|[|[|d]]]; [| | |lia].
    + cbn [Nat.ltb Nat.leb andb]. apply (IH 0%nat); [lia|].
      by apply (includes_tail _ 62%N) in Hinc.
    + cbn [Nat.ltb Nat.leb andb]. apply (IH 0%nat); [lia|].
      by apply (includes_drop _ [45; 62]%N) in Hinc.
    + exfalso. revert Hinc. clear. by vm_compute.
  - apply (IH 0%nat); [lia|]. cbn [dashes app].
    apply (includes_drop _ (dashes d ++ [c])). by rewrite <- app_assoc.
Qed.

Lemma strip_arrow_none c J d rest :
  arrow_free d (c :: J) = true ->
  strip_prefix (lit "-->") ((c :: J) ++ lit "-->" ++ rest) = None.
Proof.
  intros H. change (lit "-->") with [45; 45; 62]%N. cbn [app strip_prefix].
  destruct (N.eqb_spec 45 c) as [<-|E1]; [|done].
  destruct J as [|c2 J]; [reflexivity|]. cbn [app].
  destruct (N.eqb_spec 45 c2) as [<-|E2]; [|done].
  destruct J as [|c3 J]; [reflexivity|]. cbn [app].
  destruct (N.eqb_spec 62 c3) as [<-|E3]; [|done].
  exfalso. revert H. clear. destruct d as [|[|d]]; by vm_compute.
Qed.

Lemma arrow_free_tail c J d :
  arrow_free d (c :: J) = true -> exists d', arrow_free d' J = true.
Proof.
  cbn [arrow_free]. destruct (c =? 45)%N; [eauto|].
  destruct (c =? 62)%N; [|eauto].
  intros Hb. apply andb_prop in Hb as [_ Hb]. eauto.
Qed.

Lemma lazy_rest_capture J d rest :
  arrow_free d J = true -> forallb not_lt J = true ->
  lazy_rest (J ++ lit "-->" ++ rest) = Some (J, rest).
Proof.
  revert d. induction J as [|c J IH]; intros d Ha Hl.
  - reflexivity.
  - pose proof (strip_arrow_none c J d rest Ha) as Hs.
    cbn [app] in Hs |- *. cbn [lazy_rest]. rewrite Hs.
    cbn [forallb] in Hl. apply andb_prop in Hl as [Hc Hl].
    unfold not_lt in Hc. apply negb_true_iff in Hc. rewrite Hc.
    destruct (arrow_free_tail c J d Ha) as [d' Hd'].
    by rewrite (IH d').
Qed.

Lemma exec_unfold s :
  exec s
  = match match strip_prefix (lit "<!--SOURCE:") s with
          | Some body =>
              match capture_at body with
              | Some (g, rest) => Some {| before := []; group1 := g; after := rest |}
              | None => None
              end
          | None => None
          end with
    | Some m => Some m
    | None =>
        match s with
        | [] => None
        | c :: r =>
            (fun m => {| before := c :: before m; group1 := group1 m;
                         after := after m |}) <$> exec r
        end
    end.
Proof. by destruct s. Qed.

(** The expression matches the marker that [annotateResponseSource] has
    just put in front, whatever follows it. *)
Lemma exec_annotated c J content :
  arrow_free 0 (c :: J) = true ->
  forallb not_lt (c :: J) = true ->
  exec (lit "<!--SOURCE:" ++ (c :: J) ++ lit "-->" ++ content)
  = Some {| before := []; group1 := c :: J; after := content |}.
Proof.
  intros Ha Hl. rewrite exec_unfold, strip_prefix_app.
  unfold capture_at. cbn [app].
  cbn [forallb] in Hl. apply andb_prop in Hl as [Hc Hl].
  unfold not_lt in Hc. apply negb_true_iff in Hc. rewrite Hc.
  destruct (arrow_free_tail c J 0 Ha) as [d' Hd'].
  by rewrite (lazy_rest_capture J d').
Qed.
End MarkerFacts.

Section ParseFacts.
Import Json ParallelMode.

Lemma num_step_numchar st c st' : num_step st c = Some st' -> is_numchar c = true.
Proof.
  unfold is_numchar, is_digit. destruct st; cbn [num_step]; unfold is_digit;
    intros H; char_cases.
Qed.

Lemma num_run_numchars s st st' :
  num_run st s = Some st' -> forallb is_numchar s = true.
Proof.
  revert st. induction s as [|c s IH]; intros st; [done|].
  cbn [num_run forallb]. destruct (num_step st c) as [st1|] eqn:E; [|done].
  intros H. rewrite (num_step_numchar _ _ _ E). by apply (IH st1).
Qed.

Lemma number_literal_numchars s : number_literal s = true -> forallb is_numchar s = true.
Proof.
  unfold number_literal. destruct (num_run NStart s) as [st|] eqn:E; [|done].
  intros _. by apply (num_run_numchars s NStart st).
Qed.

Lemma span_numchars_app n c rest :
  forallb is_numchar n = true -> is_numchar c = false ->
  span_numchars (n ++ c :: rest) = (n, c :: rest).
Proof.
  intros Hn Hc. induction n as [|x n IH].
  - cbn [app span_numchars]. by rewrite Hc.
  - cbn [app forallb span_numchars] in *.
    apply andb_prop in Hn as [Hx Hn]. rewrite Hx, IH by done. reflexivity.
Qed.

Lemma parse_value_number_start a t f :
  starts_number a = true ->
  parse_value (S f) (a :: t)
  = (let '(text, rest) := span_numchars (a :: t) in
     if number_literal text then Some (JNum text, rest) else None).
Proof.
  intros Hs.
  assert (a = 45 \/ 48 <= a <= 57)%N as Ha.
  { unfold starts_number in Hs. cbn [num_step] in Hs. unfold is_digit in Hs.
    char_cases. }
  assert (is_ws a = false) as Hws by (unfold is_ws; char_cases).
  cbn [parse_value skip_ws]. rewrite Hws.
  rewrite (proj2 (N.eqb_neq a 123)), (proj2 (N.eqb_neq a 91)),
    (proj2 (N.eqb_neq a 34)) by lia.
  change (lit "true") with [116; 114; 117; 101]%N.
  change (lit "false") with [102; 97; 108; 115; 101]%N.
  change (lit "null") with [110; 117; 108; 108]%N.
  cbn [strip_prefix].
  rewrite (proj2 (N.eqb_neq 116 a)), (proj2 (N.eqb_neq 102 a)),
    (proj2 (N.eqb_neq 110 a)) by lia.
  reflexivity.
Qed.

Lemma parse_value_number n c rest f :
  is_numchar c = false ->
  parse_value (S f) (stringify (JNum n) ++ c :: rest)
  = Some (numval n, c :: rest).
Proof.
  intros Hc. cbn [stringify]. unfold numval.
  destruct (number_literal n) eqn:Hn.
  - pose proof (number_literal_numchars n Hn) as Hall.
    destruct n as [|a n]; [done|]. cbn [app].
    rewrite parse_value_number_start.
    + change (a :: n ++ c :: rest) with ((a :: n) ++ c :: rest).
      rewrite span_numchars_app by done. by rewrite Hn.
    + unfold starts_number. unfold number_literal in Hn. cbn [num_run] in Hn.
      by destruct (num_step NStart a).
  - reflexivity.
Qed.
End ParseFacts.

Section RoundTrip.
Import Json ParallelMode.

Lemma stringify_metadata src : stringify (metadata src) = printed src.
Proof.
  unfold metadata, printed, str_field, num_field.
  destruct (confidence src) as [n|];
    cbn [stringify join List.map app]; unfold quote;
    change (lit "{") with [123%N]; change (lit "}") with [125%N];
    change (lit ",") with [44%N]; change (lit ":") with [58%N];
    repeat first [ rewrite <- app_assoc | progress cbn [app] ];
    reflexivity.
Qed.

Lemma parse_value_object k v rest f :
  parse_value (S f) (123%N :: str_field k v rest)
  = (fun x => (JObj x.1, x.2)) <$> parse_members f (str_field k v rest).
Proof. reflexivity. Qed.

Lemma parse_value_string r f :
  parse_value (S f) (34%N :: r)
  = (fun x => (JStr x.1, x.2)) <$> parse_string_body r.
Proof. reflexivity. Qed.

Lemma parse_members_unfold r f :
  parse_members (S f) (34%N :: r)
  = match parse_string_body r with
    | None => None
    | Some (key, r1) =>
        match skip_ws r1 with
        | [] => None
        | c1 :: r2 =>
            if (c1 =? 58)%N then
              match parse_value f r2 with
              | None => None
              | Some (v, r3) =>
                  match skip_ws r3 with
                  | [] => None
                  | c3 :: r4 =>
                      if (c3 =? 44)%N then
                        (fun x => ((key, v) :: x.1, x.2)) <$> parse_members f r4
                      else if (c3 =? 125)%N then Some ([(key, v)], r4)
                      else None
                  end
              end
            else None
        end
    end.
Proof. reflexivity. Qed.

Lemma parse_members_str_more k v rest f :
  parse_members (S (S f)) (str_field k v (44%N :: rest))
  = (fun x => ((k, JStr v) :: x.1, x.2)) <$> parse_members (S f) rest.
Proof.
  unfold str_field. rewrite parse_members_unfold, parse_string_body_quote.
  cbn [skip_ws is_ws N.eqb Pos.eqb orb]. 
  rewrite parse_value_string, parse_string_body_quote. reflexivity.
Qed.

Lemma parse_members_num_more k n rest f :
  parse_members (S (S f)) (num_field k n (44%N :: rest))
  = (fun x => ((k, numval n) :: x.1, x.2)) <$> parse_members (S f) rest.
Proof.
  unfold num_field. rewrite parse_members_unfold, parse_string_body_quote.
  cbn [skip_ws is_ws N.eqb Pos.eqb orb].
  rewrite parse_value_number by reflexivity. reflexivity.
Qed.

Lemma parse_members_num_last k n rest f :
  parse_members (S (S f)) (num_field k n (125%N :: rest))
  = Some ([(k, numval n)], rest).
Proof.
  unfold num_field. rewrite parse_members_unfold, parse_string_body_quote.
  cbn [skip_ws is_ws N.eqb Pos.eqb orb].
  rewrite parse_value_number by reflexivity. reflexivity.
Qed.

Lemma parse_value_printed src f :
  parse_value (7 + f) (printed src) = Some (parsed src, []).
Proof.
  unfold printed, parsed. change (7 + f)%nat with (S (S (S (S (S (S (S f))))))).
  rewrite parse_value_object, !parse_members_str_more.
  destruct (confidence src) as [n|].
  - rewrite parse_members_num_more, parse_members_num_last. reflexivity.
  - rewrite parse_members_num_last. reflexivity.
Qed.

Lemma printed_length src : (6 <= List.length (printed src))%nat.
Proof.
  unfold printed, str_field.
  repeat first [ rewrite length_app | progress cbn [List.length] ]. lia.
Qed.

Lemma arrow_free_str_field k v rest d :
  arrow_free d (str_field k v rest)
  = arrow_free 0 k && arrow_free 0 v && arrow_free 0 rest.
Proof.
  unfold str_field.
  rewrite (arrow_free_cons_safe 34) by done.
  rewrite arrow_free_app_safe by done.
  rewrite (arrow_free_cons_safe 58), (arrow_free_cons_safe 34) by done.
  rewrite arrow_free_app_safe by done.
  by rewrite !arrow_free_quoted, andb_assoc.
Qed.

Lemma stringify_number_chars n : forallb is_numtext (stringify (JNum n)) = true.
Proof.
  cbn [stringify]. destruct (number_literal n) eqn:E; [|reflexivity].
  apply number_literal_numchars in E. clear -E.
  induction n as [|c n IH]; [done|]. cbn [forallb] in *.
  apply andb_prop in E as [Hc Hn]. unfold is_numtext at 1. by rewrite Hc, IH.
Qed.

Lemma forallb_impl (P Q : N -> bool) s :
  (forall c, P c = true -> Q c = true) ->
  forallb P s = true -> forallb Q s = true.
Proof.
  intros HPQ. induction s as [|c s IH]; [done|]. cbn [forallb].
  intros H. apply andb_prop in H as [Hc Hs]. by rewrite (HPQ c Hc), IH.
Qed.

Lemma arrow_free_no_gt s d :
  forallb (fun c => negb (c =? 62)%N) s = true -> arrow_free d s = true.
Proof.
  revert d. induction s as [|c s IH]; intros d; [done|].
  cbn [forallb arrow_free]. intros H. apply andb_prop in H as [Hc Hs].
  apply negb_true_iff in Hc. rewrite Hc.
  destruct (c =? 45)%N; by apply IH.
Qed.

Lemma stringify_number_arrow_free n d : arrow_free d (stringify (JNum n)) = true.
Proof.
  apply arrow_free_no_gt. eapply forallb_impl; [|apply stringify_number_chars].
  intros c. unfold is_numtext, is_numchar, is_digit. intros H. char_lia.
Qed.

Lemma stringify_number_not_lt n : forallb not_lt (stringify (JNum n)) = true.
Proof.
  eapply forallb_impl; [|apply stringify_number_chars].
  intros c. unfold is_numtext, is_numchar, is_digit, not_lt, is_line_terminator.
  intros H. char_lia.
Qed.

Lemma arrow_free_num_field k n c rest d :
  c <> 45%N -> c <> 62%N ->
  arrow_free d (num_field k n (c :: rest)) = arrow_free 0 k && arrow_free 0 rest.
Proof.
  intros H1 H2. unfold num_field.
  rewrite (arrow_free_cons_safe 34) by done.
  rewrite arrow_free_app_safe by done.
  rewrite (arrow_free_cons_safe 58) by done.
  rewrite arrow_free_app_safe by done.
  by rewrite arrow_free_quoted, stringify_number_arrow_free.
Qed.

Lemma sourceType_text_arrow_free t : arrow_free 0 (sourceType_text t) = true.
Proof. by destruct t. Qed.

Lemma printed_arrow_free src :
  arrow_free 0 (provider src) = true -> arrow_free 0 (model src) = true ->
  arrow_free 0 (printed src) = true.
Proof.
  intros Hp Hm. unfold printed.
  rewrite (arrow_free_cons_safe 123) by done.
  rewrite arrow_free_str_field, (arrow_free_cons_safe 44) by done.
  rewrite arrow_free_str_field, (arrow_free_cons_safe 44) by done.
  rewrite arrow_free_str_field, (arrow_free_cons_safe 44) by done.
  rewrite sourceType_text_arrow_free, Hp, Hm.
  destruct (confidence src) as [n|].
  - rewrite arrow_free_num_field by done.
    rewrite arrow_free_num_field by done. reflexivity.
  - rewrite arrow_free_num_field by done. reflexivity.
Qed.

Lemma hex_digit_not_lt n : (n < 16)%N -> not_lt (hex_digit n) = true.
Proof.
  intros Hn. unfold not_lt, is_line_terminator, hex_digit.
  destruct (N.ltb_spec n 10); char_cases.
Qed.

Lemma unicode_escape_not_lt c :
  (c < 65536)%N -> forallb not_lt (unicode_escape c) = true.
Proof.
  intros Hc. unfold unicode_escape. cbn [forallb].
  rewrite !hex_digit_not_lt by div_lia. reflexivity.
Qed.

Lemma escape_char_not_lt c :
  no_separator c = true -> forallb not_lt (escape_char c) = true.
Proof.
  intros Hs. unfold escape_char.
  destruct (N.eqb_spec c 34) as [->|H34]; [reflexivity|].
  destruct (N.eqb_spec c 92) as [->|H92]; [reflexivity|].
  destruct (N.eqb_spec c 8) as [->|H8]; [reflexivity|].
  destruct (N.eqb_spec c 12) as [->|H12]; [reflexivity|].
  destruct (N.eqb_spec c 10) as [->|H10]; [reflexivity|].
  destruct (N.eqb_spec c 13) as [->|H13]; [reflexivity|].
  destruct (N.eqb_spec c 9) as [->|H9]; [reflexivity|].
  destruct (N.ltb_spec c 32) as [Hlt|Hge].
  - apply unicode_escape_not_lt. lia.
  - cbn [forallb]. rewrite andb_true_r.
    unfold not_lt, is_line_terminator, no_separator in *. char_cases.
Qed.

Lemma quote_body_not_lt s :
  forallb no_separator s = true -> forallb not_lt (quote_body s) = true.
Proof.
  induction s as [|c l r Hc Hl IH|c r Hc Hr IH|c r Hc IH] using quote_body_ind;
    cbn [forallb]; intros H.
  - reflexivity.
  - apply andb_prop in H as [_ H]. apply andb_prop in H as [_ H].
    rewrite quote_body_pair by done. cbn [forallb]. rewrite IH by done.
    unfold is_high_surrogate, is_low_surrogate, not_lt, is_line_terminator in *.
    clear IH H. char_lia.
  - apply andb_prop in H as [_ H].
    rewrite quote_body_lone_high, forallb_app, IH by done.
    unfold is_high_surrogate in Hc.
    rewrite unicode_escape_not_lt by char_cases. reflexivity.
  - apply andb_prop in H as [H0 H].
    rewrite quote_body_other, forallb_app, IH by done.
    destruct (is_low_surrogate c) eqn:El.
    + unfold is_low_surrogate in El.
      rewrite unicode_escape_not_lt by char_cases. reflexivity.
    + by rewrite escape_char_not_lt.
Qed.

Lemma str_field_not_lt k v rest :
  forallb no_separator k = true -> forallb no_separator v = true ->
  forallb not_lt (str_field k v rest) = forallb not_lt rest.
Proof.
  intros Hk Hv. unfold str_field. cbn [forallb]. rewrite forallb_app.
  cbn [forallb]. rewrite forallb_app. cbn [forallb].
  by rewrite !quote_body_not_lt.
Qed.

Lemma num_field_not_lt k n rest :
  forallb no_separator k = true ->
  forallb not_lt (num_field k n rest) = forallb not_lt rest.
Proof.
  intros Hk. unfold num_field. cbn [forallb]. rewrite forallb_app.
  cbn [forallb]. rewrite forallb_app.
  by rewrite quote_body_not_lt, stringify_number_not_lt.
Qed.

Lemma sourceType_text_no_separator t : forallb no_separator (sourceType_text t) = true.
Proof. by destruct t. Qed.

Lemma printed_not_lt src :
  forallb no_separator (provider src) = true ->
  forallb no_separator (model src) = true ->
  forallb not_lt (printed src) = true.
Proof.
  intros Hp Hm. unfold printed. cbn [forallb].
  rewrite str_field_not_lt by (done || apply sourceType_text_no_separator).
  cbn [forallb]. rewrite str_field_not_lt by done.
  cbn [forallb]. rewrite str_field_not_lt by done.
  cbn [forallb].
  destruct (confidence src) as [n|]; rewrite !num_field_not_lt by done;
    cbn [forallb]; rewrite ?num_field_not_lt by done; reflexivity.
Qed.

Lemma parse_printed src : parse (printed src) = Some (parsed src).
Proof.
  unfold parse. pose proof (printed_length src) as Hlen.
  destruct (List.length (printed src)) as [|[|[|[|[|[|n]]]]]] eqn:E; try lia.
  change (S (S (S (S (S (S (S n))))))) with (7 + n)%nat.
  by rewrite parse_value_printed.
Qed.

Lemma extract_annotated content src :
  arrow_free 0 (provider src) = true -> arrow_free 0 (model src) = true ->
  forallb no_separator (provider src) = true ->
  forallb no_separator (model src) = true ->
  extractResponseSource (annotateResponseSource content src)
  = {| source := parsed src; cleanContent := trim content |}.
Proof.
  intros Hp Hm Hp' Hm'. unfold extractResponseSource, annotateResponseSource.
  rewrite stringify_metadata.
  pose proof (printed_arrow_free src Hp Hm) as Ha.
  pose proof (printed_not_lt src Hp' Hm') as Hl.
  pose proof (parse_printed src) as Hparse.
  destruct (printed src) as [|c J] eqn:E; [discriminate|].
  rewrite exec_annotated by done. cbn [group1 before after].
  by rewrite Hparse.
Qed.

(** C9, amended.  For every content that [trim] leaves unchanged and
    every source whose provider and model contain neither the text [-->]
    nor one of the separators U+2028 and U+2029, extracting from the
    annotated content gives back the content and a source with the same
    sourceType, provider and model. *)
Theorem annotate_extract_roundtrip content src :
  trim content = content ->
  includes (lit "-->") (provider src) = false ->
  includes (lit "-->") (model src) = false ->
  forallb no_separator (provider src) = true ->
  forallb no_separator (model src) = true ->
  let r := extractResponseSource (annotateResponseSource content src) in
  cleanContent r = content
  /\ get_prop (lit "sourceType") (source r)
     = Some (JStr (sourceType_text (sourceType src)))
  /\ get_prop (lit "provider") (source r) = Some (JStr (provider src))
  /\ get_prop (lit "model") (source r) = Some (JStr (model src)).
Proof.
  intros Htrim Hp Hm Hp' Hm' r. subst r.
  rewrite extract_annotated
    by (done || (apply (includes_arrow_free _ 0); [lia|done])).
  cbn [cleanContent source]. split; [done|].
  unfold parsed. destruct (confidence src); repeat split; reflexivity.
Qed.
End RoundTrip.

Section RoundTripSamples.
Import Json ParallelMode.

Lemma annotate_extract_roundtrip_witness :
  cleanContent (extractResponseSource
                  (annotateResponseSource (lit "Hello") sampleSource))
  = lit "Hello"
  /\ get_prop (lit "sourceType")
       (source (extractResponseSource
                  (annotateResponseSource (lit "Hello") sampleSource)))
     = Some (JStr (lit "external"))
  /\ get_prop (lit "provider")
       (source (extractResponseSource
                  (annotateResponseSource (lit "Hello") sampleSource)))
     = Some (JStr (lit "p"))
  /\ get_prop (lit "model")
       (source (extractResponseSource
                  (annotateResponseSource (lit "Hello") sampleSource)))
     = Some (JStr (lit "m")).
Proof.
  apply (annotate_extract_roundtrip (lit "Hello") sampleSource); reflexivity.
Defined.

(** C9 as stated fails: a content with a leading space, and no marker in
    it, comes back without the space. *)
Lemma annotate_extract_counterexample :
  includes (lit "<!--SOURCE:") (lit " Hello") = false
  /\ cleanContent (extractResponseSource
                     (annotateResponseSource (lit " Hello") sampleSource))
     = lit "Hello"
  /\ cleanContent (extractResponseSource
                     (annotateResponseSource (lit " Hello") sampleSource))
     <> lit " Hello".
Proof. repeat split; vm_compute; (reflexivity || discriminate). Qed.

(** A provider that holds the end of the marker cuts the capture short,
    and one that holds a line separator stops the match: nothing is
    extracted. *)
Lemma marker_broken_by_provider :
  source (extractResponseSource (annotateResponseSource (lit "Hello") arrowSource))
  = JNull
  /\ cleanContent (extractResponseSource
                     (annotateResponseSource (lit "Hello") arrowSource))
     = annotateResponseSource (lit "Hello") arrowSource
  /\ source (extractResponseSource
               (annotateResponseSource (lit "Hello") separatorSource))
     = JNull.
Proof. repeat split; vm_compute; reflexivity. Qed.
End RoundTripSamples.

(* ===================================================================== *)
(** * Further properties of the mode handlers                              *)
(* ===================================================================== *)

Section ModeTableFacts.
Import ModeHandlers.

Lemma caps_of_mode_app m t1 t2 :
  caps_of_mode m (t1 ++ t2) = caps_of_mode m t1 ++ caps_of_mode m t2.
Proof. unfold caps_of_mode. apply List.filter_app. Qed.

(** What one iteration of the loop does, in every case. *)
Lemma ensure_one_cases now m db :
  (rows_of_mode m (aiCollaborationModes db) <> []
   /\ ensure_one now m db = Returned tt db)
  \/ (rows_of_mode m (aiCollaborationModes db) = []
      /\ caps_of_mode m (modeCapabilities db) <> []
      /\ exists e,
           ensure_one now m db
           = Thrown e (with_modes (aiCollaborationModes db ++ [seed_row now m]) db))
  \/ (rows_of_mode m (aiCollaborationModes db) = []
      /\ caps_of_mode m (modeCapabilities db) = []
      /\ ensure_one now m db
         = Returned tt
             (with_caps (modeCapabilities db ++ [seed_cap m])
                (with_modes (aiCollaborationModes db ++ [seed_row now m]) db))).
Proof.
  unfold ensure_one.
  destruct (rows_of_mode m (aiCollaborationModes db)) as [|r rs] eqn:E.
  - right. cbn [with_modes modeCapabilities].
    destruct (caps_of_mode m (modeCapabilities db)) as [|c cs] eqn:Ec.
    + right. done.
    + left. split; [done|]. split; [done|]. eexists. reflexivity.
  - left. split; [done|]. reflexivity.
Qed.

Lemma rows_of_mode_seed now m m' :
  rows_of_mode m' [seed_row now m] = if bool_decide (m = m') then [seed_row now m] else [].
Proof. reflexivity. Qed.

Lemma caps_of_mode_seed m m' :
  caps_of_mode m' [seed_cap m] = if bool_decide (m = m') then [seed_cap m] else [].
Proof. reflexivity. Qed.

(** The rows and capability rows of another mode are untouched by an
    iteration, whatever its outcome. *)
Lemma ensure_one_other now m m' db :
  m' <> m ->
  rows_of_mode m' (aiCollaborationModes (db_of (ensure_one now m db)))
  = rows_of_mode m' (aiCollaborationModes db)
  /\ caps_of_mode m' (modeCapabilities (db_of (ensure_one now m db)))
     = caps_of_mode m' (modeCapabilities db).
Proof.
  intros Hne.
  destruct (ensure_one_cases now m db) as [[_ ->]|[(_ & _ & e & ->)|(_ & _ & ->)]];
    cbn [db_of with_modes with_caps aiCollaborationModes modeCapabilities].
  - done.
  - rewrite rows_of_mode_app, rows_of_mode_seed.
    rewrite bool_decide_eq_false_2 by congruence. by rewrite app_nil_r.
  - rewrite rows_of_mode_app, caps_of_mode_app, rows_of_mode_seed, caps_of_mode_seed.
    rewrite !bool_decide_eq_false_2 by congruence. by rewrite !app_nil_r.
Qed.

(** An iteration only appends to the mode table, and leaves the history
    alone. *)
Lemma ensure_one_appends now m db :
  exists added,
    aiCollaborationModes (db_of (ensure_one now m db))
    = aiCollaborationModes db ++ added
    /\ (forall r, In r added ->
          r = seed_row now m /\ rows_of_mode m (aiCollaborationModes db) = [])
    /\ modeTransitionHistory (db_of (ensure_one now m db)) = modeTransitionHistory db
    /\ history_seq (db_of (ensure_one now m db)) = history_seq db.
Proof.
  destruct (ensure_one_cases now m db) as [[_ ->]|[(E & _ & e & ->)|(E & _ & ->)]];
    cbn [db_of with_modes with_caps aiCollaborationModes modeTransitionHistory
         history_seq].
  - exists []. rewrite app_nil_r. split; [done|]. split; [|done]. intros r [].
  - exists [seed_row now m]. split; [done|]. split; [|done]. by intros r [<-|[]].
  - exists [seed_row now m]. split; [done|]. split; [|done]. by intros r [<-|[]].
Qed.

(** The loop only appends to the mode table: a row is added for a mode of
    the list that had none, and it is the seed row of that mode. *)
Lemma ensure_loop_appends now ms db :
  exists added,
    aiCollaborationModes (db_of (ensure_loop now ms db))
    = aiCollaborationModes db ++ added
    /\ (forall r, In r added ->
          r = seed_row now (mr_mode r)
          /\ rows_of_mode (mr_mode r) (aiCollaborationModes db) = [])
    /\ modeTransitionHistory (db_of (ensure_loop now ms db)) = modeTransitionHistory db
    /\ history_seq (db_of (ensure_loop now ms db)) = history_seq db.
Proof.
  revert db. induction ms as [|m ms IH]; intros db.
  - exists []. cbn. rewrite app_nil_r. split; [done|]. split; [|done]. intros r [].
  - cbn [ensure_loop].
    destruct (ensure_one_appends now m db) as (a1 & H1 & H2 & H3 & H4).
    destruct (ensure_one now m db) as [[] d1|e d1] eqn:E1; cbn [db_of] in *.
    + destruct (IH d1) as (a2 & G1 & G2 & G3 & G4).
      exists (a1 ++ a2). rewrite G1, H1, G3, G4, H3, H4, app_assoc.
      split; [done|]. split; [|done].
      intros r [Hr|Hr]%in_app_or.
      * destruct (H2 r Hr) as [-> Hrows]. done.
      * destruct (G2 r Hr) as [Hseed Hrows]. split; [done|].
        rewrite H1, rows_of_mode_app in Hrows. by apply app_eq_nil in Hrows as [? _].
    + exists a1. split; [done|]. split; [|done].
      intros r Hr. destruct (H2 r Hr) as [-> Hrows]. done.
Qed.

(** The loop leaves the rows of a mode outside its list alone. *)
Lemma ensure_loop_other now ms m db :
  ~ In m ms ->
  rows_of_mode m (aiCollaborationModes (db_of (ensure_loop now ms db)))
  = rows_of_mode m (aiCollaborationModes db)
  /\ caps_of_mode m (modeCapabilities (db_of (ensure_loop now ms db)))
     = caps_of_mode m (modeCapabilities db).
Proof.
  revert db. induction ms as [|m0 ms IH]; intros db Hnotin; [done|].
  cbn [ensure_loop].
  assert (m <> m0) as Hne by (intros ->; apply Hnotin; by left).
  pose proof (ensure_one_other now m0 m db Hne) as [H1 H2].
  destruct (ensure_one now m0 db) as [[] d1|e d1]; cbn [db_of] in *; [|done].
  destruct (IH d1) as [G1 G2]; [intros Hin; apply Hnotin; by right|].
  split; congruence.
Qed.

(** When the loop returns, a mode of the list that had no row has its
    seed row and its seed capabilities, and nothing else. *)
Lemma ensure_loop_seeds now ms db db' m :
  NoDup ms -> In m ms ->
  rows_of_mode m (aiCollaborationModes db) = [] ->
  ensure_loop now ms db = Returned tt db' ->
  rows_of_mode m (aiCollaborationModes db') = [seed_row now m]
  /\ caps_of_mode m (modeCapabilities db') = [seed_cap m].
Proof.
  revert db. induction ms as [|m0 ms IH]; intros db Hnd Hin Hrows; [destruct Hin|].
  apply NoDup_cons in Hnd as [Hnotin Hnd]. rewrite list_elem_of_In in Hnotin.
  cbn [ensure_loop].
  destruct (ensure_one now m0 db) as [[] d1|e d1] eqn:E1; [|discriminate].
  intros Hloop.
  destruct (decide (m = m0)) as [->|Hne].
  - (* this iteration seeds the mode; the later ones are for other modes *)
    assert (rows_of_mode m0 (aiCollaborationModes d1) = [seed_row now m0]
            /\ caps_of_mode m0 (modeCapabilities d1) = [seed_cap m0]) as [R C].
    { destruct (ensure_one_cases now m0 db) as [[H _]|[(_ & _ & e & H)|(_ & Hc & H)]].
      - done.
      - rewrite H in E1. discriminate.
      - rewrite H in E1. injection E1 as <-.
        cbn [with_modes with_caps aiCollaborationModes modeCapabilities].
        rewrite rows_of_mode_app, caps_of_mode_app, Hrows, Hc,
          rows_of_mode_seed, caps_of_mode_seed.
        by rewrite !bool_decide_eq_true_2 by done. }
    destruct (ensure_loop_other now ms m0 d1 Hnotin) as [G1 G2].
    rewrite Hloop in G1, G2. cbn [db_of] in G1, G2. split; congruence.
  - destruct Hin as [->|Hin]; [done|].
    pose proof (ensure_one_other now m0 m db Hne) as [H1 _].
    rewrite E1 in H1. cbn [db_of] in H1.
    apply (IH d1); [done|done| |done]. congruence.
Qed.

(** The loop throws exactly when a mode of the list has a capability row
    but no mode row. *)
Lemma ensure_loop_throws now ms db :
  NoDup ms ->
  (exists e, ensure_loop now ms db = Thrown e (db_of (ensure_loop now ms db)))
  <-> (exists m, In m ms
                 /\ rows_of_mode m (aiCollaborationModes db) = []
                 /\ caps_of_mode m (modeCapabilities db) <> []).
Proof.
  revert db. induction ms as [|m0 ms IH]; intros db Hnd.
  - cbn. split; [intros [e [=]]|intros (m & [] & _)].
  - apply NoDup_cons in Hnd as [Hnotin Hnd]. rewrite list_elem_of_In in Hnotin.
    cbn [ensure_loop].
    destruct (ensure_one_cases now m0 db) as [[Hr E]|[(Hr & Hc & e & E)|(Hr & Hc & E)]];
      rewrite E.
    + rewrite (IH db Hnd). split.
      * intros (m & Hin & H1 & H2). exists m. split; [by right|done].
      * intros (m & [->|Hin] & H1 & H2); [done|]. by exists m.
    + cbn [db_of]. split; [|by eauto]. intros _. exists m0. split; [by left|done].
    + set (d1 := with_caps _ _).
      assert (forall m', m' <> m0 ->
                rows_of_mode m' (aiCollaborationModes d1)
                = rows_of_mode m' (aiCollaborationModes db)
                /\ caps_of_mode m' (modeCapabilities d1)
                   = caps_of_mode m' (modeCapabilities db)) as Hother.
      { intros m' Hm'. pose proof (ensure_one_other now m0 m' db Hm') as H.
        by rewrite E in H. }
      rewrite (IH d1 Hnd). split.
      * intros (m & Hin & H1 & H2).
        assert (m <> m0) as Hne by (intros ->; contradiction).
        destruct (Hother m Hne) as [G1 G2].
        exists m. split; [by right|]. by rewrite <- G1, <- G2.
      * intros (m & [->|Hin] & H1 & H2); [done|].
        assert (m <> m0) as Hne by (intros ->; contradiction).
        destruct (Hother m Hne) as [G1 G2].
        exists m. by rewrite G1, G2.
Qed.

Lemma modes_NoDup : NoDup [inspired; didactic; parallel].
Proof. by apply (bool_decide_unpack _). Qed.

Lemma modes_all m : In m [inspired; didactic; parallel].
Proof. destruct m; cbn; tauto. Qed.

(** X1.  [ensureModesExist] only appends to the mode table: the rows that
    were there stay as they are and where they are, a row is added only for
    a mode that had none, and it is that mode's seed row (active for
    inspired only, no configuration).  It never touches the history.  Once
    it has returned, calling it again changes nothing. *)
Theorem ensureModesExist_appends_once now now' db db' :
  ensureModesExist now db = Returned tt db' ->
  (exists added,
      aiCollaborationModes db' = aiCollaborationModes db ++ added
      /\ forall r, In r added ->
           r = seed_row now (mr_mode r)
           /\ rows_of_mode (mr_mode r) (aiCollaborationModes db) = [])
  /\ modeTransitionHistory db' = modeTransitionHistory db
  /\ ensureModesExist now' db' = Returned tt db'.
Proof.
  intros Hens.
  destruct (ensure_loop_appends now [inspired; didactic; parallel] db)
    as (added & H1 & H2 & H3 & _).
  fold (ensureModesExist now db) in H1, H3. rewrite Hens in H1, H3. cbn in H1, H3.
  split; [by exists added|]. split; [done|].
  apply ensureModesExist_idle. by apply (ensureModesExist_spec now db).
Qed.

Lemma ensureModesExist_appends_once_witness :
  (exists added,
      aiCollaborationModes (calls [CallGetModeStatus 5 didactic]) = [] ++ added
      /\ forall r, In r added ->
           r = seed_row 5 (mr_mode r) /\ rows_of_mode (mr_mode r) [] = [])
  /\ modeTransitionHistory (calls [CallGetModeStatus 5 didactic]) = []
  /\ ensureModesExist 9 (calls [CallGetModeStatus 5 didactic])
     = Returned tt (calls [CallGetModeStatus 5 didactic]).
Proof.
  apply (ensureModesExist_appends_once 5 9 emptyDb). reflexivity.
Defined.

(** A loop that throws has appended a row. *)
Lemma ensure_loop_thrown_adds now ms d e d' :
  ensure_loop now ms d = Thrown e d' ->
  aiCollaborationModes d' <> aiCollaborationModes d.
Proof.
  revert d. induction ms as [|m0 ms IH]; intros d; [discriminate|].
  cbn [ensure_loop].
  destruct (ensure_one_cases now m0 d)
    as [[_ E]|[(_ & _ & e0 & E)|(_ & _ & E)]]; rewrite E.
  - apply IH.
  - intros [= <- <-]. cbn. intros Heq.
    apply (f_equal (@List.length _)) in Heq.
    rewrite length_app in Heq. cbn in Heq. lia.
  - intros Hloop Heq.
    destruct (ensure_loop_appends now ms
                (with_caps (modeCapabilities d ++ [seed_cap m0])
                   (with_modes (aiCollaborationModes d ++ [seed_row now m0]) d)))
      as (a & G & _).
    rewrite Hloop in G. cbn in G. rewrite G in Heq.
    apply (f_equal (@List.length _)) in Heq.
    rewrite !length_app in Heq. cbn in Heq. lia.
Qed.

(** X2.  [ensureModesExist] throws exactly when some mode has a capability
    row but no mode row: the insert into [mode_capabilities] then violates
    the unique constraint on its [mode] column.  The mode row inserted just
    before stays, the history is untouched, and [mode:switch-mode], which
    calls [ensureModesExist] outside its [try], throws the same error
    without recording the failed switch. *)
Theorem ensureModesExist_orphan_capability now db :
  ((exists m, rows_of_mode m (aiCollaborationModes db) = []
              /\ caps_of_mode m (modeCapabilities db) <> [])
   <-> exists e db', ensureModesExist now db = Thrown e db')
  /\ (forall e db',
        ensureModesExist now db = Thrown e db' ->
        modeTransitionHistory db' = modeTransitionHistory db
        /\ (exists added, aiCollaborationModes db' = aiCollaborationModes db ++ added
                          /\ added <> [])
        /\ forall clk params,
             t_ensure clk = now -> switchMode clk params db = Thrown e db').
Proof.
  split.
  - pose proof (ensure_loop_throws now [inspired; didactic; parallel] db modes_NoDup)
      as Hiff.
    fold (ensureModesExist now db) in Hiff. split.
    + intros (m & H1 & H2). destruct Hiff as [_ Hiff].
      destruct Hiff as [e He]; [exists m; split; [apply modes_all|done]|]. eauto.
    + intros (e & db' & He). destruct Hiff as [Hiff _].
      destruct Hiff as (m & _ & H); [|by exists m].
      exists e. rewrite He. done.
  - intros e db' He.
    destruct (ensure_loop_appends now [inspired; didactic; parallel] db)
      as (added & H1 & H2 & H3 & _).
    fold (ensureModesExist now db) in H1, H3. rewrite He in H1, H3. cbn in H1, H3.
    split; [done|]. split.
    + exists added. split; [done|]. intros ->. rewrite app_nil_r in H1.
      by apply (ensure_loop_thrown_adds _ _ _ _ _ He).
    + intros clk params <-. unfold switchMode. by rewrite He.
Qed.

(** The number of modes without a row. *)
Lemma ensureModesExist_progress now db :
  let missing d :=
    List.length (List.filter
                   (fun m => bool_decide (rows_of_mode m (aiCollaborationModes d) = []))
                   [inspired; didactic; parallel]) in
  (missing (db_of (ensureModesExist now db)) = 0
   \/ missing (db_of (ensureModesExist now db)) < missing db)%nat.
Proof.
  intros missing.
  destruct (ensure_loop_appends now [inspired; didactic; parallel] db)
    as (added & H1 & H2 & _).
  fold (ensureModesExist now db) in H1.
  destruct (ensureModesExist now db) as [[] d|e d] eqn:Hens; cbn [db_of] in *.
  - left. destruct (ensureModesExist_spec _ _ _ Hens) as (Hex & _).
    unfold missing. cbn [List.filter].
    rewrite !bool_decide_eq_false_2 by apply Hex. done.
  - right.
    destruct added as [|r added].
    { rewrite app_nil_r in H1. by apply ensure_loop_thrown_adds in Hens. }
    destruct (H2 r) as [_ Hr]; [by left|].
    assert (rows_of_mode (mr_mode r) (aiCollaborationModes d) <> []) as Hr'.
    { rewrite H1, rows_of_mode_app. cbn [rows_of_mode List.filter].
      rewrite bool_decide_eq_true_2 by done. by destruct (rows_of_mode _ _). }
    assert (forall m, rows_of_mode m (aiCollaborationModes d) = [] ->
                      rows_of_mode m (aiCollaborationModes db) = []) as Hmono.
    { intros m. rewrite H1, rows_of_mode_app. by intros [? _]%app_eq_nil. }
    unfold missing. cbn [List.filter].
    pose proof (Hmono inspired). pose proof (Hmono didactic).
    pose proof (Hmono parallel).
    destruct (mr_mode r);
      repeat case_bool_decide; cbn [List.length]; try lia; tauto.
Qed.

(** X3.  [ensureModesExist] cannot keep failing: each call that throws
    has inserted the row of the mode it failed on, so after at most three
    failed calls in a row the next call returns, whatever the database
    held at the start. *)
Theorem ensureModesExist_recovers n1 n2 n3 n4 db :
  let d1 := db_of (ensureModesExist n1 db) in
  let d2 := db_of (ensureModesExist n2 d1) in
  let d3 := db_of (ensureModesExist n3 d2) in
  ensureModesExist n4 d3 = Returned tt d3.
Proof.
  intros d1 d2 d3.
  pose proof (ensureModesExist_progress n1 db) as P1.
  pose proof (ensureModesExist_progress n2 d1) as P2.
  pose proof (ensureModesExist_progress n3 d2) as P3.
  cbv zeta in P1, P2, P3. fold d1 in P1, P2. fold d2 in P2, P3. fold d3 in P3.
  set (missing d :=
         List.length (List.filter
                        (fun m => bool_decide (rows_of_mode m (aiCollaborationModes d) = []))
                        [inspired; didactic; parallel])) in *.
  assert (missing db <= 3)%nat as Hle.
  { unfold missing. etrans; [apply List.filter_length_le|]. done. }
  assert (missing d3 = 0%nat) as H0 by lia.
  apply ensureModesExist_idle. intros m.
  revert H0. unfold missing. cbn [List.filter].
  destruct m; repeat case_bool_decide; cbn [List.length]; try done; lia.
Qed.

(** ** Series of calls on a fresh database *)

(** Splits a seeded mode table into its three rows. *)
Ltac three_rows db Hs :=
  let t := fresh "t" in
  let caps := fresh "caps" in
  let h := fresh "h" in
  let s := fresh "s" in
  let Hm := fresh "Hm" in
  let Ha := fresh "Ha" in
  destruct db as [t caps h s]; destruct Hs as [Hm Ha];
  cbn [aiCollaborationModes] in Hm, Ha;
  destruct t as [|[m1 a1 c1 l1] [|[m2 a2 c2 l2] [|[m3 a3 c3 l3] [|]]]];
  try discriminate;
  cbn in Hm, Ha;
  injection Hm as -> -> ->; injection Ha as -> -> ->.

Lemma seeded_idle cur db now :
  seeded cur db -> ensureModesExist now db = Returned tt db.
Proof. intros Hs. three_rows db Hs. reflexivity. Qed.

Lemma seeded_currentModeOf cur db : seeded cur db -> currentModeOf db = Some cur.
Proof. intros Hs. three_rows db Hs. by destruct cur. Qed.

Lemma seeded_snapshotCurrentMode cur db :
  seeded cur db -> snapshotCurrentMode db = cur.
Proof. intros Hs. three_rows db Hs. by destruct cur. Qed.

Lemma seeded_one_active cur db :
  seeded cur db -> List.length (active_rows (aiCollaborationModes db)) = 1%nat.
Proof. intros Hs. three_rows db Hs. by destruct cur. Qed.

Lemma seeded_fresh now :
  exists db0, ensureModesExist now emptyDb = Returned tt db0
              /\ seeded inspired db0
              /\ modeTransitionHistory db0 = []
              /\ history_seq db0 = 0.
Proof. eexists. split; [reflexivity|]. done. Qed.

(** The body of [mode:switch-mode] on a seeded database. *)
Lemma seeded_switch clk params cur db db0 :
  ensureModesExist (t_ensure clk) db = Returned tt db0 ->
  seeded cur db0 ->
  exists row,
    modeTransitionHistory (db_of (switchMode clk params db))
    = modeTransitionHistory db0 ++ [row]
    /\ history_seq (db_of (switchMode clk params db)) = history_seq db0 + 1
    /\ h_id row = history_seq db0 + 1
    /\ h_toMode row = targetMode params
    /\ modeCapabilities (db_of (switchMode clk params db)) = modeCapabilities db0
    /\ ((cur = targetMode params
         /\ (exists e, switchMode clk params db
                       = Thrown e (db_of (switchMode clk params db)))
         /\ h_success row = false /\ h_fromMode row = None
         /\ h_createdAt row = t_insert_catch clk
         /\ aiCollaborationModes (db_of (switchMode clk params db))
            = aiCollaborationModes db0)
        \/ (cur <> targetMode params
            /\ (exists r, switchMode clk params db
                          = Returned r (db_of (switchMode clk params db))
                          /\ res_transition r = to_record row)
            /\ h_success row = true /\ h_fromMode row = Some cur
            /\ h_createdAt row = t_insert clk
            /\ seeded (targetMode params) (db_of (switchMode clk params db)))).
Proof.
  intros Hens Hs. unfold switchMode. rewrite Hens. clear Hens db.
  three_rows db0 Hs. destruct params as [target snap].
  destruct cur, target; cbn; eexists;
    (repeat (split; [reflexivity|]));
    first [ left; split; [reflexivity|]; split; [eexists; reflexivity|]; done
          | right; split; [discriminate|]; split; [eexists; split; reflexivity|]; done ].
Qed.

(** The body of [mode:update-configuration] on a seeded database. *)
Lemma seeded_update now params cur db db0 :
  ensureModesExist now db = Returned tt db0 ->
  seeded cur db0 ->
  exists st,
    updateConfiguration now params db
    = Returned st (update_mode (up_mode params)
                     (set_configuration (up_configuration params)) db0)
    /\ seeded cur (update_mode (up_mode params)
                     (set_configuration (up_configuration params)) db0).
Proof.
  intros Hens Hs. unfold updateConfiguration. rewrite Hens. clear Hens db.
  three_rows db0 Hs. destruct params as [mode cfg].
  destruct mode; cbn; eexists; (split; [reflexivity|]); done.
Qed.

(** What a call does to a database whose modes are in place. *)
Lemma call_seeded c cur db :
  seeded cur db ->
  exists cur',
    seeded cur' (call db c)
    /\ modeCapabilities (call db c) = modeCapabilities db
    /\ match c with
       | CallSwitchMode clk params =>
           exists row,
             modeTransitionHistory (call db c) = modeTransitionHistory db ++ [row]
             /\ history_seq (call db c) = history_seq db + 1
             /\ h_id row = history_seq db + 1
             /\ h_toMode row = targetMode params
             /\ (if bool_decide (cur = targetMode params)
                 then h_success row = false /\ h_fromMode row = None /\ cur' = cur
                 else h_success row = true /\ h_fromMode row = Some cur
                      /\ cur' = targetMode params)
       | _ =>
           modeTransitionHistory (call db c) = modeTransitionHistory db
           /\ history_seq (call db c) = history_seq db
           /\ cur' = cur
       end.
Proof.
  intros Hs. destruct c as [now recs|now mode|clk params|now params]; cbn [call].
  - exists cur. unfold getState. rewrite (seeded_idle cur db now Hs). done.
  - exists cur. unfold getModeStatus. rewrite (seeded_idle cur db now Hs). done.
  - destruct (seeded_switch clk params cur db db (seeded_idle cur db _ Hs) Hs)
      as (row & H1 & H2 & H3 & H4 & H5 & H6).
    destruct H6 as [(E & _ & G1 & G2 & _ & G3)|(E & _ & G1 & G2 & _ & G3)].
    + exists cur. split.
      { destruct Hs as [Hm Ha]. split; by rewrite G3. }
      split; [done|]. exists row. rewrite bool_decide_eq_true_2 by done. done.
    + exists (targetMode params). split; [done|]. split; [done|].
      exists row. rewrite bool_decide_eq_false_2 by done. done.
  - destruct (seeded_update now params cur db db (seeded_idle cur db _ Hs) Hs)
      as (st & E & Hs').
    exists cur. rewrite E. cbn [db_of]. done.
Qed.

(** The first call finds a fresh database; [ensureModesExist] seeds it and
    the handler goes on as on a seeded one. *)
Lemma call_fresh c :
  exists db0, seeded inspired db0
              /\ modeTransitionHistory db0 = [] /\ history_seq db0 = 0
              /\ call emptyDb c = call db0 c.
Proof.
  destruct c as [now recs|now mode|clk params|now params].
  - destruct (seeded_fresh now) as (db0 & E & Hs & Hh & Hq).
    exists db0. repeat (split; [done|]). cbn [call]. unfold getState.
    by rewrite E, (seeded_idle inspired db0 now Hs).
  - destruct (seeded_fresh now) as (db0 & E & Hs & Hh & Hq).
    exists db0. repeat (split; [done|]). cbn [call]. unfold getModeStatus.
    by rewrite E, (seeded_idle inspired db0 now Hs).
  - destruct (seeded_fresh (t_ensure clk)) as (db0 & E & Hs & Hh & Hq).
    exists db0. repeat (split; [done|]). cbn [call]. unfold switchMode.
    by rewrite E, (seeded_idle inspired db0 _ Hs).
  - destruct (seeded_fresh now) as (db0 & E & Hs & Hh & Hq).
    exists db0. repeat (split; [done|]). cbn [call]. unfold updateConfiguration.
    by rewrite E, (seeded_idle inspired db0 now Hs).
Qed.

Lemma follows_app cur rows r :
  follows cur (rows ++ [r])
  = match follows cur rows with
    | Some c => follows c [r]
    | None => None
    end.
Proof.
  revert cur. induction rows as [|x rows IH]; intros cur; [by destruct (follows cur [r])|].
  cbn [follows app].
  destruct (h_success x).
  - destruct (_ && _); [apply IH|done].
  - destruct (bool_decide _); [apply IH|done].
Qed.

Lemma map_seq_next (a : Z) n :
  List.map (fun i => a + 1 + Z.of_nat i) (seq 1 n)
  = List.map (fun i => a + Z.of_nat i) (seq 2 n).
Proof.
  rewrite <- (seq_shift n 1), List.map_map. apply List.map_ext. intros i. lia.
Qed.

(** The invariant of a series of calls, from any seeded start. *)
Lemma calls_from cs cur db start :
  seeded cur db ->
  follows start (modeTransitionHistory db) = Some cur ->
  history_seq db = Z.of_nat (List.length (modeTransitionHistory db)) ->
  exists cur',
    seeded cur' (fold_left call cs db)
    /\ follows start (modeTransitionHistory (fold_left call cs db)) = Some cur'
    /\ history_seq (fold_left call cs db)
       = Z.of_nat (List.length (modeTransitionHistory (fold_left call cs db)))
    /\ List.map h_toMode (modeTransitionHistory (fold_left call cs db))
       = List.map h_toMode (modeTransitionHistory db) ++ switch_targets cs
    /\ List.map h_id (modeTransitionHistory (fold_left call cs db))
       = List.map h_id (modeTransitionHistory db)
         ++ List.map (fun i => history_seq db + Z.of_nat i)
              (seq 1 (List.length (switch_targets cs))).
Proof.
  revert cur db. induction cs as [|c cs IH]; intros cur db Hs Hf Hq.
  - exists cur. cbn. by rewrite !app_nil_r.
  - cbn [fold_left].
    destruct (call_seeded c cur db Hs) as (cur' & Hs' & _ & Hc).
    destruct c as [now recs|now mode|clk params|now params];
      try (destruct Hc as (Hh & Hq' & ->);
           destruct (IH cur (call db _) Hs') as (cur2 & G1 & G2 & G3 & G4 & G5);
           [by rewrite Hh|by rewrite Hh, Hq'|];
           exists cur2; rewrite G4, G5, Hh, Hq'; done).
    destruct Hc as (row & Hh & Hq' & Hid & Hto & Hcase).
    destruct (IH cur' (call db (CallSwitchMode clk params)) Hs')
      as (cur2 & G1 & G2 & G3 & G4 & G5).
    + rewrite Hh, follows_app, Hf. cbn [follows].
      destruct (bool_decide (cur = targetMode params)) eqn:E.
      * destruct Hcase as (-> & -> & ->). done.
      * destruct Hcase as (-> & -> & ->). apply bool_decide_eq_false_1 in E.
        rewrite Hto, bool_decide_eq_true_2 by done.
        rewrite bool_decide_eq_false_2 by congruence. done.
    + rewrite Hh, Hq', length_app. cbn. lia.
    + exists cur2. split; [done|]. split; [done|]. split; [done|].
      rewrite G4, G5, Hh, Hq', !map_app. cbn [List.map switch_targets omap list_omap].
      rewrite Hto, Hid, <- !app_assoc. cbn [List.length seq List.map app].
      fold (switch_targets cs).
      split; [done|]. f_equal. f_equal. apply map_seq_next.
Qed.

(** The same from a fresh database. *)
Lemma calls_inv c cs :
  exists cur,
    seeded cur (calls (c :: cs))
    /\ follows inspired (modeTransitionHistory (calls (c :: cs))) = Some cur
    /\ List.map h_toMode (modeTransitionHistory (calls (c :: cs)))
       = switch_targets (c :: cs)
    /\ List.map h_id (modeTransitionHistory (calls (c :: cs)))
       = List.map Z.of_nat (seq 1 (List.length (switch_targets (c :: cs)))).
Proof.
  unfold calls. cbn [fold_left].
  destruct (call_fresh c) as (db0 & Hs & Hh & Hq & ->).
  change (fold_left call cs (call db0 c)) with (fold_left call (c :: cs) db0).
  destruct (calls_from (c :: cs) inspired db0 inspired Hs) as (cur & G1 & G2 & G3 & G4 & G5).
  { by rewrite Hh. }
  { by rewrite Hh, Hq. }
  exists cur. rewrite G4, G5, Hh, Hq. cbn [List.map app].
  repeat (split; [done|]). apply List.map_ext. intros i. lia.
Qed.

(** X4.  However the handlers are called on a fresh database, from the
    first call on the mode table holds exactly one row per mode and
    exactly one of them is active; [ensureModesExist] finds nothing to
    add, so no later call throws from it. *)
Theorem one_active_mode c cs :
  List.map mr_mode (aiCollaborationModes (calls (c :: cs)))
  = [inspired; didactic; parallel]
  /\ List.length (active_rows (aiCollaborationModes (calls (c :: cs)))) = 1%nat
  /\ currentModeOf (calls (c :: cs)) = Some (snapshotCurrentMode (calls (c :: cs)))
  /\ forall now, ensureModesExist now (calls (c :: cs)) = Returned tt (calls (c :: cs)).
Proof.
  destruct (calls_inv c cs) as (cur & Hs & _).
  split; [apply Hs|]. split; [by apply (seeded_one_active cur)|].
  split; [by rewrite (seeded_currentModeOf cur), (seeded_snapshotCurrentMode cur)|].
  intros now. by apply (seeded_idle cur).
Qed.

(** X5.  After any series of handler calls on a fresh database the
    transition history holds exactly one row per [mode:switch-mode] call,
    successful or not, in call order: the row's [toMode] is the target of
    the call and its id is its position, counted from 1.  The other
    handlers write nothing to the history. *)
Theorem history_per_switch cs :
  List.map h_toMode (modeTransitionHistory (calls cs)) = switch_targets cs
  /\ List.map h_id (modeTransitionHistory (calls cs))
     = List.map Z.of_nat (seq 1 (List.length (switch_targets cs))).
Proof.
  destruct cs as [|c cs]; [done|].
  destruct (calls_inv c cs) as (cur & _ & _ & H1 & H2). done.
Qed.

(** X6.  The history of a database the handlers made reads as a walk
    through the modes: starting from inspired, every row marked successful
    leaves the mode reached so far (its [fromMode]) for a different one
    (its [toMode]), every row marked failed names no [fromMode], and the
    mode reached at the end is the one [mode:get-state] reports as
    current. *)
Theorem history_follows_modes cs :
  follows inspired (modeTransitionHistory (calls cs))
  = Some (snapshotCurrentMode (calls cs)).
Proof.
  destruct cs as [|c cs]; [done|].
  destruct (calls_inv c cs) as (cur & Hs & Hf & _).
  by rewrite (seeded_snapshotCurrentMode cur).
Qed.

(** ** Single calls *)

(** X7.  [mode:update-configuration], once [ensureModesExist] has
    returned, always returns (its own error is never thrown): the status it
    returns is that of the mode asked for and carries the new
    configuration, with the active flag, the activation time and the
    capabilities the mode had.  No mode changes its active flag, the
    status of every other mode is what it was, and nothing is written to
    the history. *)
Theorem updateConfiguration_spec now params db db0 :
  ensureModesExist now db = Returned tt db0 ->
  exists st st0 db',
    updateConfiguration now params db = Returned st db'
    /\ getModeWithCapabilities (up_mode params) db0 = Some st0
    /\ st = {| st_mode := up_mode params;
               st_isActive := st_isActive st0;
               st_lastActivatedAt := st_lastActivatedAt st0;
               st_configuration := up_configuration params;
               st_capabilities := st_capabilities st0 |}
    /\ List.map mr_isActive (aiCollaborationModes db')
       = List.map mr_isActive (aiCollaborationModes db0)
    /\ modeTransitionHistory db' = modeTransitionHistory db
    /\ forall m, m <> up_mode params ->
         getModeWithCapabilities m db' = getModeWithCapabilities m db0.
Proof.
  intros Hens.
  destruct (ensureModesExist_spec _ _ _ Hens) as (Hex & Hhist & _).
  unfold updateConfiguration. rewrite Hens.
  set (f := set_configuration (up_configuration params)).
  assert (forall m,
            getModeWithCapabilities m (update_mode (up_mode params) f db0)
            = match getModeWithCapabilities m db0 with
              | Some s =>
                  Some (if bool_decide (m = up_mode params)
                        then {| st_mode := st_mode s; st_isActive := st_isActive s;
                                st_lastActivatedAt := st_lastActivatedAt s;
                                st_configuration := up_configuration params;
                                st_capabilities := st_capabilities s |}
                        else s)
              | None => None
              end) as Hget.
  { intros m. unfold getModeWithCapabilities.
    cbn [update_mode aiCollaborationModes modeCapabilities].
    rewrite rows_of_mode_update by done.
    destruct (rows_of_mode m (aiCollaborationModes db0)) as [|r rs] eqn:E; [done|].
    apply rows_of_mode_head in E. subst m. cbn [List.map].
    by destruct (bool_decide (mr_mode r = up_mode params)). }
  rewrite (Hget (up_mode params)).
  destruct (getModeWithCapabilities (up_mode params) db0) as [st0|] eqn:E0.
  - rewrite bool_decide_eq_true_2 by done.
    assert (st_mode st0 = up_mode params) as Hm.
    { revert E0. unfold getModeWithCapabilities.
      destruct (rows_of_mode _ _) as [|r rs] eqn:E; [done|].
      apply rows_of_mode_head in E. by intros [= <-]. }
    eexists _, st0, _. split; [reflexivity|]. split; [done|]. rewrite Hm.
    split; [done|]. split.
    { cbn [update_mode aiCollaborationModes]. rewrite List.map_map.
      apply List.map_ext. intros r. by destruct (bool_decide _). }
    split; [done|].
    intros m Hne. rewrite (Hget m), bool_decide_eq_false_2 by done.
    by destruct (getModeWithCapabilities m db0).
  - exfalso. revert E0. unfold getModeWithCapabilities.
    pose proof (Hex (up_mode params)).
    by destruct (rows_of_mode _ _).
Qed.

Lemma updateConfiguration_spec_witness :
  exists st st0 db',
    updateConfiguration 7 {| up_mode := didactic; up_configuration := Some "{}" |}
      emptyDb = Returned st db'
    /\ getModeWithCapabilities didactic (calls [CallGetModeStatus 7 didactic])
       = Some st0
    /\ st_configuration st = Some "{}"
    /\ st_isActive st = false.
Proof.
  destruct (updateConfiguration_spec 7
              {| up_mode := didactic; up_configuration := Some "{}" |}
              emptyDb (calls [CallGetModeStatus 7 didactic]) eq_refl)
    as (st & st0 & db' & H1 & H2 & H3 & _).
  exists st, st0, db'. split; [exact H1|]. split; [exact H2|].
  rewrite H3. cbn [st_configuration st_isActive]. split; [reflexivity|].
  injection H2 as <-. reflexivity.
Defined.

(** X8.  [mode:get-mode-status] never returns null: when it returns at
    all, it returns a status of the mode asked for.  For a mode that had
    no row before the call, that status is the seed: active exactly for
    inspired, no configuration, and the default capabilities of the mode.
    The activation time of the seed of inspired is the time of the call
    truncated to the second, as the timestamp column gives it back; the
    other seeds have none. *)
Theorem getModeStatus_seeded now mode db st db' :
  getModeStatus now mode db = Returned st db' ->
  (exists s, st = Some s /\ st_mode s = mode)
  /\ (rows_of_mode mode (aiCollaborationModes db) = [] ->
      st = Some {| st_mode := mode;
                   st_isActive := bool_decide (mode = inspired);
                   st_lastActivatedAt :=
                     if bool_decide (mode = inspired)
                     then Some (stored_timestamp now) else None;
                   st_configuration := None;
                   st_capabilities := getDefaultCapabilities mode |}).
Proof.
  unfold getModeStatus.
  destruct (ensureModesExist now db) as [[] db0|] eqn:Hens; [|discriminate].
  intros [= <- <-].
  destruct (ensureModesExist_spec _ _ _ Hens) as (Hex & _).
  split.
  - unfold getModeWithCapabilities. pose proof (Hex mode).
    destruct (rows_of_mode mode _) as [|r rs] eqn:E; [done|].
    apply rows_of_mode_head in E. eexists. split; [reflexivity|]. done.
  - intros Hrows.
    destruct (ensure_loop_seeds now [inspired; didactic; parallel] db db0 mode
                modes_NoDup (modes_all mode) Hrows Hens) as [R C].
    unfold getModeWithCapabilities. rewrite R, C. by destruct mode.
Qed.

Lemma getModeStatus_seeded_witness :
  getModeStatus 5999 inspired emptyDb
  = Returned (Some {| st_mode := inspired; st_isActive := true;
                      st_lastActivatedAt := Some 5000; st_configuration := None;
                      st_capabilities := getDefaultCapabilities inspired |})
      (calls [CallGetModeStatus 5999 inspired]).
Proof.
  destruct (getModeStatus_seeded 5999 inspired emptyDb
              (getModeWithCapabilities inspired
                 (calls [CallGetModeStatus 5999 inspired]))
              (calls [CallGetModeStatus 5999 inspired]) eq_refl) as [_ H].
  unfold getModeStatus.
  change (ensureModesExist 5999 emptyDb)
    with (Returned tt (calls [CallGetModeStatus 5999 inspired])).
  cbv beta iota. rewrite (H eq_refl). reflexivity.
Defined.

(** ** The history query *)

Lemma insert_newest_perm r l : Permutation (r :: l) (insert_newest r l).
Proof.
  induction l as [|x l IH]; [done|]. cbn [insert_newest].
  destruct (h_createdAt x <? h_createdAt r); [done|].
  rewrite Permutation_swap. by constructor.
Qed.

Lemma insert_newest_sorted r l :
  Sorted (fun a b => h_createdAt b <= h_createdAt a) l ->
  Sorted (fun a b => h_createdAt b <= h_createdAt a) (insert_newest r l).
Proof.
  induction l as [|x l IH]; intros Hs; [repeat constructor|].
  cbn [insert_newest]. destruct (Z.ltb_spec (h_createdAt x) (h_createdAt r)).
  - constructor; [done|]. constructor. lia.
  - apply Sorted_inv in Hs as [Hs Hhd]. constructor; [by apply IH|].
    destruct l as [|y l]; cbn [insert_newest].
    + constructor. lia.
    + destruct (Z.ltb_spec (h_createdAt y) (h_createdAt r)); constructor.
      * lia.
      * by apply HdRel_inv in Hhd.
Qed.

(** The answer [recent_history] gives is one the query may give. *)
Lemma recent_history_newest_first n table :
  newest_first n table (recent_history n table).
Proof.
  exists (fold_right insert_newest [] table). split; [|split; [|done]].
  - induction table as [|r t IH]; [done|]. cbn [fold_right].
    rewrite <- insert_newest_perm. by constructor.
  - induction table as [|r t IH]; [constructor|]. cbn [fold_right].
    by apply insert_newest_sorted.
Qed.

(** A row newer than all others comes first in every answer. *)
Lemma newest_first_head n table row recs :
  (0 < n)%nat ->
  (forall r, In r table -> h_createdAt r < h_createdAt row) ->
  newest_first n (table ++ [row]) recs ->
  exists rest, recs = row :: rest /\ (List.length recs <= n)%nat.
Proof.
  intros Hn Hnew (sorted & Hperm & Hsorted & ->).
  assert (List.length (take n sorted) <= n)%nat as Hlen
    by (rewrite length_take; lia).
  destruct sorted as [|x rest].
  { apply Permutation_length in Hperm. rewrite length_app in Hperm. cbn in Hperm. lia. }
  assert (x = row) as ->.
  { apply Sorted_StronglySorted in Hsorted; [|intros a b c; cbn; lia].
    apply StronglySorted_inv in Hsorted as [_ Hall].
    rewrite List.Forall_forall in Hall.
    assert (In x (table ++ [row])) as Hx.
    { apply list_elem_of_In. rewrite Hperm. by left. }
    apply in_app_or in Hx as [Hx|[Hx|[]]]; [|done].
    assert (In row (x :: rest)) as Hrow.
    { apply list_elem_of_In. rewrite <- Hperm. apply list_elem_of_In, in_or_app.
      right. by left. }
    destruct Hrow as [Hrow|Hrow]; [done|].
    specialize (Hall row Hrow). specialize (Hnew x Hx). cbn in Hall. lia. }
  destruct n as [|n]; [lia|]. cbn [take]. eexists. split; [reflexivity|].
  exact Hlen.
Qed.

(** X9.  [mode:get-state] reads the previous mode off the newest history
    row.  On a database whose modes are in place with [cur] active, let a
    [mode:switch-mode] call be followed by [mode:get-state], the row the
    switch records being newer than every older row.  Then the snapshot
    lists that row first among at most ten; after a successful switch it
    reports the target as current and [cur] as previous mode, and after a
    rejected one (the target was already current) it still reports [cur]
    as current but no previous mode at all, since the row of a failed
    switch names no [fromMode]. *)
Theorem getState_after_switch clk params now recs db db0 cur :
  ensureModesExist (t_ensure clk) db = Returned tt db0 ->
  seeded cur db0 ->
  (forall r, In r (modeTransitionHistory db0) ->
     h_createdAt r < t_insert clk /\ h_createdAt r < t_insert_catch clk) ->
  newest_first 10 (modeTransitionHistory (db_of (switchMode clk params db))) recs ->
  exists snap row,
    getState now recs (db_of (switchMode clk params db))
    = Returned snap (db_of (switchMode clk params db))
    /\ modeTransitionHistory (db_of (switchMode clk params db))
       = modeTransitionHistory db0 ++ [row]
    /\ head (snap_modeHistory snap) = Some (to_record row)
    /\ (List.length (snap_modeHistory snap) <= 10)%nat
    /\ (if bool_decide (cur = targetMode params)
        then snap_currentMode snap = cur /\ snap_previousMode snap = None
        else snap_currentMode snap = targetMode params
             /\ snap_previousMode snap = Some cur).
Proof.
  intros Hens Hs Hnew Hrecs.
  destruct (seeded_switch clk params cur db db0 Hens Hs)
    as (row & Hh & _ & _ & _ & _ & Hcase).
  set (db1 := db_of (switchMode clk params db)) in *.
  assert (exists cur', seeded cur' db1
            /\ h_fromMode row
               = (if bool_decide (cur = targetMode params) then None else Some cur)
            /\ cur' = (if bool_decide (cur = targetMode params)
                       then cur else targetMode params)
            /\ (h_createdAt row = t_insert clk
                \/ h_createdAt row = t_insert_catch clk))
    as (cur' & Hs1 & Hfrom & Hcur' & Hat).
  { destruct Hcase as [(E & _ & _ & G & Ht & Hm)|(E & _ & _ & G & Ht & Hs1)].
    - exists cur. rewrite bool_decide_eq_true_2 by done.
      split; [|by auto]. destruct Hs as [A B]. split; by rewrite Hm.
    - exists (targetMode params). rewrite bool_decide_eq_false_2 by done. by auto. }
  rewrite Hh in Hrecs.
  destruct (newest_first_head 10 (modeTransitionHistory db0) row recs)
    as (rest & -> & Hlen); [lia| |done|].
  { intros r Hr. destruct (Hnew r Hr). destruct Hat as [-> | ->]; lia. }
  unfold getState. rewrite (seeded_idle cur' db1 now Hs1).
  eexists _, row. split; [reflexivity|]. split; [done|].
  cbn [snap_modeHistory snap_currentMode snap_previousMode List.map head].
  split; [done|]. split; [cbn [List.length] in *; by rewrite length_map|].
  rewrite (seeded_snapshotCurrentMode cur' db1 Hs1). cbn [to_record tr_fromMode].
  rewrite Hfrom, Hcur'. by destruct (bool_decide _).
Qed.

Lemma getState_after_switch_witness :
  exists snap row,
    getState 2000 (recent_history 10
                     (modeTransitionHistory
                        (db_of (switchMode sampleClock toInspired emptyDb))))
      (db_of (switchMode sampleClock toInspired emptyDb))
    = Returned snap (db_of (switchMode sampleClock toInspired emptyDb))
    /\ head (snap_modeHistory snap) = Some (to_record row)
    /\ h_success row = false
    /\ snap_currentMode snap = inspired /\ snap_previousMode snap = None.
Proof.
  destruct (getState_after_switch sampleClock toInspired 2000
              (recent_history 10
                 (modeTransitionHistory
                    (db_of (switchMode sampleClock toInspired emptyDb))))
              emptyDb (calls [CallGetModeStatus 1001 inspired]) inspired)
    as (snap & row & H1 & H2 & H3 & _ & H5).
  - reflexivity.
  - done.
  - intros r [].
  - apply recent_history_newest_first.
  - exists snap, row. split; [exact H1|]. split; [exact H3|].
    split; [|exact H5].
    injection H2 as <-. reflexivity.
Defined.

End ModeTableFacts.

(* ===================================================================== *)
(** * Properties of the mode utilities                                     *)
(* ===================================================================== *)

Section InspiredFacts.
Import Json InspiredMode.
Context {LocalModel : Type}.
Variable modelName : LocalModel -> list N.
Variable toLowerCase : list N -> list N.

(** What the loop over the preferred names returns: nothing when no model
    holds any of the names; otherwise a model holding a name before which
    no name is held by any model. *)
Lemma first_recommended_spec names models :
  match first_recommended modelName toLowerCase names models with
  | None =>
      forall recName m, In recName names -> In m models ->
        includes recName (toLowerCase (modelName m)) = false
  | Some n =>
      exists before recName after m,
        names = before ++ recName :: after
        /\ In m models
        /\ includes recName (toLowerCase (modelName m)) = true
        /\ n = modelName m
        /\ forall recName' m', In recName' before -> In m' models ->
             includes recName' (toLowerCase (modelName m')) = false
  end.
Proof.
  induction names as [|recName names IH]; cbn [first_recommended].
  - by intros ? ? [].
  - destruct (List.find _ models) as [found|] eqn:E.
    + apply List.find_some in E as [Hin Hm].
      exists [], recName, names, found. repeat (split; [done|]). by intros ? ? [].
    + pose proof (List.find_none _ _ E) as Hnone. cbn beta in Hnone.
      destruct (first_recommended modelName toLowerCase names models) as [n|].
      * destruct IH as (before & r & after & m & -> & Hin & Hm & -> & Hbefore).
        exists (recName :: before), r, after, m. repeat (split; [done|]).
        intros r' m' [<-|Hr'] Hm'; [by apply Hnone|by apply Hbefore].
      * intros r m [<-|Hr] Hm; [by apply Hnone|by apply IH].
Qed.

(** X10.  [checkInspiredModeStatus] recommends a model exactly when a
    model is installed, and the model it recommends is one of the installed
    ones.  When lower-casing the empty name gives the empty name and the
    name of some installed model holds a preferred name, the recommended
    model holds a preferred name too, and no name earlier in the list is
    held by any installed model.  [validateInspiredModeRequirements] lets the mode be
    activated exactly when a model is recommended. *)
Theorem checkInspiredModeStatus_recommended fetched :
  let status := checkInspiredModeStatus modelName toLowerCase fetched in
  (recommendedModel status = None <-> availableModels status = [])
  /\ (forall n, recommendedModel status = Some n ->
        exists m, In m (availableModels status) /\ modelName m = n)
  /\ (toLowerCase [] = [] ->
      forall recName m,
        In recName recommendedModelNames -> In m (availableModels status) ->
        includes recName (toLowerCase (modelName m)) = true ->
        exists before recName' after m',
          recommendedModelNames = before ++ recName' :: after
          /\ In m' (availableModels status)
          /\ includes recName' (toLowerCase (modelName m')) = true
          /\ recommendedModel status = Some (modelName m')
          /\ forall r m0, In r before -> In m0 (availableModels status) ->
               includes r (toLowerCase (modelName m0)) = false)
  /\ canActivate (validateInspiredModeRequirements modelName toLowerCase fetched)
     = bool_decide (is_Some (getBestOllamaModelForCoding modelName toLowerCase fetched)).
Proof.
  intros status. subst status. unfold validateInspiredModeRequirements,
    getBestOllamaModelForCoding.
  destruct fetched as [|result]; cbn [checkInspiredModeStatus]; cbv zeta.
  { cbn. split; [done|]. split; [done|]. split; [|done]. intros _ ? ? _ []. }
  set (models := default [] result).
  pose proof (first_recommended_spec recommendedModelNames models) as Hspec.
  destruct (first_recommended modelName toLowerCase recommendedModelNames models)
    as [n|] eqn:E.
  - destruct Hspec as (before & recName & after & m & Hnames & Hin & Hm & -> & Hbefore).
    cbn [isOllamaAvailable availableModels recommendedModel negb].
    destruct models as [|first ms] eqn:Em; [destruct Hin|].
    destruct (truthy (Some (modelName m))) eqn:Et; cbn [negb].
    + split; [split; discriminate|]. split.
      { intros ? [= <-]. eauto. }
      split; [|done].
      intros _ r m0 _ _ _. exists before, recName, after, m. done.
    + split; [split; discriminate|]. split.
      { intros ? [= <-]. exists first. split; [by left|done]. }
      split; [|done].
      intros Hlow. exfalso.
      assert (modelName m = []) as Hnil by (by destruct (modelName m)).
      rewrite Hnil, Hlow in Hm.
      assert (In recName recommendedModelNames) as Hr
        by (rewrite Hnames; apply in_or_app; right; by left).
      cbn in Hr. repeat (destruct Hr as [<-|Hr]; [discriminate|]). destruct Hr.
  - cbn [isOllamaAvailable availableModels recommendedModel negb truthy].
    destruct models as [|first ms] eqn:Em.
    + cbn. split; [done|]. split; [done|]. split; [|done]. intros _ ? ? _ [].
    + split; [split; discriminate|]. split.
      { intros ? [= <-]. exists first. split; [by left|done]. }
      split; [|done].
      intros _ r m0 Hr Hm0 Hmatch. by rewrite (Hspec r m0 Hr Hm0) in Hmatch.
Qed.

End InspiredFacts.

Section DidacticFacts.
Import Json DidacticMode.
Variable apiKeyValue : list N -> option (list N).
Variable getEnvVar : list N -> option (list N).

Lemma filter_filter_andb {A} (f g : A -> bool) l :
  List.filter f (List.filter g l) = List.filter (fun x => g x && f x) l.
Proof.
  induction l as [|x l IH]; [done|]. cbn [List.filter].
  destruct (g x); cbn [List.filter andb]; [|done].
  destruct (f x); by rewrite IH.
Qed.

Lemma first_preferred_spec preferred configured :
  match first_preferred preferred configured with
  | None => forall p, In p preferred -> ~ In p configured
  | Some q =>
      exists before after,
        preferred = before ++ q :: after
        /\ In q configured
        /\ forall x, In x before -> ~ In x configured
  end.
Proof.
  induction preferred as [|p preferred IH]; cbn [first_preferred]; [by intros ? []|].
  case_bool_decide as Hp.
  - exists [], preferred. rewrite list_elem_of_In in Hp. split; [done|].
    split; [done|]. by intros ? [].
  - rewrite list_elem_of_In in Hp.
    destruct (first_preferred preferred configured) as [q|].
    + destruct IH as (before & after & -> & Hq & Hb).
      exists (p :: before), after. split; [done|]. split; [done|].
      intros x [<-|Hx]; [done|by apply Hb].
    + intros x [<-|Hx]; [done|by apply IH].
Qed.

(** X11.  Didactic mode is ready exactly when an external provider has a
    key.  The lists [configuredProviders] and [availableProviders] are the
    same list: the ids, in the order given, of the providers other than
    ollama and lmstudio that have a key.  [validateDidacticModeRequirements]
    allows activation exactly when that list is not empty, which is also
    when the status lists no issue; so its second refusal, with the first
    issue as reason, never happens, and the reason of a refusal is always
    the request to add an API key. *)
Theorem didactic_ready_iff_configured allProviders servers :
  let status := checkDidacticModeStatus apiKeyValue getEnvVar allProviders servers in
  let v := validateDidacticModeRequirements apiKeyValue getEnvVar allProviders servers in
  availableProviders status = configuredProviders status
  /\ configuredProviders status
     = List.map p_id
         (List.filter (fun p => negb (bool_decide (p_id p = lit "ollama"))
                                && negb (bool_decide (p_id p = lit "lmstudio"))
                                && hasApiKey apiKeyValue getEnvVar p)
            allProviders)
  /\ canActivate v = isReady status
  /\ isReady status = hasExternalAI status
  /\ (canActivate v = true <-> configuredProviders status <> [])
  /\ (canActivate v = true <-> issues status = [])
  /\ (canActivate v = false ->
      reason v = Some "No external AI providers configured. Please add an API key in Settings (OpenAI, Anthropic, Google, etc.).")
  /\ (enabledMcpServersCount status <= mcpServersCount status)%nat.
Proof.
  intros status v. subst status v.
  unfold validateDidacticModeRequirements, checkDidacticModeStatus,
    checkExternalAIProviders, checkMcpServersStatus.
  cbn [hasExternalAI availableProviders configuredProviders isReady issues
       enabledMcpServersCount mcpServersCount].
  rewrite filter_filter_andb.
  set (ids := List.map p_id _).
  split; [done|]. split; [done|].
  split; [by destruct ids|]. split; [done|].
  split; [by destruct ids|]. split; [by destruct ids|].
  split; [by destruct ids|]. apply List.filter_length_le.
Qed.

(** X12.  [getRecommendedExternalProvider] returns null exactly when no
    provider is configured, and otherwise a configured provider: the first
    of anthropic, openai, google, xai, openrouter, auto that is configured
    or, when none of these is, the first configured one. *)
Theorem getRecommendedExternalProvider_spec allProviders :
  let configured := (checkExternalAIProviders apiKeyValue getEnvVar allProviders).2 in
  let r := getRecommendedExternalProvider apiKeyValue getEnvVar allProviders in
  (r = None <-> configured = [])
  /\ (forall p, r = Some p -> In p configured)
  /\ ((exists p, In p preferredProviders /\ In p configured) ->
      exists before q after,
        preferredProviders = before ++ q :: after
        /\ r = Some q /\ In q configured
        /\ forall x, In x before -> ~ In x configured)
  /\ ((forall p, In p preferredProviders -> ~ In p configured) ->
      r = head configured).
Proof.
  intros configured r. subst r. unfold getRecommendedExternalProvider.
  fold configured.
  pose proof (first_preferred_spec preferredProviders configured) as Hspec.
  destruct (first_preferred preferredProviders configured) as [q|].
  - destruct Hspec as (before & after & Hpref & Hq & Hb).
    split; [split; [done|intros E; by rewrite E in Hq]|].
    split; [by intros ? [= <-]|].
    split; [intros _; by exists before, q, after|].
    intros Hnone. exfalso. apply (Hnone q); [|done].
    rewrite Hpref. apply in_or_app. right. by left.
  - split; [by destruct configured|].
    split; [intros p Hp; destruct configured; [done|]; injection Hp as <-; by left|].
    split; [|done]. intros (p & Hp & Hc). by destruct (Hspec p Hp).
Qed.

End DidacticFacts.

Section ParallelFacts.
Import Json ParallelMode.
Context {LocalModel : Type}.
Variable modelName : LocalModel -> list N.
Variable toLowerCase : list N -> list N.
Variable apiKeyValue : list N -> option (list N).
Variable getEnvVar : list N -> option (list N).

Lemma find_source_external_map ps :
  find_source external_source
    (List.map (fun p => {| ai_type := external_source; ai_provider := p;
                           ai_model := lit "auto"; isAvailable := true |}) ps)
  = match ps with
    | p :: _ => Some {| ai_type := external_source; ai_provider := p;
                        ai_model := lit "auto"; isAvailable := true |}
    | [] => None
    end.
Proof. by destruct ps. Qed.

Lemma find_source_local_map ps :
  find_source local_source
    (List.map (fun p => {| ai_type := external_source; ai_provider := p;
                           ai_model := lit "auto"; isAvailable := true |}) ps)
  = None.
Proof. induction ps as [|p ps IH]; [done|]. exact IH. Qed.

(** The first external and the first local source of the list
    [getAvailableAISources] builds. *)
Lemma find_external_sources (i : InspiredMode.InspiredModeStatus LocalModel) d :
  find_source external_source (getAvailableAISources i d)
  = if DidacticMode.hasExternalAI d
    then match DidacticMode.configuredProviders d with
         | p :: _ => Some {| ai_type := external_source; ai_provider := p;
                             ai_model := lit "auto"; isAvailable := true |}
         | [] => None
         end
    else None.
Proof.
  unfold getAvailableAISources.
  destruct (_ && _); destruct (DidacticMode.hasExternalAI d);
    rewrite ?app_nil_l, ?app_nil_r; try done;
    cbn [app]; unfold find_source; cbn [List.find ai_type];
    rewrite ?(bool_decide_eq_false_2 (local_source = external_source)) by done;
    try done; apply find_source_external_map.
Qed.

Lemma find_local_sources (i : InspiredMode.InspiredModeStatus LocalModel) d :
  find_source local_source (getAvailableAISources i d)
  = if InspiredMode.isOllamaAvailable i
       && InspiredMode.truthy (InspiredMode.recommendedModel i)
    then Some {| ai_type := local_source; ai_provider := lit "ollama";
                 ai_model := default [] (InspiredMode.recommendedModel i);
                 isAvailable := true |}
    else None.
Proof.
  unfold getAvailableAISources.
  destruct (_ && _); [done|]. rewrite app_nil_l.
  destruct (DidacticMode.hasExternalAI d); [|done]. apply find_source_local_map.
Qed.

(** X13.  The strategy of Parallel mode when the environment is the same
    at both of its readings.  With an external provider configured the
    primary source is the first configured provider, with model [auto].
    A secondary source, and with it harmonization, is there exactly when
    an external provider is configured and a local model is recommended;
    it is then that model on ollama.  The primary source is left undefined
    exactly when Ollama answers, no external provider is configured and no
    model is recommended, as when Ollama has no model installed; yet
    [validateParallelModeRequirements] allows activation whenever Ollama
    answers or a provider is configured, so also then. *)
Theorem determineParallelStrategy_spec fetched allProviders servers :
  let inspiredStatus :=
    InspiredMode.checkInspiredModeStatus modelName toLowerCase fetched in
  let didacticStatus :=
    DidacticMode.checkDidacticModeStatus apiKeyValue getEnvVar allProviders servers in
  let configured := DidacticMode.configuredProviders didacticStatus in
  let recommended := InspiredMode.recommendedModel inspiredStatus in
  let strategy :=
    determineParallelStrategy inspiredStatus didacticStatus
      inspiredStatus didacticStatus in
  let v := validateParallelModeRequirements inspiredStatus didacticStatus in
  (forall p ps, configured = p :: ps ->
     primary strategy
     = Some {| ai_type := external_source; ai_provider := p;
               ai_model := lit "auto"; isAvailable := true |})
  /\ (enableHarmonization strategy = true <-> is_Some (secondary strategy))
  /\ (is_Some (secondary strategy)
      <-> configured <> [] /\ InspiredMode.truthy recommended = true)
  /\ (forall s, secondary strategy = Some s ->
        exists n, recommended = Some n
                  /\ s = {| ai_type := local_source; ai_provider := lit "ollama";
                            ai_model := n; isAvailable := true |})
  /\ (primary strategy = None
      <-> InspiredMode.isOllamaAvailable inspiredStatus = true
          /\ configured = []
          /\ InspiredMode.truthy recommended = false)
  /\ (canActivate v = true
      <-> InspiredMode.isOllamaAvailable inspiredStatus = true \/ configured <> [])
  /\ (fetched = InspiredMode.Fetched (Some []) -> configured = [] ->
      canActivate v = true /\ primary strategy = None).
Proof.
  intros inspiredStatus didacticStatus configured recommended strategy v.
  assert (DidacticMode.hasExternalAI didacticStatus
          = match configured with [] => false | _ :: _ => true end) as Hext.
  { subst configured didacticStatus.
    unfold DidacticMode.checkDidacticModeStatus, DidacticMode.checkExternalAIProviders.
    cbn. by destruct (List.map _ _). }
  assert (InspiredMode.truthy recommended = true ->
          InspiredMode.isOllamaAvailable inspiredStatus = true) as Havail.
  { subst recommended inspiredStatus. by destruct fetched. }
  assert (fetched = InspiredMode.Fetched (Some []) ->
          InspiredMode.isOllamaAvailable inspiredStatus = true
          /\ InspiredMode.truthy recommended = false) as Hempty.
  { intros ->. done. }
  set (local_one n := {| ai_type := local_source; ai_provider := lit "ollama";
                         ai_model := n; isAvailable := true |}).
  set (external_one p := {| ai_type := external_source; ai_provider := p;
                            ai_model := lit "auto"; isAvailable := true |}).
  assert (primary strategy
          = match configured with
            | p :: _ => Some (external_one p)
            | [] =>
                if InspiredMode.isOllamaAvailable inspiredStatus then
                  match recommended with
                  | Some (c :: n) => Some (local_one (c :: n))
                  | _ => None
                  end
                else Some {| ai_type := external_source; ai_provider := lit "auto";
                             ai_model := lit "free"; isAvailable := false |}
            end) as Hp.
  { subst strategy. unfold determineParallelStrategy, checkParallelModeStatus.
    rewrite find_external_sources, find_local_sources.
    cbn [hasExternalAI hasLocalAI]. fold configured. fold recommended.
    rewrite Hext.
    destruct configured; destruct (InspiredMode.isOllamaAvailable inspiredStatus);
      try done; by destruct recommended as [[|? ?]|]. }
  assert (secondary strategy
          = match configured, recommended with
            | _ :: _, Some (c :: n) => Some (local_one (c :: n))
            | _, _ => None
            end) as Hs.
  { subst strategy. unfold determineParallelStrategy, checkParallelModeStatus.
    rewrite find_external_sources, find_local_sources.
    cbn [hasExternalAI hasLocalAI]. fold configured. fold recommended.
    rewrite Hext.
    destruct configured; destruct (InspiredMode.isOllamaAvailable inspiredStatus);
      destruct recommended as [[|? ?]|]; try done.
    specialize (Havail eq_refl). discriminate. }
  assert (enableHarmonization strategy = bool_decide (is_Some (secondary strategy)))
    as He.
  { subst strategy. unfold determineParallelStrategy.
    repeat match goal with
      | |- context [if ?b then _ else _] => destruct b
      end; done. }
  assert (canActivate v
          = InspiredMode.isOllamaAvailable inspiredStatus
            || match configured with [] => false | _ :: _ => true end) as Hv.
  { subst v. unfold validateParallelModeRequirements, checkParallelModeStatus.
    cbn [isReady]. rewrite Hext. by destruct (_ || _). }
  rewrite Hp, Hs, He, Hv, Hs. clear Hp Hs He Hv Hext.
  clearbody inspiredStatus didacticStatus configured recommended.
  split; [by intros p ps ->|].
  split; [apply bool_decide_eq_true|].
  split.
  { destruct configured, recommended as [[|? ?]|]; cbn; split;
      try (by intros [? [=]]); try (by intros [? ?]); by eauto. }
  split.
  { intros s Hs. destruct configured, recommended as [[|? ?]|]; try done.
    injection Hs as <-. by eexists. }
  split.
  { destruct configured, (InspiredMode.isOllamaAvailable inspiredStatus),
      recommended as [[|? ?]|]; cbn; split; try done; by intros (? & ? & ?). }
  split.
  { destruct configured, (InspiredMode.isOllamaAvailable inspiredStatus); cbn;
      split; try done; try (by intros [|]); by auto. }
  intros Hf ->. destruct (Hempty Hf) as [-> Ht]. split; [done|].
  by destruct recommended as [[|? ?]|].
Qed.

End ParallelFacts.

(* ===================================================================== *)
(** * Properties of the routing by mode                                    *)
(* ===================================================================== *)

Section RoutingFacts.
Import Json ModeHandlers ModeRouting.
Context {LocalModel Rest : Type}.
Variable modelName : LocalModel -> list N.
Variable toLowerCase : list N -> list N.

(** X14.  The model [getModeAwareModel] routes a request to is always one
    whose provider [isModelProviderAllowed] allows in the active mode: in
    Inspired mode its provider is ollama, in Didactic mode it is neither
    ollama nor lmstudio, and in Parallel mode it is the requested model.
    The call throws only in Inspired mode, for a request that is not for
    ollama, when Ollama does not answer or has no model. *)
Theorem getModeAwareModel_allowed
    (requestedModel : LargeLanguageModel Rest)
    (selectedModel : option (LargeLanguageModel Rest))
    (status best : InspiredMode.Fetch LocalModel) (db : Db) :
  match getModeAwareModel modelName toLowerCase requestedModel selectedModel
          status best db with
  | inr model =>
      allowed (isModelProviderAllowed (provider model) db) = true
      /\ match getActiveCollaborationMode db with
         | inspired => provider model = lit "ollama"
         | didactic => is_local (provider model) = false
         | parallel => model = requestedModel
         end
  | inl _ =>
      getActiveCollaborationMode db = inspired
      /\ provider requestedModel <> lit "ollama"
      /\ InspiredMode.availableModels
           (InspiredMode.checkInspiredModeStatus modelName toLowerCase status) = []
  end.
Proof.
  unfold getModeAwareModel, isModelProviderAllowed.
  destruct (getActiveCollaborationMode db).
  - case_bool_decide as Hreq.
    + by rewrite (bool_decide_eq_true_2 _ Hreq).
    + destruct status as [|[[|first models]|]]; cbn -[lit]; try done.
      destruct (InspiredMode.getBestOllamaModelForCoding _ _ best) as [[|c r]|];
        cbn -[lit]; by rewrite bool_decide_eq_true_2.
  - destruct (is_local (provider requestedModel)) eqn:Hreq.
    + destruct selectedModel as [selected|].
      * destruct (InspiredMode.truthy _ && negb (is_local (provider selected))) eqn:Hsel.
        -- apply andb_true_iff in Hsel as [_ Hsel]. apply negb_true_iff in Hsel.
           by rewrite Hsel.
        -- done.
      * done.
    + by rewrite Hreq.
  - done.
Qed.

(** The status [getModeWithCapabilities] builds from a row. *)
Lemma getModeWithCapabilities_row db r :
  NoDup (List.map mr_mode (aiCollaborationModes db)) ->
  In r (aiCollaborationModes db) ->
  exists st, getModeWithCapabilities (mr_mode r) db = Some st
             /\ st_mode st = mr_mode r /\ st_isActive st = mr_isActive r.
Proof.
  intros Hnd Hin. unfold getModeWithCapabilities.
  assert (rows_of_mode (mr_mode r) (aiCollaborationModes db) = [r]) as ->.
  { revert Hnd Hin. generalize (aiCollaborationModes db) as t.
    induction t as [|x t IH]; [done|]. cbn [List.map].
    intros [Hx Hnd]%NoDup_cons [->|Hin]; cbn [rows_of_mode List.filter];
      fold (rows_of_mode (mr_mode r) t).
    - rewrite bool_decide_eq_true_2 by done. f_equal.
      destruct (rows_of_mode (mr_mode r) t) as [|y ys] eqn:E; [done|].
      exfalso.
      assert (In y (rows_of_mode (mr_mode r) t)) as Hy by (rewrite E; by left).
      apply List.filter_In in Hy as [Hy Hm]. apply bool_decide_eq_true_1 in Hm.
      apply Hx. rewrite <- Hm. apply list_elem_of_In, List.in_map, Hy.
    - rewrite bool_decide_eq_false_2; [by apply IH|].
      intros Hm. apply Hx. rewrite Hm. by apply list_elem_of_In, List.in_map. }
  eexists. split; [reflexivity|]. done.
Qed.

(** X15.  On a mode table with at most one row per mode, the router and
    [mode:get-state] agree on the current mode: [getActiveCollaborationMode]
    returns the mode the snapshot reports, which is the mode of the first
    active row, or inspired when no row is active. *)
Theorem getActiveCollaborationMode_snapshot db :
  NoDup (List.map mr_mode (aiCollaborationModes db)) ->
  getActiveCollaborationMode db = snapshotCurrentMode db
  /\ getActiveCollaborationMode db = default inspired (currentModeOf db).
Proof.
  intros Hnd. split; [|unfold getActiveCollaborationMode, currentModeOf;
                       by destruct (active_rows _)].
  unfold getActiveCollaborationMode, snapshotCurrentMode, availableModesOf.
  assert (forall t, (forall r, In r t -> In r (aiCollaborationModes db)) ->
            match active_rows t with [] => inspired | r :: _ => mr_mode r end
            = match List.filter st_isActive
                      (omap (fun r => getModeWithCapabilities (mr_mode r) db) t) with
              | s :: _ => st_mode s
              | [] => inspired
              end) as Hgen.
  { induction t as [|r t IH]; intros Hsub; [done|].
    destruct (getModeWithCapabilities_row db r Hnd) as (st & Hst & Hm & Ha).
    { apply Hsub. by left. }
    cbn [active_rows List.filter omap list_omap]. rewrite Hst.
    cbn [List.filter]. rewrite Ha.
    destruct (mr_isActive r); [done|].
    apply IH. intros r' Hr'. apply Hsub. by right. }
  by apply Hgen.
Qed.

Lemma getActiveCollaborationMode_snapshot_witness :
  getActiveCollaborationMode (calls [CallSwitchMode sampleClock toDidactic]) = didactic
  /\ snapshotCurrentMode (calls [CallSwitchMode sampleClock toDidactic]) = didactic.
Proof.
  destruct (getActiveCollaborationMode_snapshot
              (calls [CallSwitchMode sampleClock toDidactic])) as [H _].
  - by apply (bool_decide_unpack _).
  - split; [reflexivity|]. rewrite <- H. reflexivity.
Defined.

End RoutingFacts.

(* ===================================================================== *)
(** * Properties of the handler registries and the event bus               *)
(* ===================================================================== *)

Section RegistryOps.
Context {Msg World : Type}.
Import Dispatch.

Lemma set_add_ids (h : Handler Msg World) hs :
  List.map handler_id (set_add h hs)
  = if bool_decide (handler_id h ∈ List.map handler_id hs)
    then List.map handler_id hs
    else List.map handler_id hs ++ [handler_id h].
Proof.
  unfold set_add.
  destruct (existsb _ hs) eqn:E.
  - apply existsb_exists in E as (h' & Hin & Heq). apply Nat.eqb_eq in Heq.
    rewrite bool_decide_eq_true_2; [done|].
    rewrite <- Heq. by apply list_elem_of_In, List.in_map.
  - rewrite bool_decide_eq_false_2; [by rewrite List.map_app|].
    intros (h' & Heq & Hin)%list_elem_of_In%List.in_map_iff.
    assert (existsb (fun h'0 => handler_id h'0 =? handler_id h)%nat hs = true) as E'.
    { apply existsb_exists. exists h'. split; [done|]. by apply Nat.eqb_eq. }
    congruence.
Qed.

Lemma set_delete_ids (h : Handler Msg World) hs :
  List.map handler_id (set_delete h hs)
  = List.filter (fun i => negb (i =? handler_id h)%nat) (List.map handler_id hs).
Proof.
  unfold set_delete. induction hs as [|x hs IH]; [done|].
  cbn [List.filter List.map]. destruct (negb _); cbn [List.map]; by rewrite IH.
Qed.

Lemma set_add_NoDup (h : Handler Msg World) hs :
  NoDup (List.map handler_id hs) -> NoDup (List.map handler_id (set_add h hs)).
Proof.
  intros Hnd. rewrite set_add_ids. case_bool_decide as Hin; [done|].
  apply NoDup_app. split; [done|]. split; [|apply NoDup_singleton].
  intros i Hi [<-|[]]%list_elem_of_In. by apply Hin.
Qed.

Lemma set_delete_NoDup (h : Handler Msg World) hs :
  NoDup (List.map handler_id hs) -> NoDup (List.map handler_id (set_delete h hs)).
Proof.
  intros Hnd. rewrite set_delete_ids.
  by apply NoDup_ListNoDup, List.NoDup_filter, NoDup_ListNoDup.
Qed.

Lemma on_lookup type (h : Handler Msg World) handlers type' :
  on type h handlers !! type'
  = if bool_decide (type = type')
    then Some (set_add h (default [] (handlers !! type)))
    else handlers !! type'.
Proof.
  unfold on. destruct (handlers !! type) as [hs|] eqn:E.
  - rewrite E. case_bool_decide as Ht.
    + subst. by rewrite lookup_insert_eq.
    + by rewrite lookup_insert_ne.
  - rewrite lookup_insert_eq. case_bool_decide as Ht.
    + subst. by rewrite lookup_insert_eq.
    + by rewrite !lookup_insert_ne.
Qed.

Lemma off_lookup type (h : Handler Msg World) handlers type' :
  off type h handlers !! type'
  = if bool_decide (type = type')
    then set_delete h <$> handlers !! type
    else handlers !! type'.
Proof.
  unfold off. destruct (handlers !! type) as [hs|] eqn:E.
  - case_bool_decide as Ht.
    + subst. by rewrite lookup_insert_eq.
    + by rewrite lookup_insert_ne.
  - case_bool_decide as Ht; [by subst|done].
Qed.

(** The loop runs the handlers one after the other on the state the one
    before left, and the trace shows each invoked, in order. *)
Lemma run_handlers_spec (hs : list (Handler Msg World)) m w :
  (run_handlers hs m w).1 = fold_left (fun w' h => (handler_run h m w').1) hs w
  /\ invoked_ids (run_handlers hs m w).2 = List.map handler_id hs
  /\ forall id m', In (Invoked id m') (run_handlers hs m w).2 -> m' = m.
Proof.
  revert w. induction hs as [|h hs IH]; intros w; [by split; [|split; [|intros ? ? []]]|].
  cbn [run_handlers fold_left List.map].
  destruct (handler_run h m w) as [w1 threw] eqn:E1.
  destruct (IH w1) as (H1 & H2 & H3).
  destruct (run_handlers hs m w1) as [w2 tr] eqn:E2. cbn [fst snd] in *.
  split; [done|]. split.
  - cbn [invoked_ids omap list_omap]. f_equal.
    destruct threw; cbn [app omap list_omap]; exact H2.
  - intros id m' [[= _ <-]|Hin]; [done|].
    apply in_app_or in Hin as [Hin|Hin]; [|by eapply H3].
    destruct threw; [|destruct Hin]. by destruct Hin as [[=]|[]].
Qed.

(** X16.  Registration works on sets.  Registering a handler twice for a
    type is the same as registering it once; a registration for one type
    does not change the handlers of another; both [on] and [off] keep every
    set free of duplicates.  After [on], a dispatch for the type invokes
    the handler exactly once, after the handlers registered before it;
    after [off], a dispatch for the type does not invoke it at all. *)
Theorem on_off_sets type (h : Handler Msg World) handlers :
  on type h (on type h handlers) = on type h handlers
  /\ (forall type', type' <> type ->
        on type h handlers !! type' = handlers !! type'
        /\ off type h handlers !! type' = handlers !! type')
  /\ (registry_wf handlers ->
      registry_wf (on type h handlers) /\ registry_wf (off type h handlers))
  /\ (forall m w,
        invoked_ids (dispatch (off type h handlers) type m w).2
        = List.filter (fun i => negb (i =? handler_id h)%nat)
            (invoked_ids (dispatch handlers type m w).2))
  /\ (forall m w,
        invoked_ids (dispatch (on type h handlers) type m w).2
        = if bool_decide (handler_id h ∈ invoked_ids (dispatch handlers type m w).2)
          then invoked_ids (dispatch handlers type m w).2
          else invoked_ids (dispatch handlers type m w).2 ++ [handler_id h]).
Proof.
  assert (forall m w, invoked_ids (dispatch handlers type m w).2
                      = List.map handler_id (default [] (handlers !! type))) as Hd.
  { intros m w. unfold dispatch. destruct (handlers !! type) as [hs|]; [|done].
    apply run_handlers_spec. }
  split.
  { apply map_eq. intros t. rewrite !on_lookup. case_bool_decide as Ht; [|done].
    rewrite bool_decide_eq_true_2 by done. cbn [default from_option id]. f_equal.
    unfold set_add at 1.
    destruct (existsb _ (set_add h _)) eqn:E; [done|]. exfalso.
    assert (In (handler_id h)
              (List.map handler_id (set_add h (default [] (handlers !! type)))))
      as Hin.
    { rewrite set_add_ids. case_bool_decide as Hin; [by apply list_elem_of_In|].
      apply in_or_app. right. by left. }
    apply List.in_map_iff in Hin as (h' & Heq & Hin).
    assert (existsb (fun h'0 => handler_id h'0 =? handler_id h)%nat
              (set_add h (default [] (handlers !! type))) = true) as E'.
    { apply existsb_exists. exists h'. split; [done|]. by apply Nat.eqb_eq. }
    congruence. }
  split.
  { intros t Ht. rewrite on_lookup, off_lookup.
    by rewrite !bool_decide_eq_false_2 by done. }
  split.
  { intros Hwf. split; intros t hs; rewrite ?on_lookup, ?off_lookup;
      case_bool_decide as Ht; try apply Hwf.
    - intros [= <-]. apply set_add_NoDup.
      destruct (handlers !! type) as [hs0|] eqn:E; [by apply (Hwf type)|constructor].
    - destruct (handlers !! type) as [hs0|] eqn:E; [|done].
      intros [= <-]. apply set_delete_NoDup. by apply (Hwf type). }
  split.
  { intros m w. rewrite Hd. unfold dispatch. rewrite off_lookup.
    rewrite bool_decide_eq_true_2 by done.
    destruct (handlers !! type) as [hs|]; [|done]. cbn [fmap option_fmap option_map default].
    destruct (run_handlers_spec (set_delete h hs) m w) as (_ & -> & _).
    apply set_delete_ids. }
  intros m w. rewrite Hd. unfold dispatch. rewrite on_lookup.
  rewrite bool_decide_eq_true_2 by done.
  destruct (run_handlers_spec (set_add h (default [] (handlers !! type))) m w)
    as (_ & -> & _).
  apply set_add_ids.
Qed.

Lemma run_handlers_failed (hs : list (Handler Msg World)) m w :
  sublist (failed_ids (run_handlers hs m w).2) (List.map handler_id hs)
  /\ ((forall h w', In h hs -> (handler_run h m w').2 = false) ->
      failed_ids (run_handlers hs m w).2 = [])
  /\ ((forall h w', In h hs -> (handler_run h m w').2 = true) ->
      failed_ids (run_handlers hs m w).2 = List.map handler_id hs).
Proof.
  revert w. induction hs as [|h hs IH]; intros w; [done|].
  cbn [run_handlers List.map].
  destruct (handler_run h m w) as [w1 threw] eqn:E1.
  destruct (IH w1) as (H1 & H2 & H3).
  destruct (run_handlers hs m w1) as [w2 tr] eqn:E2. cbn [fst snd] in *.
  unfold failed_ids in *. cbn [omap list_omap]. rewrite omap_app.
  split; [|split].
  - destruct threw; cbn [app omap list_omap].
    + by apply sublist_skip.
    + by apply sublist_cons.
  - intros Hno. pose proof (Hno h w (or_introl eq_refl)) as Hh.
    rewrite E1 in Hh. cbn in Hh. subst threw. cbn [app omap list_omap]. apply H2.
    intros h' w' Hin. apply Hno. by right.
  - intros Hall. pose proof (Hall h w (or_introl eq_refl)) as Hh.
    rewrite E1 in Hh. cbn in Hh. subst threw. cbn [app omap list_omap].
    f_equal. apply H3. intros h' w' Hin. apply Hall. by right.
Qed.

(** X17.  One handler cannot keep another from running.  A dispatch calls
    every handler registered for the type once, in the order of
    registration, whether or not some of them throw: each runs on the
    state the one before left and is passed the message dispatched.  The
    errors logged are errors of handlers that were called, in call order:
    none when no handler throws, one per handler when all do. *)
Theorem dispatch_runs_every_handler
    (handlers : gmap string (list (Handler Msg World))) type m w :
  let hs := default [] (handlers !! type) in
  (dispatch handlers type m w).1
  = fold_left (fun w' h => (handler_run h m w').1) hs w
  /\ invoked_ids (dispatch handlers type m w).2 = List.map handler_id hs
  /\ (forall id m', In (Invoked id m') (dispatch handlers type m w).2 -> m' = m)
  /\ sublist (failed_ids (dispatch handlers type m w).2)
       (invoked_ids (dispatch handlers type m w).2)
  /\ ((forall h w', In h hs -> (handler_run h m w').2 = false) ->
      failed_ids (dispatch handlers type m w).2 = [])
  /\ ((forall h w', In h hs -> (handler_run h m w').2 = true) ->
      failed_ids (dispatch handlers type m w).2 = List.map handler_id hs).
Proof.
  intros hs. subst hs. unfold dispatch.
  destruct (handlers !! type) as [hs|]; cbn [default from_option id].
  - destruct (run_handlers_spec hs m w) as (H1 & H2 & H3).
    destruct (run_handlers_failed hs m w) as (G1 & G2 & G3).
    rewrite H2. done.
  - repeat split; try done.
Qed.

End RegistryOps.

Section BusDelivery.
Import RedisBus.
Context {T World : Type}.
Variable JSON_parse : string -> option (DistributedEvent T).
Variable JSON_stringify : DistributedEvent T -> string.

(** X18.  An event published by one instance reaches the handlers of the
    other instances and not its own.  Let [publish] succeed on bus [a], and
    let the message text read back as the event it was made from.  The
    message goes to the channel [dyad:event:<type>]; fed to [a] itself it
    is dropped; fed to a bus [b] with another instance id, on whatever
    channel, it is passed to every handler [b] has for the event type, in
    registration order, as the event published, carrying [a]'s instance
    id. *)
Theorem publish_reaches_other_instances (a b : Bus T World) uuid now type user
    payload' metadata' p channel w :
  let event :=
    {| eventId := uuid; eventType := type; userId := user;
       instanceId := getInstanceId a; timestamp := now;
       payload := payload'; metadata := metadata' |} in
  JSON_parse (JSON_stringify event) = Some event ->
  publish JSON_stringify a uuid now true type user payload' metadata' = inr p ->
  pub_channel p = "dyad:event:" +:+ type
  /\ handleRedisMessage JSON_parse a (pub_message p) channel w = (w, [])
  /\ (getInstanceId b <> getInstanceId a ->
      (handleRedisMessage JSON_parse b (pub_message p) channel w).1
      = fold_left (fun w' h => (Dispatch.handler_run h event w').1)
          (default [] (handlers b !! type)) w
      /\ Dispatch.invoked_ids (handleRedisMessage JSON_parse b (pub_message p) channel w).2
         = List.map Dispatch.handler_id (default [] (handlers b !! type))
      /\ forall id e,
           In (Dispatch.Invoked id e)
              (handleRedisMessage JSON_parse b (pub_message p) channel w).2 ->
           e = event).
Proof.
  intros event Hrt. subst event. unfold getInstanceId in *. unfold publish.
  destruct (publisher a); [|discriminate]. intros [= <-].
  cbn [pub_channel pub_message].
  split; [done|]. unfold handleRedisMessage. rewrite Hrt. cbn [instanceId eventType].
  split; [by rewrite bool_decide_eq_true_2|].
  intros Hne. rewrite bool_decide_eq_false_2 by done.
  unfold Dispatch.dispatch.
  destruct (handlers b !! type) as [hs|]; cbn [default from_option id].
  - apply run_handlers_spec.
  - split; [done|]. split; [done|]. by intros ? ? [].
Qed.

End BusDelivery.

Section BusDeliverySample.
Import RedisBus.

Lemma publish_reaches_other_instances_witness :
  exists p,
    publish instanceId sampleBus "e1" 0 true "mode:changed" "u1" tt None = inr p
    /\ pub_channel p = "dyad:event:mode:changed"
    /\ handleRedisMessage busParse sampleBus (pub_message p) "any" 0%nat = (0%nat, [])
    /\ (handleRedisMessage busParse
          (on {| publisher := None; subscriber := None; handlers := ∅;
                 bus_instanceId := "Y" |} "mode:changed" countingHandler)
          (pub_message p) "any" 0%nat).1 = 1%nat.
Proof.
  exists {| pub_channel := "dyad:event:mode:changed"; pub_message := "X" |}.
  split; [reflexivity|].
  destruct (publish_reaches_other_instances busParse instanceId sampleBus
              (on {| publisher := None; subscriber := None; handlers := ∅;
                     bus_instanceId := "Y" |} "mode:changed" countingHandler)
              "e1" 0 "mode:changed" "u1" tt None
              {| pub_channel := "dyad:event:mode:changed"; pub_message := "X" |}
              "any" 0%nat eq_refl eq_refl) as (H1 & H2 & H3).
  split; [exact H1|]. split; [exact H2|].
  destruct H3 as (H3 & _); [discriminate|]. rewrite H3. reflexivity.
Defined.

End BusDeliverySample.

(* ===================================================================== *)
(** * Further properties of the live transport                             *)
(* ===================================================================== *)

Section ServerWire.
Import WebSocketSync.
Context {World : Type}.
Variable uuidv4 : nat -> string.
Implicit Types s : Server World.

Lemma send_wire ref m s :
  wire (send ref m s)
  = wire s ++ (if socket_open s ref then [Sent ref m] else []).
Proof.
  unfold send, socket_open. destruct (heap s !! ref) as [sock|].
  - destruct (bool_decide _); [done|by rewrite app_nil_r].
  - by rewrite app_nil_r.
Qed.

Lemma send_drawn ref m s : drawn (send ref m s) = drawn s.
Proof. unfold send. destruct (heap s !! ref) as [sock|]; [|done]. by destruct (bool_decide _). Qed.

Lemma send_pingInterval ref m s : pingInterval (send ref m s) = pingInterval s.
Proof. unfold send. destruct (heap s !! ref) as [sock|]; [|done]. by destruct (bool_decide _). Qed.

Lemma send_all_wire targets m s :
  wire (send_all targets m s)
  = wire s ++ List.map (fun ref => Sent ref m) (List.filter (socket_open s) targets).
Proof.
  revert s. induction targets as [|ref targets IH]; intros s; cbn [send_all List.filter].
  - by rewrite app_nil_r.
  - rewrite IH, send_wire.
    assert (List.filter (socket_open (send ref m s)) targets
            = List.filter (socket_open s) targets) as ->.
    { apply List.filter_ext. intros r. unfold socket_open. by rewrite send_heap. }
    destruct (socket_open s ref); cbn [List.map]; by rewrite <- app_assoc.
Qed.

Lemma send_all_drawn targets m s : drawn (send_all targets m s) = drawn s.
Proof.
  revert s. induction targets as [|ref targets IH]; intros s; [done|].
  cbn [send_all]. by rewrite IH, send_drawn.
Qed.

(** X19.  [broadcast] and [broadcastToUser] build one message, with one
    fresh id and the server's instance id, and send that same message to
    the sockets of the clients selected, in the order of the registry,
    skipping sockets that are not open: [broadcast] selects every client
    but the excluded one, [broadcastToUser] the clients of the user, so it
    sends at most [getClientsByUser] messages.  Neither changes the
    registry or a socket. *)
Theorem broadcast_recipients type' user ts payload' s :
  let fullMessage :=
    {| id := uuidv4 (drawn s); type := type'; userId := user;
       instanceId := srv_instanceId s; timestamp := ts; payload := payload' |} in
  (forall excludeClientId,
     let s' := broadcast uuidv4 type' user ts payload' excludeClientId s in
     wire s'
     = wire s
       ++ List.map (fun ref => Sent ref fullMessage)
            (List.filter (socket_open s)
               (List.map (fun e => ws e.2)
                  (List.filter
                     (fun e => negb (bool_decide (Some e.1 = excludeClientId)))
                     (clients s))))
     /\ clients s' = clients s /\ heap s' = heap s /\ drawn s' = S (drawn s))
  /\ (forall target,
        let s' := broadcastToUser uuidv4 target type' user ts payload' s in
        wire s'
        = wire s
          ++ List.map (fun ref => Sent ref fullMessage)
               (List.filter (socket_open s)
                  (List.map (fun e => ws e.2)
                     (List.filter (fun e => bool_decide (ci_userId e.2 = target))
                        (clients s))))
        /\ clients s' = clients s /\ heap s' = heap s /\ drawn s' = S (drawn s)
        /\ (List.length (wire s') <= List.length (wire s) + getClientsByUser target s)%nat).
Proof.
  intros fullMessage. split.
  - intros ex s'. subst s'. unfold broadcast. fold fullMessage.
    rewrite send_all_wire, send_all_clients, send_all_heap, send_all_drawn. done.
  - intros target s'. subst s'. unfold broadcastToUser. fold fullMessage.
    rewrite send_all_wire, send_all_clients, send_all_heap, send_all_drawn.
    repeat (split; [done|]).
    rewrite length_app, length_map. apply Nat.add_le_mono_l.
    etrans; [apply List.filter_length_le|].
    unfold getClientsByUser. by rewrite length_map.
Qed.

Lemma close_socket_wire ref s : wire (close_socket ref s) = wire s ++ [Closed ref].
Proof. done. Qed.

Lemma close_socket_closed ref s : socket_open (close_socket ref s) ref = false.
Proof.
  unfold socket_open, close_socket. cbn [heap with_wire with_heap].
  rewrite lookup_alter_eq. destruct (heap s !! ref) as [sock|]; [|done].
  cbn. apply bool_decide_eq_false_2. by case_bool_decide.
Qed.

Lemma close_socket_keeps_closed t ref s :
  socket_open s ref = false -> socket_open (close_socket t s) ref = false.
Proof.
  destruct (decide (t = ref)) as [->|Hne]; [intros _; apply close_socket_closed|].
  unfold socket_open, close_socket. cbn [heap with_wire with_heap].
  by rewrite lookup_alter_ne.
Qed.

Lemma close_all_keeps_closed targets ref s :
  socket_open s ref = false -> socket_open (close_all targets s) ref = false.
Proof.
  revert s. induction targets as [|t targets IH]; intros s H; [done|].
  cbn [close_all]. by apply IH, close_socket_keeps_closed.
Qed.

Lemma close_all_spec targets s :
  wire (close_all targets s) = wire s ++ List.map Closed targets
  /\ clients (close_all targets s) = clients s
  /\ wss (close_all targets s) = wss s
  /\ pingInterval (close_all targets s) = pingInterval s
  /\ forall ref, In ref targets -> socket_open (close_all targets s) ref = false.
Proof.
  revert s. induction targets as [|ref targets IH]; intros s; cbn [close_all].
  - rewrite app_nil_r. do 4 (split; [done|]). intros ? [].
  - destruct (IH (close_socket ref s)) as (H1 & H2 & H3 & H4 & H5).
    rewrite H1, H2, H3, H4. cbn [List.map]. rewrite close_socket_wire, <- app_assoc.
    do 4 (split; [done|]).
    intros r [->|Hin]; [|by apply H5].
    apply close_all_keeps_closed, close_socket_closed.
Qed.

(** X20.  [stop] always stops the heartbeat.  On a server that was started
    it closes the socket of every registered client, in registry order,
    and empties the registry, so that no registered socket is open
    afterwards; it forgets the listening server only if closing that one
    succeeded.  After a failed close the listening server is still there:
    a later [start] then does nothing, and the heartbeat stays off.  On a
    server that was never started [stop] closes nothing and leaves the
    registry alone. *)
Theorem stop_spec closeOk s :
  let s' := stop closeOk s in
  pingInterval s' = false
  /\ match wss s with
     | Some cs =>
         clients s' = []
         /\ getClientCount s' = 0%nat
         /\ wire s' = wire s ++ List.map (fun e => Closed (ws e.2)) (clients s)
         /\ (forall e, In e (clients s) -> socket_open s' (ws e.2) = false)
         /\ wss s' = (if closeOk then None else Some cs)
         /\ (closeOk = false ->
             start s' = s' /\ pingInterval (start s') = false)
     | None => clients s' = clients s /\ wire s' = wire s /\ heap s' = heap s
     end.
Proof.
  intros s'. subst s'. unfold stop. cbn [wss].
  destruct (wss s) as [cs|] eqn:E; [|done].
  set (s1 := {| wss := wss s; heap := heap s; clients := clients s;
                handlers := handlers s; pingInterval := false;
                srv_instanceId := srv_instanceId s; drawn := drawn s;
                wire := wire s |}).
  destruct (close_all_spec (List.map (fun e => ws e.2) (clients s1)) s1)
    as (H1 & H2 & H3 & H4 & H5).
  assert (forall e, In e (clients s) ->
            socket_open (close_all (List.map (fun e => ws e.2) (clients s1)) s1)
              (ws e.2) = false) as Hclosed.
  { intros e He. apply H5. by apply (List.in_map (fun e => ws e.2)). }
  subst s1. cbn [clients wire wss pingInterval] in H1, H2, H3, H4, Hclosed.
  rewrite E in H1, H3, H4, Hclosed.
  destruct closeOk; cbn [pingInterval clients wire wss with_clients getClientCount
                         JsMap.size List.length heap socket_open].
  - rewrite H1, H4, List.map_map. do 4 (split; [done|]).
    split; [exact Hclosed|]. split; [done|]. intros [=].
  - rewrite H1, H3, H4, List.map_map.
    do 4 (split; [done|]). split; [exact Hclosed|]. split; [done|].
    intros _. unfold start. cbn [wss with_clients]. rewrite H3.
    cbn [pingInterval with_clients]. by rewrite H4.
Qed.

Lemma send_open ref m s r : socket_open (send ref m s) r = socket_open s r.
Proof. unfold socket_open. by rewrite send_heap. Qed.

Lemma close_socket_open_before t s r :
  socket_open (close_socket t s) r = true -> socket_open s r = true.
Proof.
  destruct (socket_open s r) eqn:E; [done|].
  by rewrite (close_socket_keeps_closed t r s E).
Qed.

Lemma ping_loop_open_before now entries s r :
  socket_open (ping_loop uuidv4 now entries s) r = true -> socket_open s r = true.
Proof.
  revert s. induction entries as [|[k c] entries IH]; intros s; [done|].
  cbn [ping_loop]. destruct (stale now c); intros H; apply IH in H.
  - by apply (close_socket_open_before (ws c)).
  - by rewrite send_open in H.
Qed.

Lemma ping_loop_pings now entries s :
  exists new,
    wire (ping_loop uuidv4 now entries s) = wire s ++ new
    /\ closed_of new
       = List.map (fun e => ws e.2) (List.filter (fun e => stale now e.2) entries)
    /\ (forall ref m, In (ref, m) (sent_of new) ->
          type m = "ping" /\ timestamp m = now
          /\ instanceId m = srv_instanceId s /\ payload m = "{}"
          /\ exists e, In e entries /\ stale now e.2 = false
                       /\ ws e.2 = ref /\ userId m = ci_userId e.2)
    /\ drawn (ping_loop uuidv4 now entries s)
       = (drawn s
          + List.length (List.filter (fun e => negb (stale now e.2)) entries))%nat
    /\ (forall e, In e entries -> stale now e.2 = false ->
          socket_open (ping_loop uuidv4 now entries s) (ws e.2) = true ->
          exists m, In (ws e.2, m) (sent_of new) /\ userId m = ci_userId e.2).
Proof.
  revert s. induction entries as [|[k c] entries IH]; intros s.
  { exists []. cbn. rewrite app_nil_r, Nat.add_0_r.
    split; [done|]. split; [done|]. split; [by intros ? ? []|].
    split; [done|]. by intros ? []. }
  cbn [ping_loop List.filter snd]. destruct (stale now c) eqn:Est; cbn [negb].
  - set (s1 := with_clients _ _).
    destruct (IH s1) as (new & Hw & Hc & Hs & Hd & Ho).
    exists (Closed (ws c) :: new). rewrite Hw, Hd.
    split; [subst s1; cbn [wire with_clients]; by rewrite close_socket_wire, <- app_assoc|].
    split; [cbn [closed_of omap List.map snd]; cbn; unfold closed_of in Hc; by rewrite Hc|].
    split.
    { intros ref m Hin. destruct (Hs ref m Hin) as (H1 & H2 & H3 & H4 & e & He & H5).
      do 4 (split; [done|]). exists e. split; [by right|done]. }
    split; [done|].
    intros e [<-|He] Hst Hopen; [cbn [snd] in Hst; congruence|]. by apply Ho.
  - set (m := {| id := uuidv4 (drawn s); type := "ping"; userId := ci_userId c;
                 instanceId := srv_instanceId s; timestamp := now;
                 payload := "{}" |}).
    set (s1 := send (ws c) m (with_drawn (S (drawn s)) s)).
    destruct (IH s1) as (new & Hw & Hc & Hs & Hd & Ho).
    assert (wire s1 = wire s ++ (if socket_open s (ws c) then [Sent (ws c) m] else []))
      as Hw1 by (subst s1; by rewrite send_wire).
    assert (srv_instanceId s1 = srv_instanceId s) as Hi
      by (subst s1; by rewrite send_srv_instanceId).
    assert (drawn s1 = S (drawn s)) as Hd1 by (subst s1; by rewrite send_drawn).
    exists ((if socket_open s (ws c) then [Sent (ws c) m] else []) ++ new).
    rewrite Hw, Hd, Hw1, Hd1, <- app_assoc. split; [done|].
    split.
    { unfold closed_of in *. rewrite omap_app, Hc. by destruct (socket_open s (ws c)). }
    split.
    { intros ref m' Hin. unfold sent_of in Hin. rewrite omap_app in Hin.
      apply in_app_or in Hin as [Hin|Hin].
      - destruct (socket_open s (ws c)); [|destruct Hin].
        destruct Hin as [[= <- <-]|[]]. do 4 (split; [done|]).
        exists (k, c). split; [by left|done].
      - destruct (Hs ref m' Hin) as (H1 & H2 & H3 & H4 & e & He & H5).
        rewrite Hi in H3. do 4 (split; [done|]). exists e. split; [by right|done]. }
    split; [cbn [List.length]; lia|].
    intros e [<-|He] Hst Hopen.
    + cbn [snd] in *. exists m. split; [|done].
      apply ping_loop_open_before in Hopen. subst s1. rewrite send_open in Hopen.
      change (socket_open (with_drawn (S (drawn s)) s) (ws c))
        with (socket_open s (ws c)) in Hopen.
      rewrite Hopen. unfold sent_of. rewrite omap_app. apply in_or_app. left. by left.
    + destruct (Ho e He Hst Hopen) as (m' & Hin & Hu). exists m'. split; [|done].
      unfold sent_of in *. rewrite omap_app. apply in_or_app. by right.
Qed.

(** X21.  What the heartbeat sends.  [pingClients] only adds to the wire.
    It closes the sockets of the stale clients, in registry order, and
    nothing else.  Every message it sends is a ping stamped with the time
    of the round and the server's instance id, with an empty payload, and
    goes to the socket of a client that is not stale, under that client's
    user id.  It draws one identifier per client that is not stale, whether
    or not the ping could be sent.  A client that is not stale and whose
    socket is open after the round was sent a ping. *)
Theorem pingClients_pings now s :
  let s' := pingClients uuidv4 now s in
  exists new,
    wire s' = wire s ++ new
    /\ closed_of new
       = List.map (fun e => ws e.2) (List.filter (fun e => stale now e.2) (clients s))
    /\ (forall ref m, In (ref, m) (sent_of new) ->
          type m = "ping" /\ timestamp m = now
          /\ instanceId m = srv_instanceId s /\ payload m = "{}"
          /\ exists e, In e (clients s) /\ stale now e.2 = false
                       /\ ws e.2 = ref /\ userId m = ci_userId e.2)
    /\ drawn s'
       = (drawn s
          + List.length (List.filter (fun e => negb (stale now e.2)) (clients s)))%nat
    /\ (forall e, In e (clients s) -> stale now e.2 = false ->
          socket_open s' (ws e.2) = true ->
          exists m, In (ws e.2, m) (sent_of new) /\ userId m = ci_userId e.2).
Proof. intros s'. apply ping_loop_pings. Qed.

End ServerWire.

Section ClientDisconnect.
Import WebSocketSync WebSocketSyncClient.

(** X22.  [disconnect] drops the socket and the pending timer but keeps
    the address and the count of attempts.  So when the socket it closed
    then reports its close, on a client that has an address and fewer than
    ten attempts, [handleDisconnect] arms a new timer with the next
    back-off delay, and when that timer fires the client opens a new
    socket to the same address: a client that was disconnected on purpose
    connects again. *)
Theorem disconnect_does_not_stop_reconnecting c u :
  url c = Some u -> truthy u = true ->
  reconnectAttempts c < maxReconnectAttempts ->
  let c1 := disconnect c in
  let c2 := (handleDisconnect c1).1 in
  c_ws c1 = None /\ reconnectTimeout c1 = None /\ isConnected c1 = false
  /\ url c1 = Some u /\ reconnectAttempts c1 = reconnectAttempts c
  /\ (handleDisconnect c1).2 = Some (backoff (reconnectAttempts c + 1))
  /\ reconnectTimeout c2 = Some (backoff (reconnectAttempts c + 1))
  /\ reconnectAttempts c2 = reconnectAttempts c + 1
  /\ c_ws (onTimer c2) = Some CONNECTING
  /\ url (onTimer c2) = Some u.
Proof.
  intros Hu Ht Hlt c1 c2.
  assert (c_ws c1 = None) as Hws by (subst c1; unfold disconnect; cbn; by destruct (c_ws c)).
  assert (reconnectTimeout c1 = None) as Hto
    by (subst c1; unfold disconnect; cbn; by destruct (reconnectTimeout c)).
  assert (url c1 = Some u) as Hu1 by (subst c1; by cbn).
  assert (reconnectAttempts c1 = reconnectAttempts c) as Ha by (subst c1; by cbn).
  split; [done|]. split; [done|]. split; [unfold isConnected; by rewrite Hws|].
  split; [done|]. split; [done|].
  subst c2. unfold handleDisconnect. rewrite Hu1, Ha. cbn [url_truthy]. rewrite Ht.
  rewrite (proj2 (Z.ltb_lt _ _) Hlt). cbn [andb fst snd reconnectTimeout reconnectAttempts].
  do 3 (split; [done|]).
  unfold onTimer. cbn [url c_ws]. unfold connect. cbn [c_ws url]. done.
Qed.

Lemma disconnect_does_not_stop_reconnecting_witness :
  let c1 := disconnect sampleClientState in
  let c2 := (handleDisconnect c1).1 in
  c_ws c1 = None /\ reconnectTimeout c1 = None /\ isConnected c1 = false
  /\ url c1 = Some "ws://localhost:8765"
  /\ reconnectAttempts c1 = reconnectAttempts sampleClientState
  /\ (handleDisconnect c1).2
     = Some (backoff (reconnectAttempts sampleClientState + 1))
  /\ reconnectTimeout c2
     = Some (backoff (reconnectAttempts sampleClientState + 1))
  /\ reconnectAttempts c2 = reconnectAttempts sampleClientState + 1
  /\ c_ws (onTimer c2) = Some CONNECTING
  /\ url (onTimer c2) = Some "ws://localhost:8765".
Proof.
  apply (disconnect_does_not_stop_reconnecting sampleClientState "ws://localhost:8765");
    [reflexivity|reflexivity|by vm_compute].
Defined.

End ClientDisconnect.

(* ===================================================================== *)
(** * Further properties of the distributed memory                         *)
(* ===================================================================== *)

Section SyncUpsertFacts.
Import Mongo DistributedMemory.

Lemma matches_idFilter_self user inst payload now :
  matches (idFilter user inst)
    (apply_set (modeState_set payload now) (idFilter user inst)) = true.
Proof.
  rewrite matches_after_set, matches_idFilter. unfold idFilter. cbn [field].
  rewrite (bool_decide_eq_true_2 ("userId" = "userId")) by done.
  rewrite (bool_decide_eq_false_2 ("userId" = "instanceId")) by done.
  rewrite (bool_decide_eq_true_2 ("instanceId" = "instanceId")) by done.
  cbn [default id bson_eqb]. by rewrite !bool_decide_eq_true_2.
Qed.

Lemma update_first_others user inst payload now c c' :
  update_first (idFilter user inst) (modeState_set payload now) c = Some c' ->
  List.filter (fun d => negb (matches (idFilter user inst) d)) c'
  = List.filter (fun d => negb (matches (idFilter user inst) d)) c
  /\ List.length (List.filter (matches (idFilter user inst)) c')
     = List.length (List.filter (matches (idFilter user inst)) c)
  /\ (1 <= List.length (List.filter (matches (idFilter user inst)) c))%nat
  /\ List.length c' = List.length c.
Proof.
  revert c'. induction c as [|d c IH]; intros c'; [done|].
  cbn [update_first]. destruct (matches (idFilter user inst) d) eqn:E.
  - intros Heq. apply (inj Some) in Heq. subst c'.
    cbn [List.filter]. rewrite matches_after_set, E.
    cbn [negb List.length]. split; [done|]. split; [done|]. split; [lia|done].
  - destruct (update_first _ _ c) as [c0|]; [|done].
    intros Heq. apply (inj Some) in Heq. subst c'.
    destruct (IH c0 eq_refl) as (H1 & H2 & H3 & H4).
    cbn [List.filter]. rewrite E. cbn [negb List.length]. by rewrite H1, H4.
Qed.

Lemma update_first_None_filter user inst sets c :
  update_first (idFilter user inst) sets c = None ->
  List.filter (matches (idFilter user inst)) c = [].
Proof.
  induction c as [|d c IH]; [done|]. cbn [update_first List.filter].
  destruct (matches (idFilter user inst) d); [done|].
  destruct (update_first _ _ c); [done|]. auto.
Qed.

(** X23.  The store side of a [mode:changed] event is an upsert keyed by
    (userId, instanceId).  It never changes, drops or reorders the records
    of other keys.  When the store is connected and accepts the write, the
    key has afterwards as many records as before, and one if it had none;
    so events of an instance that has no record yet create exactly one,
    and later events of it create no more.  When the store is not
    connected or refuses the write, nothing changes. *)
Theorem onModeChanged_upsert dollar_names_stored
    (event : RedisBus.DistributedEvent document) now mongo :
  let key := idFilter (RedisBus.userId event) (RedisBus.instanceId event) in
  let records (m : MongoDBClient) := default [] (mode_state <$> db m) in
  let mongo' := onModeChanged dollar_names_stored event now mongo in
  List.filter (fun d => negb (matches key d)) (records mongo')
  = List.filter (fun d => negb (matches key d)) (records mongo)
  /\ List.length (List.filter (matches key) (records mongo'))
     = (if isConnected mongo && dollar_names_stored
        then Nat.max 1 (List.length (List.filter (matches key) (records mongo)))
        else List.length (List.filter (matches key) (records mongo)))
  /\ (isConnected mongo && dollar_names_stored = false -> mongo' = mongo)
  /\ client mongo' = client mongo
  /\ isConnected mongo' = isConnected mongo.
Proof.
  intros key records mongo'. subst mongo'. unfold onModeChanged.
  destruct (isConnected mongo) eqn:Hconn; [|done].
  unfold syncModeStateToMongoDB, getModeStateCollection, isConnected in *.
  destruct (client mongo) eqn:Hc; [|done]. destruct (db mongo) as [d0|] eqn:Hd; [|done].
  unfold updateOne_set_upsert. rewrite modeState_set_dollar, andb_true_r.
  destruct dollar_names_stored; cbn [negb andb]; [|by rewrite Hc, Hd].
  subst records. cbn beta. rewrite Hd.
  change [("userId", BStr (RedisBus.userId event));
          ("instanceId", BStr (RedisBus.instanceId event))]
    with (idFilter (RedisBus.userId event) (RedisBus.instanceId event)).
  fold key.
  destruct (update_first key (modeState_set (RedisBus.payload event) now)
              (mode_state d0)) as [c'|] eqn:E;
    cbn [with_mode_state db client fmap option_fmap option_map default mode_state id].
  - apply update_first_others in E as (H1 & H2 & H3 & H4). fold key in H1, H2, H3.
    rewrite H1, H2, Hc. split; [done|]. split; [lia|]. done.
  - apply update_first_None_filter in E. fold key in E.
    rewrite !List.filter_app, E. cbn [List.filter].
    unfold key at 2 4 5 6. rewrite !matches_idFilter_self. cbn [negb].
    rewrite app_nil_r, Hc. done.
Qed.

End SyncUpsertFacts.

Section LifecycleFacts.
Import DistributedMemory.
Context {T World : Type}.
Variable uuidv4 : nat -> string.
Implicit Types (cfg : DistributedMemoryConfig) (env : InitEnv T World)
  (sys : System T World).

Lemma initMongoDB_spec cfg env sys :
  let r := initMongoDB cfg env sys in
  manager r.2 = manager sys
  /\ redisEventBus r.2 = redisEventBus sys
  /\ (cfg_attempted cfg Store = false -> r = (None, sys))
  /\ match r.1 with
     | Some e => cfg_attempted cfg Store = true /\ mongoConnected env = inl e
     | None =>
         cfg_attempted cfg Store = true ->
         if Mongo.isConnected (mongoDBClient sys) || mongoConnecting env
         then mongoDBClient r.2 = mongoDBClient sys
         else exists d,
                mongoConnected env = inr d
                /\ mongoDBClient r.2
                   = {| Mongo.client := Some tt; Mongo.db := Some d |}
     end.
Proof.
  unfold initMongoDB, cfg_attempted, cfg_enabled, cfg_configured, flag_truthy.
  destruct (default false (enableMongoDB cfg)) eqn:Hen; cbn [andb]; [|done].
  destruct (bool_decide (is_Some (cfg_mongodb cfg))) eqn:Hcf; [|done].
  unfold Mongo.initialize, Mongo.isConnected.
  destruct (Mongo.client (mongoDBClient sys)) as [c|] eqn:Hc;
    destruct (Mongo.db (mongoDBClient sys)) as [d|] eqn:Hd;
    destruct (mongoConnecting env) eqn:Hing;
    destruct (mongoConnected env) as [e|d'] eqn:Hres;
    cbn [fst snd with_mongo manager redisEventBus mongoDBClient Mongo.client Mongo.db
         orb];
    rewrite ?Hc, ?Hd; repeat split; try done; eauto; by destruct (mongoDBClient sys).
Qed.

Lemma initRedis_spec cfg env sys :
  let r := initRedis cfg env sys in
  manager r.2 = manager sys
  /\ mongoDBClient r.2 = mongoDBClient sys
  /\ (cfg_attempted cfg EventBus = false -> r = (None, sys))
  /\ match r.1 with
     | Some e => cfg_attempted cfg EventBus = true /\ redisConnected env = inl e
     | None =>
         cfg_attempted cfg EventBus = true ->
         match links (redisEventBus sys) with
         | (Some _, Some _) =>
             links (redisEventBus r.2) = links (redisEventBus sys)
         | _ =>
             if redisConnecting env
             then links (redisEventBus r.2) = links (redisEventBus sys)
             else exists p q,
                    redisConnected env = inr (p, q)
                    /\ links (redisEventBus r.2) = (Some p, Some q)
         end
         /\ RedisBus.handlers (redisEventBus r.2)
            = Dispatch.on "context:updated" (contextUpdatedHandler env)
                (Dispatch.on "mode:changed" (modeChangedHandler env)
                   (RedisBus.handlers (redisEventBus sys)))
     end.
Proof.
  unfold initRedis, cfg_attempted, cfg_enabled, cfg_configured, flag_truthy, links.
  destruct (default false (enableRedis cfg)) eqn:Hen; cbn [andb]; [|done].
  destruct (bool_decide (is_Some (cfg_redis cfg))) eqn:Hcf; [|done].
  unfold RedisBus.initialize, setupRedisEventHandlers.
  destruct (RedisBus.publisher (redisEventBus sys)) as [p|] eqn:Hp;
    destruct (RedisBus.subscriber (redisEventBus sys)) as [q|] eqn:Hq;
    destruct (redisConnecting env) eqn:Hing;
    destruct (redisConnected env) as [e|[p' q']] eqn:Hres;
    cbn [fst snd with_bus manager redisEventBus mongoDBClient RedisBus.on
         RedisBus.publisher RedisBus.subscriber RedisBus.handlers];
    rewrite ?Hp, ?Hq; repeat split; try done; eauto.
Qed.

Lemma initWebSocket_spec cfg env sys :
  let r := initWebSocket uuidv4 cfg env sys in
  mongoDBClient r.2 = mongoDBClient sys
  /\ redisEventBus r.2 = redisEventBus sys
  /\ config (manager r.2) = config (manager sys)
  /\ initialized (manager r.2) = initialized (manager sys)
  /\ (cfg_attempted cfg Transport = false -> r = (None, sys))
  /\ match r.1 with
     | Some e =>
         cfg_attempted cfg Transport = true /\ wsStartError env = Some e
         /\ wsServer (manager r.2) = Some (WebSocketSync.create uuidv4)
     | None =>
         cfg_attempted cfg Transport = true ->
         wsServer (manager r.2)
         = Some (WebSocketSync.on "state-request" (stateRequestHandler env)
                   (WebSocketSync.start (WebSocketSync.create uuidv4)))
     end.
Proof.
  unfold initWebSocket, cfg_attempted, cfg_enabled, cfg_configured, flag_truthy.
  destruct (default false (enableWebSocket cfg)) eqn:Hen; cbn [andb]; [|done].
  destruct (bool_decide (is_Some (cfg_websocket cfg))) eqn:Hcf; [|done].
  destruct (wsStartError env) as [e|] eqn:He;
    cbn [fst snd with_manager with_wsServer manager redisEventBus mongoDBClient
         setupWebSocketHandlers wsServer config initialized];
    repeat split; done.
Qed.




Lemma initMongoDB_connects cfg env sys d :
  mongoConnected env = inr d -> (initMongoDB cfg env sys).1 = None.
Proof.
  intros Hd. pose proof (initMongoDB_spec cfg env sys) as (_ & _ & _ & H).
  destruct (initMongoDB cfg env sys).1; [|done]. destruct H as [_ H]. congruence.
Qed.

Lemma initRedis_connects cfg env sys pq :
  redisConnected env = inr pq -> (initRedis cfg env sys).1 = None.
Proof.
  intros Hd. pose proof (initRedis_spec cfg env sys) as (_ & _ & _ & H).
  destruct (initRedis cfg env sys).1; [|done]. destruct H as [_ H]. congruence.
Qed.

(** X26.  A transport that fails to start still counts as running.  When
    the store and the bus connect and [start] throws, [initialize] rejects
    with that error and leaves [initialized] false, but it has already
    stored the new server: one that is not listening and has no heartbeat.
    [getStatus] tests only that a server object is there, so it reports
    the transport as running, and the system as fully operational whenever
    the store and the bus are. *)
Theorem failed_start_reports_running cfg env sys e d pq mongoPingOk redisPingOk :
  initialized (manager sys) = false ->
  cfg_attempted cfg Transport = true ->
  wsStartError env = Some e ->
  mongoConnected env = inr d ->
  redisConnected env = inr pq ->
  let r := initialize uuidv4 cfg env sys in
  let st := statusOf r.2 mongoPingOk redisPingOk in
  r.1 = Some e
  /\ initialized (manager r.2) = false
  /\ (exists s, wsServer (manager r.2) = Some s
                /\ WebSocketSync.wss s = None
                /\ WebSocketSync.pingInterval s = false)
  /\ sub_enabled st Transport = true
  /\ sub_operational st Transport = true
  /\ isFullyOperational st
     = (negb (sub_enabled st Store) || sub_operational st Store)
       && (negb (sub_enabled st EventBus) || sub_operational st EventBus).
Proof.
  intros Hinit Ha He Hd Hpq r st. subst st r. unfold initialize. rewrite Hinit.
  set (sys0 := with_manager _ sys).
  pose proof (initMongoDB_connects cfg env sys0 d Hd) as M.
  pose proof (initMongoDB_spec cfg env sys0) as (M1 & M2 & _).
  destruct (initMongoDB cfg env sys0) as [e1 sys1]. cbn [fst snd] in *. subst e1.
  pose proof (initRedis_connects cfg env sys1 pq Hpq) as R.
  pose proof (initRedis_spec cfg env sys1) as (R1 & R2 & _).
  destruct (initRedis cfg env sys1) as [e2 sys2]. cbn [fst snd] in *. subst e2.
  pose proof (initWebSocket_spec cfg env sys2) as (W1 & W2 & W3 & W4 & W5 & W6).
  assert ((initWebSocket uuidv4 cfg env sys2).1 = Some e) as W.
  { unfold initWebSocket. unfold cfg_attempted, cfg_enabled, cfg_configured in Ha.
    unfold flag_truthy. rewrite Ha, He.
    apply andb_prop in Ha as [-> _]. done. }
  destruct (initWebSocket uuidv4 cfg env sys2) as [e3 sys3]. cbn [fst snd] in *.
  subst e3. destruct W6 as (_ & _ & Hs).
  cbn [fst snd]. split; [done|]. split.
  { rewrite W4, R1, M1. subst sys0. by cbn. }
  split; [by exists (WebSocketSync.create uuidv4)|].
  unfold statusOf, getStatus.
  cbn [sub_enabled sub_operational mongodb redis websocket enabled connected
       healthy ws_enabled running isFullyOperational].
  rewrite Hs, W3, R1, M1. subst sys0. cbn [with_manager manager config].
  cbn [flag_or_false flag_falsy].
  unfold cfg_attempted, cfg_enabled in Ha. apply andb_prop in Ha as [Hen _].
  cbn beta iota in Hen. rewrite Hen. split; [done|].
  rewrite bool_decide_eq_true_2 by (by eexists). split; [done|].
  rewrite orb_true_r, andb_true_r.
  by destruct (enableMongoDB cfg) as [[|]|], (enableRedis cfg) as [[|]|].
Qed.

Lemma shutdown_resolved sys :
  let sys' := (shutdown None sys).2 in
  (shutdown None sys).1 = None
  /\ initialized (manager sys') = false
  /\ wsServer (manager sys') = None
  /\ config (manager sys') = config (manager sys)
  /\ RedisBus.handlers (redisEventBus sys') = RedisBus.handlers (redisEventBus sys)
  /\ RedisBus.bus_instanceId (redisEventBus sys')
     = RedisBus.bus_instanceId (redisEventBus sys)
  /\ (RedisBus.isConnected (redisEventBus sys) = false ->
      redisEventBus sys' = redisEventBus sys)
  /\ (Mongo.isConnected (mongoDBClient sys) = false ->
      mongoDBClient sys' = mongoDBClient sys)
  /\ RedisBus.isConnected (redisEventBus sys') = false
  /\ Mongo.isConnected (mongoDBClient sys') = false.
Proof.
  unfold shutdown.
  assert (exists m1, (match wsServer (manager sys) with
                      | Some s =>
                          match WebSocketSync.wss s, @None string with
                          | Some _, Some error =>
                              (Some error,
                               with_manager
                                 (with_wsServer
                                    (Some (WebSocketSync.stop
                                             (bool_decide (@None string = None)) s))
                                    (manager sys)) sys)
                          | _, _ =>
                              (None,
                               with_manager (with_wsServer None (manager sys)) sys)
                          end
                      | None => (None, sys)
                      end) = (None, with_manager m1 sys)
                     /\ wsServer m1 = None /\ config m1 = config (manager sys))
    as (m1 & -> & Hw & Hc).
  { destruct (wsServer (manager sys)) as [s|] eqn:E.
    - eexists. split; [by destruct (WebSocketSync.wss s)|]. done.
    - exists (manager sys). by destruct sys as [[] ? ?]. }
  cbn [with_manager redisEventBus mongoDBClient manager].
  destruct (RedisBus.isConnected (redisEventBus sys)) eqn:Hb;
    destruct (Mongo.isConnected (mongoDBClient sys)) eqn:Hm;
    cbn [fst snd with_manager with_bus with_mongo with_initialized redisEventBus
         mongoDBClient manager initialized wsServer config RedisBus.close
         RedisBus.handlers RedisBus.bus_instanceId];
    rewrite ?Hm, ?Hb;
    cbn [fst snd with_manager with_bus with_mongo with_initialized redisEventBus
         mongoDBClient manager initialized wsServer config RedisBus.close
         RedisBus.handlers RedisBus.bus_instanceId];
    repeat (split; [done|]); try done.
  all: unfold Mongo.close, Mongo.isConnected in *;
    destruct (Mongo.client (mongoDBClient sys)); done.
Qed.

(** X27.  What [shutdown] does.  It rejects only when the transport is
    listening and closing it fails; it has then stopped the heartbeat and
    dropped the clients, but it leaves the server in place, the store and
    the bus as they were and [initialized] as it was, so an initialised
    manager stays initialised.  Otherwise it resolves: the server is
    dropped, [initialized] is false, and neither the store nor the bus is
    connected; a store or a bus that was not connected is left untouched,
    even if it still holds its connection objects.  In both cases the
    configuration and the handlers registered on the bus are kept. *)
Theorem shutdown_outcome wsCloseError sys :
  let r := shutdown wsCloseError sys in
  let sys' := r.2 in
  config (manager sys') = config (manager sys)
  /\ RedisBus.handlers (redisEventBus sys') = RedisBus.handlers (redisEventBus sys)
  /\ match wsServer (manager sys), wsCloseError with
     | Some s, Some error =>
         if bool_decide (is_Some (WebSocketSync.wss s)) then
           r.1 = Some error
           /\ initialized (manager sys') = initialized (manager sys)
           /\ mongoDBClient sys' = mongoDBClient sys
           /\ redisEventBus sys' = redisEventBus sys
           /\ exists s', wsServer (manager sys') = Some s'
                         /\ WebSocketSync.wss s' = WebSocketSync.wss s
                         /\ WebSocketSync.pingInterval s' = false
                         /\ WebSocketSync.clients s' = []
         else r.1 = None /\ wsServer (manager sys') = None
              /\ initialized (manager sys') = false
     | _, _ => r.1 = None /\ wsServer (manager sys') = None
               /\ initialized (manager sys') = false
     end
  /\ (r.1 = None ->
      RedisBus.isConnected (redisEventBus sys') = false
      /\ Mongo.isConnected (mongoDBClient sys') = false
      /\ (RedisBus.isConnected (redisEventBus sys) = false ->
          redisEventBus sys' = redisEventBus sys)
      /\ (Mongo.isConnected (mongoDBClient sys) = false ->
          mongoDBClient sys' = mongoDBClient sys)).
Proof.
  intros r sys'. subst sys' r.
  destruct wsCloseError as [error|].
  2:{ destruct (shutdown_resolved sys)
        as (H1 & H2 & H3 & H4 & H5 & H6 & H7 & H8 & H9 & H10).
      split; [done|]. split; [done|]. split; [by destruct (wsServer (manager sys))|].
      done. }
  unfold shutdown.
  destruct (wsServer (manager sys)) as [s|] eqn:Hs.
  2:{ pose proof (shutdown_resolved sys) as H. unfold shutdown in H. rewrite Hs in H.
      destruct H as (H1 & H2 & H3 & H4 & H5 & H6 & H7 & H8 & H9 & H10).
      split; [done|]. split; [done|]. done. }
  destruct (WebSocketSync.wss s) as [cs|] eqn:Hwss.
  - rewrite (bool_decide_eq_true_2 (is_Some (Some cs))) by (by eexists).
    cbn [fst snd with_manager with_wsServer manager config redisEventBus
         mongoDBClient initialized wsServer].
    rewrite (bool_decide_eq_false_2 (Some error = None)) by done.
    split; [done|]. split; [done|]. split; [|done].
    do 4 (split; [done|]). eexists. split; [done|].
    unfold WebSocketSync.stop. cbn [WebSocketSync.wss]. rewrite Hwss.
    cbn [WebSocketSync.with_clients WebSocketSync.wss WebSocketSync.pingInterval
         WebSocketSync.clients].
    match goal with
    | |- context [WebSocketSync.close_all ?ts ?s0] =>
        destruct (close_all_spec ts s0) as (_ & _ & -> & -> & _)
    end.
    done.
  - rewrite (bool_decide_eq_false_2 (is_Some None)) by (by intros [? ?]).
    set (sys1 := with_manager (with_wsServer None (manager sys)) sys).
    pose proof (shutdown_resolved sys1) as H. unfold shutdown in H.
    cbn [sys1 with_manager with_wsServer manager wsServer redisEventBus
         mongoDBClient config] in H.
    cbn [sys1 with_manager with_wsServer manager wsServer redisEventBus
         mongoDBClient config].
    destruct H as (H1 & H2 & H3 & H4 & H5 & H6 & H7 & H8 & H9 & H10).
    split; [done|]. split; [done|]. done.
Qed.

Lemma initRedis_linked cfg env sys :
  is_Some (RedisBus.publisher (redisEventBus sys)) ->
  is_Some (RedisBus.subscriber (redisEventBus sys)) ->
  RedisBus.publisher (redisEventBus (initRedis cfg env sys).2)
  = RedisBus.publisher (redisEventBus sys)
  /\ RedisBus.subscriber (redisEventBus (initRedis cfg env sys).2)
     = RedisBus.subscriber (redisEventBus sys).
Proof.
  intros [p Hp] [q Hq]. unfold initRedis.
  destruct (flag_truthy (enableRedis cfg) && _); [|done].
  unfold RedisBus.initialize. rewrite Hp, Hq. cbn. by rewrite Hp, Hq.
Qed.

Lemma initialize_resolved_bus cfg env sys sys' :
  initialized (manager sys) = false ->
  initialize uuidv4 cfg env sys = (None, sys') ->
  cfg_attempted cfg EventBus = true ->
  RedisBus.handlers (redisEventBus sys')
  = Dispatch.on "context:updated" (contextUpdatedHandler env)
      (Dispatch.on "mode:changed" (modeChangedHandler env)
         (RedisBus.handlers (redisEventBus sys)))
  /\ (is_Some (RedisBus.publisher (redisEventBus sys)) ->
      is_Some (RedisBus.subscriber (redisEventBus sys)) ->
      RedisBus.publisher (redisEventBus sys')
      = RedisBus.publisher (redisEventBus sys)
      /\ RedisBus.subscriber (redisEventBus sys')
         = RedisBus.subscriber (redisEventBus sys)).
Proof.
  intros Hinit. unfold initialize. rewrite Hinit.
  set (sys0 := with_manager _ sys).
  pose proof (initMongoDB_spec cfg env sys0) as (M1 & M2 & M3 & M4).
  destruct (initMongoDB cfg env sys0) as [[e1|] sys1] eqn:E1; [done|].
  pose proof (initRedis_spec cfg env sys1) as (R1 & R2 & R3 & R4).
  pose proof (initRedis_linked cfg env sys1) as RL.
  destruct (initRedis cfg env sys1) as [[e2|] sys2] eqn:E2; [done|].
  pose proof (initWebSocket_spec cfg env sys2) as (W1 & W2 & W3 & W4 & W5 & W6).
  destruct (initWebSocket uuidv4 cfg env sys2) as [[e3|] sys3] eqn:E3; [done|].
  cbn [fst snd] in *. intros [= <-] Ha.
  cbn [with_manager with_initialized redisEventBus].
  rewrite W2. cbn [sys0 with_manager redisEventBus] in M2. rewrite M2 in R4, RL.
  split; [by apply R4|]. exact RL.
Qed.

(** X28.  Restarting adds the bus handlers a second time.  [shutdown] keeps
    the handlers registered on the bus, and every [initialize] that
    attempts the bus and resolves registers its two closures on top of
    them.  So after a shutdown and a new start with new closures, the bus
    holds the old handler of [mode:changed] and the new one, and an event
    is handled once per start.  Moreover, a bus that held both connection
    objects without being connected is closed by neither call: it keeps
    the same objects and is still not connected after the restart. *)
Theorem restart_registers_handlers_again cfg env sys :
  let sys1 := (shutdown None sys).2 in
  let r := initialize uuidv4 cfg env sys1 in
  cfg_attempted cfg EventBus = true ->
  r.1 = None ->
  RedisBus.handlers (redisEventBus r.2)
  = Dispatch.on "context:updated" (contextUpdatedHandler env)
      (Dispatch.on "mode:changed" (modeChangedHandler env)
         (RedisBus.handlers (redisEventBus sys)))
  /\ (forall hs,
        RedisBus.handlers (redisEventBus sys) !! "mode:changed" = Some hs ->
        Dispatch.handler_id (modeChangedHandler env)
          ∉ List.map Dispatch.handler_id hs ->
        RedisBus.handlers (redisEventBus r.2) !! "mode:changed"
        = Some (hs ++ [modeChangedHandler env]))
  /\ (is_Some (RedisBus.publisher (redisEventBus sys)) ->
      is_Some (RedisBus.subscriber (redisEventBus sys)) ->
      RedisBus.isConnected (redisEventBus sys) = false ->
      RedisBus.publisher (redisEventBus r.2)
      = RedisBus.publisher (redisEventBus sys)
      /\ RedisBus.subscriber (redisEventBus r.2)
         = RedisBus.subscriber (redisEventBus sys)
      /\ RedisBus.isConnected (redisEventBus r.2) = false).
Proof.
  intros sys1 r Ha Hr.
  destruct (shutdown_resolved sys)
    as (_ & S2 & _ & _ & S5 & _ & S7 & _). fold sys1 in S2, S5, S7.
  assert (initialize uuidv4 cfg env sys1 = (None, r.2)) as Hres
    by (subst r; destruct (initialize uuidv4 cfg env sys1) as [? ?];
        cbn in Hr; by subst).
  destruct (initialize_resolved_bus cfg env sys1 r.2 S2 Hres Ha) as [Hh Hl].
  rewrite S5 in Hh. split; [exact Hh|]. split.
  - intros hs Hhs Hfresh. rewrite Hh, !on_lookup.
    rewrite bool_decide_eq_false_2 by done. rewrite bool_decide_eq_true_2 by done.
    rewrite Hhs. cbn [default from_option id]. f_equal.
    unfold Dispatch.set_add.
    destruct (existsb _ hs) eqn:E; [|done]. exfalso.
    apply existsb_exists in E as (h' & Hin & Heq). apply Nat.eqb_eq in Heq.
    apply Hfresh. rewrite <- Heq. by apply list_elem_of_In, List.in_map.
  - intros Hp Hq Hdis. rewrite (S7 Hdis) in Hl. destruct (Hl Hp Hq) as [-> ->].
    split; [done|]. split; [done|].
    unfold RedisBus.isConnected in *.
    destruct Hl as [Hl1 Hl2]; [done..|]. by rewrite Hl1, Hl2.
Qed.

End LifecycleFacts.

Section LifecycleSamples.
Import DistributedMemory.


Lemma failed_start_reports_running_witness :
  let r := initialize WebSocketSync.sampleUuid sampleConfig sampleEnvNoTransport
             sampleSystem in
  let st := statusOf r.2 true true in
  r.1 = Some "listen EACCES"
  /\ initialized (manager r.2) = false
  /\ (exists s, wsServer (manager r.2) = Some s
                /\ WebSocketSync.wss s = None
                /\ WebSocketSync.pingInterval s = false)
  /\ sub_enabled st Transport = true
  /\ sub_operational st Transport = true
  /\ isFullyOperational st
     = (negb (sub_enabled st Store) || sub_operational st Store)
       && (negb (sub_enabled st EventBus) || sub_operational st EventBus).
Proof.
  apply (failed_start_reports_running WebSocketSync.sampleUuid sampleConfig
           sampleEnvNoTransport sampleSystem "listen EACCES"
           {| Mongo.mode_state := [] |}
           ({| RedisBus.isOpen := true |}, {| RedisBus.isOpen := true |})
           true true); reflexivity.
Defined.

Lemma restart_registers_handlers_again_witness :
  let sys :=
    (initialize WebSocketSync.sampleUuid sampleConfig sampleEnv sampleSystem).2 in
  let r :=
    initialize WebSocketSync.sampleUuid sampleConfig sampleEnvRestart
      (shutdown None sys).2 in
  RedisBus.handlers (redisEventBus r.2) !! "mode:changed"
  = Some [RedisBus.countingHandler; modeChangedHandler sampleEnvRestart].
Proof.
  intros sys r.
  destruct (restart_registers_handlers_again WebSocketSync.sampleUuid sampleConfig
              sampleEnvRestart sys eq_refl eq_refl) as (_ & H & _).
  apply (H [RedisBus.countingHandler]); [reflexivity|].
  apply not_elem_of_cons. split; [discriminate|apply not_elem_of_nil].
Defined.

End LifecycleSamples.

(* ===================================================================== *)
(** * Further properties of the tool-server coordinator                    *)
(* ===================================================================== *)

Section MultiMcpReading.
Import MultiMcp.
Context {Value : Type}.
Implicit Types (c : Coordinator Value) (e : McpToolExecution Value)
  (l : list (McpToolExecution Value)) (m : list (Z * ServerStats)).

(** X29.  [getExecutionHistory] always returns the end of the log.  For a
    positive limit it returns the most recent entries, at most that many,
    and twenty when called without a limit.  A limit of zero does not give
    the empty list but the whole log, and a negative limit [-k] gives the
    log without its first [k] entries. *)
Theorem getExecutionHistory_limit c :
  let h := executionHistory c in
  (forall limit, exists older, h = older ++ getExecutionHistoryInt limit c)
  /\ (forall n, 0 < n ->
        getExecutionHistoryInt (Some n) c = most_recent (Z.to_nat n) h
        /\ Z.of_nat (List.length (getExecutionHistoryInt (Some n) c)) <= n)
  /\ getExecutionHistoryInt None c = most_recent 20 h
  /\ getExecutionHistoryInt (Some 0) c = h
  /\ (forall k, 0 < k ->
        getExecutionHistoryInt (Some (- k)) c = skipn (Z.to_nat k) h).
Proof.
  intros h. subst h. unfold getExecutionHistoryInt, most_recent, slice_start.
  split.
  { intros limit. exists (take (slice_start (- default 20 limit)
                                  (List.length (executionHistory c)))
                            (executionHistory c)).
    unfold slice_start. by rewrite take_drop. }
  assert (forall n, 0 < n ->
            skipn (if - n <? 0
                   then Z.to_nat
                          (Z.max (Z.of_nat (List.length (executionHistory c)) + - n) 0)
                   else Z.to_nat
                          (Z.min (- n) (Z.of_nat (List.length (executionHistory c)))))
              (executionHistory c)
            = skipn (List.length (executionHistory c) - Z.to_nat n)
                (executionHistory c)) as Hpos.
  { intros n Hn. rewrite (proj2 (Z.ltb_lt (- n) 0)) by lia. f_equal. lia. }
  split.
  { intros n Hn. cbn [default from_option id]. rewrite (Hpos n Hn).
    split; [done|]. rewrite length_skipn. lia. }
  split; [exact (Hpos 20 eq_refl)|].
  split.
  { cbn [default from_option id Z.opp Z.ltb Z.compare].
    rewrite Z.min_l by lia. done. }
  intros k Hk. cbn [default from_option id].
  rewrite (proj2 (Z.ltb_ge (- - k) 0)) by lia.
  destruct (decide (k <= Z.of_nat (List.length (executionHistory c)))) as [Hle|Hgt].
  - f_equal. lia.
  - rewrite !skipn_all2 by lia. done.
Qed.

Lemma stats_get_set_eq k v m : stats_get k (stats_set k v m) = Some v.
Proof.
  induction m as [|[k' v'] m IH]; cbn [stats_set stats_get].
  - by rewrite Z.eqb_refl.
  - destruct (Z.eqb k' k) eqn:E; cbn [stats_get]; by rewrite E.
Qed.

Lemma stats_get_set_ne k k' v m :
  k <> k' -> stats_get k' (stats_set k v m) = stats_get k' m.
Proof.
  intros Hne. induction m as [|[k0 v0] m IH]; cbn [stats_set stats_get].
  - by rewrite (proj2 (Z.eqb_neq k k')).
  - destruct (Z.eqb k0 k) eqn:E; cbn [stats_get]; [|by rewrite IH].
    apply Z.eqb_eq in E. subst k0. by rewrite (proj2 (Z.eqb_neq k k')).
Qed.

Lemma stats_set_keys k v m :
  (stats_set k v m).*1
  = match stats_get k m with
    | Some _ => m.*1
    | None => m.*1 ++ [k]
    end.
Proof.
  induction m as [|[k' v'] m IH]; cbn [stats_set stats_get]; [done|].
  destruct (Z.eqb k' k) eqn:E; [done|].
  rewrite !fmap_cons, IH. by destruct (stats_get k m).
Qed.

Lemma stats_get_None_keys k m : stats_get k m = None <-> k ∉ m.*1.
Proof.
  induction m as [|[k' v'] m IH]; cbn [stats_get].
  - split; [intros _; apply not_elem_of_nil|done].
  - rewrite fmap_cons, not_elem_of_cons. cbn [fst].
    destruct (Z.eqb k' k) eqn:E.
    + apply Z.eqb_eq in E. split; [done|]. intros [H _]. congruence.
    + apply Z.eqb_neq in E. rewrite IH. split; [intros H; split; [congruence|done]|].
      by intros [_ H].
Qed.

Lemma stats_get_In k v m : NoDup m.*1 -> (In (k, v) m <-> stats_get k m = Some v).
Proof.
  induction m as [|[k' v'] m IH]; cbn [stats_get In]; [intros _; split; [done|done]|].
  rewrite fmap_cons. intros [Hk Hnd]%NoDup_cons. cbn [fst] in Hk.
  destruct (Z.eqb k' k) eqn:E.
  - apply Z.eqb_eq in E. subst k'. split.
    + intros [[= ->]|Hin]; [done|]. exfalso. apply Hk.
      apply list_elem_of_fmap. exists (k, v). split; [done|]. by apply list_elem_of_In.
    + intros [= ->]. by left.
  - apply Z.eqb_neq in E. rewrite <- (IH Hnd). split; [|by right].
    intros [[= -> _]|Hin]; [done|done].
Qed.

Lemma of_server_snoc k l e :
  of_server k (l ++ [e])
  = of_server k l ++ (if Z.eqb (serverId e) k then [e] else []).
Proof. unfold of_server. by rewrite List.filter_app. Qed.

Lemma count_step_ok m l e : counted_ok m l -> counted_ok (count_step m e) (l ++ [e]).
Proof.
  intros [Hnd Hget]. unfold count_step. split.
  - rewrite stats_set_keys. destruct (stats_get (serverId e) m) eqn:E; [done|].
    apply NoDup_app. split; [done|]. split; [|apply NoDup_singleton].
    intros k Hk ->%list_elem_of_singleton. by apply stats_get_None_keys in E.
  - intros k. rewrite of_server_snoc.
    destruct (Z.eqb (serverId e) k) eqn:E.
    + apply Z.eqb_eq in E. subst k. rewrite stats_get_set_eq, Hget.
      destruct (decide (of_server (serverId e) l = [])) as [Hnil|Hcons].
      * rewrite Hnil. cbn [app default from_option id count successRate List.length].
        by rewrite decide_False by done.
      * cbn [default from_option id count successRate].
        rewrite decide_False by (by destruct (of_server (serverId e) l)).
        rewrite length_app. cbn [List.length]. do 3 f_equal. lia.
    + apply Z.eqb_neq in E. rewrite stats_get_set_ne by done.
      by rewrite app_nil_r, Hget.
Qed.

Lemma counted_fold l m l0 :
  counted_ok m l0 -> counted_ok (fold_left count_step l m) (l0 ++ l).
Proof.
  revert m l0. induction l as [|e l IH]; intros m l0 H; cbn [fold_left].
  - by rewrite app_nil_r.
  - rewrite (cons_middle e l0 l), app_assoc. apply IH. by apply count_step_ok.
Qed.

Lemma counted_history l : counted_ok (fold_left count_step l []) l.
Proof.
  apply (counted_fold l [] []). split; [constructor|]. intros k. by rewrite decide_True.
Qed.

Lemma first_occurrences_snoc (ks : list Z) k :
  first_occurrences (ks ++ [k])
  = if decide (k ∈ ks) then first_occurrences ks else first_occurrences ks ++ [k].
Proof.
  induction ks as [|x ks IH]; [done|]. cbn [app first_occurrences]. rewrite IH.
  destruct (decide (k = x)) as [->|Hne].
  - rewrite (decide_True (P := x ∈ x :: ks)) by (apply elem_of_cons; by left).
    destruct (decide (x ∈ ks)); [done|].
    rewrite List.filter_app. cbn [List.filter]. rewrite Z.eqb_refl. cbn [negb].
    by rewrite app_nil_r.
  - destruct (decide (k ∈ ks)) as [Hin|Hout].
    + by rewrite decide_True by (apply elem_of_cons; by right).
    + rewrite decide_False by (intros [?|?]%elem_of_cons; done).
      rewrite List.filter_app. cbn [List.filter].
      by rewrite (proj2 (Z.eqb_neq k x) Hne).
Qed.

Lemma of_server_nil_iff k l : of_server k l = [] <-> k ∉ List.map serverId l.
Proof.
  unfold of_server. induction l as [|e l IH]; cbn [List.filter List.map].
  - split; [intros _; apply not_elem_of_nil|done].
  - rewrite not_elem_of_cons. destruct (Z.eqb (serverId e) k) eqn:E.
    + apply Z.eqb_eq in E. split; [done|]. intros [H _]. congruence.
    + apply Z.eqb_neq in E. rewrite IH. split; [intros H; split; [congruence|done]|].
      by intros [_ H].
Qed.

(** The keys of the first loop are the servers in the order met, and its
    counts add up to the number of entries. *)
Lemma counted_order l m l0 :
  counted_ok m l0 ->
  m.*1 = first_occurrences (List.map serverId l0) ->
  sum_list_with (fun entry => count entry.2) m = List.length l0 ->
  (fold_left count_step l m).*1 = first_occurrences (List.map serverId (l0 ++ l))
  /\ sum_list_with (fun entry => count entry.2) (fold_left count_step l m)
     = List.length (l0 ++ l).
Proof.
  revert m l0. induction l as [|e l IH]; intros m l0 Hok Hkeys Hsum; cbn [fold_left].
  - by rewrite app_nil_r.
  - rewrite (cons_middle e l0 l), app_assoc.
    apply IH; [by apply count_step_ok| |].
    + unfold count_step. rewrite stats_set_keys, List.map_app. cbn [List.map].
      rewrite first_occurrences_snoc, Hkeys. destruct Hok as [_ Hget].
      rewrite Hget.
      destruct (decide (of_server (serverId e) l0 = [])) as [Hnil|Hcons].
      * apply of_server_nil_iff in Hnil. by rewrite decide_False.
      * rewrite decide_True; [done|].
        destruct (decide (serverId e ∈ List.map serverId l0)) as [|Hout]; [done|].
        by apply of_server_nil_iff in Hout.
    + rewrite length_app. cbn [List.length]. rewrite <- Hsum. unfold count_step.
      clear. generalize (serverId e) as k. intros k.
      induction m as [|[k' v'] m IH]; cbn [stats_get stats_set sum_list_with]; [cbn; lia|].
      destruct (Z.eqb k' k); cbn [sum_list_with default from_option id count snd];
        cbn [count snd] in *; lia.
Qed.

Lemma sum_durations_bounds l lo hi acc :
  (forall e, In e l -> lo <= duration e <= hi) ->
  acc + Z.of_nat (List.length l) * lo
  <= fold_left (fun sum e => sum + duration e) l acc
  <= acc + Z.of_nat (List.length l) * hi.
Proof.
  revert acc. induction l as [|e l IH]; intros acc H; cbn [fold_left List.length]; [lia|].
  pose proof (H e (or_introl eq_refl)) as He.
  specialize (IH (acc + duration e) (fun e' H' => H e' (or_intror H'))). lia.
Qed.

Lemma round_div_bounds s n lo hi :
  0 < n -> n * lo <= s <= n * hi -> lo <= round_div s n <= hi.
Proof.
  intros Hn [H1 H2]. unfold round_div. split.
  - apply Z.div_le_lower_bound; lia.
  - apply Z.div_lt_upper_bound in H2 as _ || idtac.
    assert ((2 * s + n) / (2 * n) < hi + 1); [|lia].
    apply Z.div_lt_upper_bound; lia.
Qed.

(** X30.  The figures of [getExecutionStats] add up.  Successes and
    failures make up the total.  [byServer] has one entry for each server
    that occurs in the log, in the order of first occurrence, and none for
    any other; its count is the number of the server's entries, so it is
    at least one and the success rate never divides by zero; the rate is
    the server's successes over its entries, and the counts of all servers
    add up to the total.  The average duration of an empty log is zero,
    and that of any other log lies between the shortest and the longest
    duration. *)
Theorem getExecutionStats_consistent c :
  let h := executionHistory c in
  let s := getExecutionStats c in
  totalExecutions s = List.length h
  /\ totalExecutions s = (successCount s + failureCount s)%nat
  /\ (byServer s).*1 = first_occurrences (List.map serverId h)
  /\ NoDup (byServer s).*1
  /\ (forall sid, sid ∈ (byServer s).*1 <-> exists e, In e h /\ serverId e = sid)
  /\ sum_list_with (fun entry => count entry.2) (byServer s) = totalExecutions s
  /\ (forall sid st, In (sid, st) (byServer s) ->
        count st = List.length (of_server sid h)
        /\ (1 <= count st)%nat
        /\ successRate st
           = (List.length (List.filter success (of_server sid h)), count st)
        /\ (fst (successRate st) <= snd (successRate st))%nat)
  /\ (h = [] -> averageDuration s = 0 /\ byServer s = [])
  /\ (forall lo hi, h <> [] -> (forall e, In e h -> lo <= duration e <= hi) ->
        lo <= averageDuration s <= hi).
Proof.
  intros h s. subst s. unfold getExecutionStats. fold h.
  cbn [totalExecutions successCount failureCount averageDuration byServer].
  destruct (counted_history h) as [Hnd Hget].
  set (counted := fold_left count_step h []) in *.
  set (rate := fun '(sid, stats) => _).
  assert ((List.map rate counted).*1 = counted.*1) as Hkeys.
  { clear. induction counted as [|[k v] m IH]; [done|].
    cbn [List.map]. rewrite !fmap_cons. by rewrite IH. }
  split; [done|]. split.
  { pose proof (List.filter_length_le success h). lia. }
  destruct (counted_order h [] []) as [Horder Hsum]; [|done|done|].
  { split; [constructor|]. intros k. by rewrite decide_True. }
  cbn [app] in Horder, Hsum. fold counted in Horder, Hsum.
  assert (sum_list_with (fun entry => count entry.2) (List.map rate counted)
          = sum_list_with (fun entry => count entry.2) counted) as Hcounts.
  { clear. induction counted as [|[k v] m IH]; [done|].
    cbn [List.map sum_list_with snd count]. by rewrite IH. }
  split; [by rewrite Hkeys|].
  split; [by rewrite Hkeys|]. split; [|split; [by rewrite Hcounts|]].
  { intros sid. rewrite Hkeys. split.
    - intros Hin. destruct (stats_get sid counted) eqn:E.
      + rewrite Hget in E. destruct (decide (of_server sid h = [])) as [|Hne]; [done|].
        destruct (of_server sid h) as [|e l] eqn:El; [done|].
        assert (In e (of_server sid h)) as He by (rewrite El; by left).
        apply List.filter_In in He as [He Hs]. apply Z.eqb_eq in Hs. by exists e.
      + by apply stats_get_None_keys in E.
    - intros (e & He & Hs). destruct (decide (sid ∈ counted.*1)) as [|Hout]; [done|].
      apply stats_get_None_keys in Hout. rewrite Hget in Hout.
      destruct (decide (of_server sid h = [])) as [Hnil|]; [|done].
      assert (In e (of_server sid h)) as Hin
        by (apply List.filter_In; split; [done|by apply Z.eqb_eq]).
      rewrite Hnil in Hin. destruct Hin. }
  split.
  { intros sid st Hin. apply List.in_map_iff in Hin as ([k v] & Heq & Hin).
    cbn in Heq. injection Heq as -> <-.
    apply (stats_get_In _ _ _ Hnd) in Hin. rewrite Hget in Hin.
    destruct (decide (of_server sid h = [])) as [|Hne]; [done|].
    injection Hin as <-. cbn [count successRate fst snd]. fold (of_server sid h).
    split; [done|]. split; [destruct (of_server sid h); [done|cbn; lia]|].
    split; [done|]. apply List.filter_length_le. }
  split.
  { intros Hnil. subst counted. rewrite Hnil. done. }
  intros lo hi Hne Hb.
  assert (0 < List.length h)%nat as Hlen by (destruct h; [done|cbn; lia]).
  rewrite (proj2 (Nat.ltb_lt _ _) Hlen).
  apply round_div_bounds; [lia|].
  pose proof (sum_durations_bounds h lo hi 0 Hb). lia.
Qed.

End MultiMcpReading.
